(** * Admin backend API: controllers, routers and their properties

    A shallow embedding of the Express controllers for categories,
    products, orders and admin login, together with the route tables.

    The controllers are [async] functions that talk to a document store
    through Mongoose models and answer with [res.status(..).json(..)].
    They are embedded as functions in a small monad that threads the
    store and lets every store call throw, so that the [try]/[catch]
    structure of the source is kept. *)

From Stdlib Require Import List String Ascii ZArith QArith Bool Arith Lia.
From Stdlib Require Import Permutation Sorted.
Import ListNotations.

Local Close Scope Q_scope.
Local Open Scope list_scope.
Local Open Scope string_scope.

Set Implicit Arguments.
Set Warnings "-register-all".

(* ===================================================================== *)
(** ** Strings *)
(* ===================================================================== *)

Module Str.

(** A string holds the UTF-8 encoding of the JavaScript string it stands
    for, byte by byte; a surrogate that stands alone is held as the
    three bytes the same encoding gives its code point, none of which
    takes part in white space.

    The white space [String.prototype.trim] removes is the white space
    and the line terminators of ECMAScript.  Of one byte: tab, line
    feed, vertical tab, form feed, carriage return and space.  Of two
    bytes: U+00A0 ([C2 A0]).  Of three bytes: U+1680 ([E1 9A 80]),
    U+2000 to U+200A ([E2 80 80] to [E2 80 8A]), U+2028, U+2029 and
    U+202F ([E2 80 A8], [E2 80 A9], [E2 80 AF]), U+205F ([E2 81 9F]),
    U+3000 ([E3 80 80]) and U+FEFF ([EF BB BF]). *)
Definition isSpace (c : ascii) : bool :=
  let n := nat_of_ascii c in
  (n =? 32)%nat || ((9 <=? n)%nat && (n <=? 13)%nat).

Definition isSpace2 (c1 c2 : ascii) : bool :=
  (nat_of_ascii c1 =? 194)%nat && (nat_of_ascii c2 =? 160)%nat.

Definition isSpace3 (c1 c2 c3 : ascii) : bool :=
  let a := nat_of_ascii c1 in
  let b := nat_of_ascii c2 in
  let c := nat_of_ascii c3 in
  ((a =? 225)%nat && (b =? 154)%nat && (c =? 128)%nat)
  || ((a =? 226)%nat && (b =? 128)%nat
      && (((128 <=? c)%nat && (c <=? 138)%nat)
          || (c =? 168)%nat || (c =? 169)%nat || (c =? 175)%nat))
  || ((a =? 226)%nat && (b =? 129)%nat && (c =? 159)%nat)
  || ((a =? 227)%nat && (b =? 128)%nat && (c =? 128)%nat)
  || ((a =? 239)%nat && (b =? 187)%nat && (c =? 191)%nat).

(** What is left of a string once the white space character it starts
    with is taken off, if it starts with one. *)
Definition dropSpace (s : string) : option string :=
  match s with
  | String c1 r1 =>
      if isSpace c1 then Some r1
      else match r1 with
           | String c2 r2 =>
               if isSpace2 c1 c2 then Some r2
               else match r2 with
                    | String c3 r3 => if isSpace3 c1 c2 c3 then Some r3 else None
                    | EmptyString => None
                    end
           | EmptyString => None
           end
  | EmptyString => None
  end.

Fixpoint trimStart (s : string) : string :=
  match s with
  | String c1 r1 =>
      if isSpace c1 then trimStart r1
      else match r1 with
           | String c2 r2 =>
               if isSpace2 c1 c2 then trimStart r2
               else match r2 with
                    | String c3 r3 => if isSpace3 c1 c2 c3 then trimStart r3 else s
                    | EmptyString => s
                    end
           | EmptyString => s
           end
  | EmptyString => EmptyString
  end.

(** [trimEnd] cuts a string where only white space is left. *)
Fixpoint trimEnd (s : string) : string :=
  match s with
  | EmptyString => EmptyString
  | String c rest =>
      match trimStart s with
      | EmptyString => EmptyString
      | _ => String c (trimEnd rest)
      end
  end.

Definition trim (s : string) : string := trimEnd (trimStart s).

Definition isHexDigit (c : ascii) : bool :=
  let n := nat_of_ascii c in
  ((48 <=? n)%nat && (n <=? 57)%nat)      (* 0-9 *)
  || ((97 <=? n)%nat && (n <=? 102)%nat)  (* a-f *)
  || ((65 <=? n)%nat && (n <=? 70)%nat).  (* A-F *)

Fixpoint allChars (p : ascii -> bool) (s : string) : bool :=
  match s with
  | EmptyString => true
  | String c rest => p c && allChars p rest
  end.

(** The regular expression [/^[0-9a-fA-F]{24}$/]. *)
Definition isHex24 (s : string) : bool :=
  (String.length s =? 24)%nat && allChars isHexDigit s.

(** [s.split(sep)] for a one-character separator. *)
Fixpoint splitAcc (sep : ascii) (acc : string) (s : string) : list string :=
  match s with
  | EmptyString => [acc]
  | String c rest =>
      if Ascii.eqb c sep then acc :: splitAcc sep EmptyString rest
      else splitAcc sep (acc ++ String c EmptyString) rest
  end.

Definition split (sep : ascii) (s : string) : list string :=
  splitAcc sep EmptyString s.

(** JavaScript truthiness of a string: only the empty string is falsy. *)
Definition truthy (s : string) : bool :=
  match s with EmptyString => false | _ => true end.

End Str.

(* ===================================================================== *)
(** ** JSON values and request bodies *)
(* ===================================================================== *)

(** Numbers are exact rationals; [undefined] is the absence of a value
    and is written [None] wherever a value is optional. *)
Inductive JSON : Type :=
| JNull
| JBool (b : bool)
| JNum (q : Q)
| JStr (s : string)
| JArr (items : list JSON)
| JObj (fields : list (string * JSON)).

Fixpoint assoc (A : Type) (k : string) (l : list (string * A)) : option A :=
  match l with
  | [] => None
  | (k', v) :: rest => if String.eqb k' k then Some v else assoc k rest
  end.

(** A value of [req.query] as the query parser hands it over: a string,
    an array for a key that is given more than once, an object for a key
    written with brackets. *)
Inductive QueryValue : Type :=
| QStr (s : string)
| QArr (items : list QueryValue)
| QObj (fields : list (string * QueryValue)).

(** [Number.isInteger] and the integer a whole number denotes. *)
Definition Qis_int (q : Q) : bool := (Qnum q mod Zpos (Qden q) =? 0)%Z.
Definition Qto_Z (q : Q) : Z := (Qnum q / Zpos (Qden q))%Z.
Definition Qltb (a b : Q) : bool := negb (Qle_bool b a).

(* ===================================================================== *)
(** ** Libraries the controllers call

    [zod]'s format checks, [bcrypt], [jsonwebtoken], [parseInt], regular
    expressions, the conversion of arrays and objects to strings, the
    cursor options of the store driver, the casting of filters and the
    arithmetic of the store are outside the repository; the controllers
    are embedded over any implementation of them. *)
(* ===================================================================== *)

Class Externals : Type := {
  (** [z.string().url()] and [z.string().email()] *)
  isUrl : string -> bool;
  isEmail : string -> bool;
  (** [bcrypt.compare(password, hash)] *)
  bcryptCompare : string -> string -> bool;
  (** [jwt.sign({ userId }, secret, { expiresIn })] *)
  jwtSign : string -> string -> string -> string;
  (** [jwt.verify(token, secret)]: [None] when it throws, otherwise the
      [userId] of the payload, if it has one *)
  jwtVerify : string -> string -> option (option string);
  (** [parseInt(s)]: [None] is [NaN] *)
  parseInt : string -> option Z;
  (** [new RegExp(q, 'i')]: [None] when the pattern is rejected,
      otherwise the test the expression performs on a string *)
  regExpI : string -> option (string -> bool);
  (** [.sort({ createdAt: -1 }).limit(n).skip(k)] on the documents that
      match a query: [None] when the driver rejects the options *)
  pageByCreatedAt : forall A : Type, option Z -> option Z -> list A -> option (list A);
  (** [String(v)] for a value of the query string that is an array or an
      object, as [parseInt] and [new RegExp] convert what they are
      given: [None] when the conversion throws *)
  stringOf : QueryValue -> option string;
  (** what an array or an object selects when it stands in a filter
      under a path, once Mongoose has cast it: [None] when the cast
      throws, otherwise the test it makes on the stored value *)
  castFilter : string -> QueryValue -> option (string -> bool);
  (** [{ $sum: ... }] of the store over the numbers of a group, which it
      adds in floating point: [None] when the result is not a finite
      number *)
  storeSum : list Q -> option Q
}.

(* ===================================================================== *)
(** ** zod schemas *)
(* ===================================================================== *)

(** The message of a validation issue: the one given in the schema, or
    the built-in message of the failed check, which is left symbolic. *)
Inductive IssueCode : Type :=
| invalid_type | too_small | too_big | invalid_enum_value | invalid_union.

Inductive ErrMsg : Type :=
| Msg (s : string)
| ZodDefault (c : IssueCode).

(** A schema parses an optional JSON value; the error is the message of
    the first issue, which is all the controllers read
    ([error.errors[0].message]). *)
Definition Parsed (A : Type) : Type := (ErrMsg + A)%type.
Definition Schema (A : Type) : Type := option JSON -> Parsed A.

Module Zod.

Definition ok (A : Type) (a : A) : Parsed A := inr a.

Definition andThen (A B : Type) (p : Parsed A) (k : A -> Parsed B) : Parsed B :=
  match p with
  | inl m => inl m
  | inr a => k a
  end.

Fixpoint each (A B : Type) (f : A -> Parsed B) (l : list A) : Parsed (list B) :=
  match l with
  | [] => inr []
  | a :: rest =>
      andThen (f a) (fun b => andThen (each f rest) (fun bs => inr (b :: bs)))
  end.

(** [z.string()] *)
Definition string_ : Schema string := fun v =>
  match v with
  | Some (JStr s) => inr s
  | _ => inl (ZodDefault invalid_type)
  end.

(** [.min(n, message)] on a string *)
Definition min (n : nat) (message : string) (s : string) : Parsed string :=
  if (String.length s <? n)%nat then inl (Msg message) else inr s.

(** [.regex(/^[0-9a-fA-F]{24}$/, message)] *)
Definition regexHex24 (message : string) (s : string) : Parsed string :=
  if Str.isHex24 s then inr s else inl (Msg message).

(** [.url(message)] and [.email(message)] *)
Definition url `{Externals} (message : string) (s : string) : Parsed string :=
  if isUrl s then inr s else inl (Msg message).
Definition email `{Externals} (message : string) (s : string) : Parsed string :=
  if isEmail s then inr s else inl (Msg message).

(** [z.number()] and [z.boolean()] *)
Definition number : Schema Q := fun v =>
  match v with
  | Some (JNum q) => inr q
  | _ => inl (ZodDefault invalid_type)
  end.

Definition boolean : Schema bool := fun v =>
  match v with
  | Some (JBool b) => inr b
  | _ => inl (ZodDefault invalid_type)
  end.

(** [.int()], [.positive()], [.min(lo)], [.max(hi)] on a number *)
Definition int (q : Q) : Parsed Z :=
  if Qis_int q then inr (Qto_Z q) else inl (ZodDefault invalid_type).
Definition positive (q : Q) : Parsed Q :=
  if Qltb 0 q then inr q else inl (ZodDefault too_small).
Definition atLeast (lo : Q) (q : Q) : Parsed Q :=
  if Qle_bool lo q then inr q else inl (ZodDefault too_small).
Definition atMost (hi : Q) (q : Q) : Parsed Q :=
  if Qle_bool q hi then inr q else inl (ZodDefault too_big).

(** [.optional()]: [undefined] is accepted as it is. *)
Definition optional (A : Type) (s : Schema A) : Schema (option A) := fun v =>
  match v with
  | None => inr None
  | Some _ => andThen (s v) (fun a => inr (Some a))
  end.

(** [.default(d)]: [undefined] is replaced by [d]. *)
Definition default (A : Type) (s : Schema A) (d : A) : Schema A := fun v =>
  match v with
  | None => inr d
  | Some _ => s v
  end.

(** [z.enum([...])] *)
Definition enum (values : list string) : Schema string := fun v =>
  match v with
  | Some (JStr s) =>
      if existsb (String.eqb s) values then inr s
      else inl (ZodDefault invalid_enum_value)
  | _ => inl (ZodDefault invalid_type)
  end.

(** [z.array(item)], with the optional [.min(1, message)] checked
    before the items. *)
Definition array (A : Type) (item : Schema A) (minOne : option string)
  : Schema (list A) := fun v =>
  match v with
  | Some (JArr items) =>
      match minOne, items with
      | Some message, [] => inl (Msg message)
      | _, _ => each (fun j => item (Some j)) items
      end
  | _ => inl (ZodDefault invalid_type)
  end.

(** [z.object({...})]: the value must be an object; the shape then reads
    its keys, a missing key being [undefined]. *)
Definition object (v : option JSON) : Parsed (string -> option JSON) :=
  match v with
  | Some (JObj fields) => inr (fun k => assoc k fields)
  | _ => inl (ZodDefault invalid_type)
  end.

(** [z.string().url(message).optional().or(z.literal(''))]: the first
    alternative that accepts wins; when the string alternative fails on
    its [url] check only, its issue is the one reported. *)
Definition urlOrEmpty `{Externals} (message : string) : Schema (option string) := fun v =>
  match v with
  | None => inr None
  | Some (JStr s) =>
      if isUrl s then inr (Some s)
      else if String.eqb s "" then inr (Some "")
      else inl (Msg message)
  | Some _ => inl (ZodDefault invalid_union)
  end.

End Zod.

Notation "x <-? p ; k" := (Zod.andThen p (fun x => k))
  (at level 61, p at next level, right associativity).

(* ===================================================================== *)
(** ** Documents and the store *)
(* ===================================================================== *)

Definition ObjectId : Type := string.

(** Modelled from the spec: the Mongoose models [models/Category],
    [models/Product], [models/Order] and [models/User] are missing from
    the sources.  The spec has the entities as plain persisted records
    with conventional fields (name, email, password hash, role, price
    tiers, stock, order status enum) and the references Order -> User and
    Product -> Category; the four records below carry the fields the
    controllers read and write.  What a model's schema may refuse on a
    write is not fixed here: it is left to the oracle of the monad
    below, under which any store call may throw. *)
Record Category : Type := mkCategory {
  c_id : ObjectId;
  c_name : string;
  c_iconUrl : option string;
  c_sort : Z;
  c_isActive : bool
}.

Record UnitPrice : Type := mkUnitPrice {
  up_unit : string;
  up_step : Q;
  up_baseQty : Q;
  up_price : Q;
  up_compareAt : option Q;
  up_stock : Q
}.

Record Product : Type := mkProduct {
  p_id : ObjectId;
  p_name : string;
  p_categoryId : ObjectId;
  p_images : list string;
  p_description : option string;
  p_unitPrices : list UnitPrice;
  p_rating : option Q;
  p_isActive : bool
}.

Record Order : Type := mkOrder {
  o_id : ObjectId;
  o_userId : ObjectId;
  o_status : string;
  o_total : Q
}.

Record User : Type := mkUser {
  u_id : ObjectId;
  u_name : string;
  u_email : string;
  u_phone : option string;
  u_passwordHash : option string;
  u_role : string;
  u_avatarUrl : option string
}.

Record Store : Type := mkStore {
  categories : list Category;
  products : list Product;
  orders : list Order;
  users : list User
}.

(** Operations on one collection, keyed by [_id]. *)
Section Collection.
Variable A : Type.
Variable idOf : A -> ObjectId.

Definition hasId (id : ObjectId) (d : A) : bool := String.eqb (idOf d) id.

Definition lookupId (id : ObjectId) (l : list A) : option A :=
  find (hasId id) l.

Definition replaceDoc (d : A) (l : list A) : list A :=
  map (fun x => if hasId (idOf d) x then d else x) l.

Fixpoint deleteOne (id : ObjectId) (l : list A) : list A :=
  match l with
  | [] => []
  | x :: rest => if hasId id x then rest else x :: deleteOne id rest
  end.
End Collection.

(* ===================================================================== *)
(** ** The monad of a controller body

    A controller body runs in a world made of the store and of an oracle
    that says, for each store call in turn, whether the call throws (lost
    connection, cast error, schema validation of the model, ...).  A
    thrown value is either a [ZodError] or any other error; what had been
    written before the throw stays written. *)
(* ===================================================================== *)

Record World : Type := mkWorld {
  store : Store;
  faults : list bool
}.

Inductive Thrown : Type :=
| ZodError (m : ErrMsg)
| OtherError.

Definition M (A : Type) : Type := World -> (Thrown + A) * World.

Definition ret (A : Type) (a : A) : M A := fun w => (inr a, w).

Definition bind (A B : Type) (m : M A) (k : A -> M B) : M B := fun w =>
  match m w with
  | (inl e, w') => (inl e, w')
  | (inr a, w') => k a w'
  end.

Definition throw {A : Type} (e : Thrown) : M A := fun w => (inl e, w).

Notation "x <- m ;; k" := (bind m (fun x => k))
  (at level 61, m at next level, right associativity).
Notation "m ;; k" := (bind m (fun _ => k))
  (at level 61, right associativity).

(** One round trip to the store: the oracle is consulted and advanced;
    an exhausted oracle lets every call through. *)
Definition advance (w : World) : World := mkWorld (store w) (tl (faults w)).

Definition dbCall : M unit := fun w =>
  if hd false (faults w) then (inl OtherError, advance w)
  else (inr tt, advance w).

Definition readStore (A : Type) (f : Store -> A) : M A :=
  dbCall ;; fun w => (inr (f (store w)), w).

Definition writeStore (f : Store -> Store) : M unit :=
  dbCall ;; fun w => (inr tt, mkWorld (f (store w)) (faults w)).

(** [schema.parse(value)] throws a [ZodError] or returns the parsed data. *)
Definition parse (A : Type) (schema : Schema A) (v : option JSON) : M A :=
  match schema v with
  | inl m => throw (ZodError m)
  | inr a => ret a
  end.

(** The environment of the process and the identifier the driver draws
    for a document it is about to insert. *)
Record Env : Type := mkEnv {
  JWT_SECRET : option string;
  newObjectId : ObjectId
}.

Definition setCategories (l : list Category) (s : Store) : Store :=
  mkStore l (products s) (orders s) (users s).
Definition setProducts (l : list Product) (s : Store) : Store :=
  mkStore (categories s) l (orders s) (users s).
Definition setOrders (l : list Order) (s : Store) : Store :=
  mkStore (categories s) (products s) l (users s).

(** Insertion: the store refuses a second document with the same [_id]. *)
Definition insertDoc (A : Type) (idOf : A -> ObjectId)
    (get : Store -> list A) (set : list A -> Store -> Store) (d : A) : M A :=
  dbCall ;;
  fun w =>
    match lookupId idOf (idOf d) (get (store w)) with
    | Some _ => (inl OtherError, w)
    | None => (inr d, mkWorld (set (get (store w) ++ [d])%list (store w)) (faults w))
    end.

(** [doc.save()] of a document that was loaded from the store: the stored
    document with the same [_id] is replaced; with none left, it throws. *)
Definition saveDoc (A : Type) (idOf : A -> ObjectId)
    (get : Store -> list A) (set : list A -> Store -> Store) (d : A) : M unit :=
  dbCall ;;
  fun w =>
    match lookupId idOf (idOf d) (get (store w)) with
    | None => (inl OtherError, w)
    | Some _ => (inr tt, mkWorld (set (replaceDoc idOf d (get (store w))) (store w)) (faults w))
    end.

(* ===================================================================== *)
(** ** Requests and responses *)
(* ===================================================================== *)

Record Req : Type := mkReq {
  params_id : string;                    (* req.params.id *)
  query : list (string * QueryValue);    (* req.query *)
  body : option JSON;                    (* req.body *)
  authorization : option string          (* req.headers['authorization'] *)
}.

(** [populate('categoryId', 'name')] and
    [populate('userId', 'name email phone')]: the reference is replaced by
    the selected fields of the document it names, or by [null]. *)
Record CategoryRef : Type := mkCategoryRef { cr_id : ObjectId; cr_name : string }.
Record UserRef : Type := mkUserRef {
  ur_id : ObjectId; ur_name : string; ur_email : string; ur_phone : option string
}.
Definition PopulatedProduct : Type := (Product * option CategoryRef)%type.
Definition PopulatedOrder : Type := (Order * option UserRef)%type.

Record UserView : Type := mkUserView {
  uv_id : ObjectId; uv_name : string; uv_email : string;
  uv_avatarUrl : option string; uv_role : string
}.

Record Meta : Type := mkMeta {
  m_total : nat; m_page : option Z; m_limit : option Z; m_pages : option Z
}.

(** The statistics of the orders; a revenue that is not a finite number
    is [None], which [res.json] writes as [null]. *)
Record Stats : Type := mkStats {
  totalOrders : nat;
  pendingOrders : nat;
  deliveredOrders : nat;
  cancelledOrders : nat;
  revenue : option Q
}.

Inductive Payload : Type :=
| PCategories (l : list Category)
| PCategory (c : Category)
| PProducts (l : list PopulatedProduct)
| PProduct (p : option PopulatedProduct)
| POrders (l : list PopulatedOrder)
| POrder (o : option PopulatedOrder)
| PStats (s : Stats)
| PLogin (user : UserView) (accessToken refreshToken : string)
| PProfile (user : UserView).

(** The JSON object handed to [res.json]; a key the source leaves out is
    [None]. *)
Record Body : Type := mkBody {
  success : bool;
  data : option Payload;
  meta : option Meta;
  error : option ErrMsg;
  message : option string
}.

Record Response : Type := mkResponse {
  status : nat;
  payload : Body
}.

(** [{ success: false, error }], [{ success: true, data }] and the other
    bodies the controllers build. *)
Definition failure (e : ErrMsg) : Body := mkBody false None None (Some e) None.
Definition succeed (d : Payload) : Body := mkBody true (Some d) None None None.
Definition succeedMeta (d : Payload) (m : Meta) : Body := mkBody true (Some d) (Some m) None None.
Definition succeedMsg (d : Payload) (msg : string) : Body := mkBody true (Some d) None None (Some msg).
Definition succeedOnlyMsg (msg : string) : Body := mkBody true None None None (Some msg).

(** [res.json(b)] answers with status 200; [res.status(n).json(b)] with [n]. *)
Definition res_json (b : Body) : Response := mkResponse 200 b.
Definition res_status_json (n : nat) (b : Body) : Response := mkResponse n b.

(** [try { body } catch (error) { handler }] around a controller body. *)
Definition tryCatch (body : M Response) (handler : Thrown -> Response)
  : World -> Response * World := fun w =>
  match body w with
  | (inr r, w') => (r, w')
  | (inl e, w') => (handler e, w')
  end.

(** The [catch] block shared by the create and update controllers: a
    [ZodError] is answered with 400 and its first message, anything else
    with 500. *)
Definition catchZod (fallback : string) (e : Thrown) : Response :=
  match e with
  | ZodError m => res_status_json 400 (failure m)
  | OtherError => res_status_json 500 (failure (Msg fallback))
  end.

Definition catchAll (fallback : string) (e : Thrown) : Response :=
  res_status_json 500 (failure (Msg fallback)).

(* ===================================================================== *)
(** ** Sorting, as [find().sort({...})] does *)
(* ===================================================================== *)

Section Sort.
Variable A : Type.
Variable le : A -> A -> bool.

Fixpoint insertSorted (x : A) (l : list A) : list A :=
  match l with
  | [] => [x]
  | y :: rest => if le x y then x :: y :: rest else y :: insertSorted x rest
  end.

Definition sortBy (l : list A) : list A := fold_right insertSorted [] l.
End Sort.

(** The order of [{ sort: 1, name: 1 }]: by [sort], then by [name],
    strings being compared byte by byte. *)
Definition categoryLe (a b : Category) : bool :=
  (c_sort a <? c_sort b)%Z
  || ((c_sort a =? c_sort b)%Z && String.leb (c_name a) (c_name b)).

(* ===================================================================== *)
(** ** Categories *)
(* ===================================================================== *)

Record CreateCategoryData : Type := mkCreateCategoryData {
  cc_name : string;
  cc_iconUrl : option string;
  cc_sort : Z;
  cc_isActive : bool
}.

(** The parsed data of an update holds only the keys the body had. *)
Record UpdateCategoryData : Type := mkUpdateCategoryData {
  uc_name : option string;
  uc_iconUrl : option string;
  uc_sort : option Z;
  uc_isActive : option bool
}.

(** [z.string().min(1, 'Name is required').trim()]: the length check sees
    the string as submitted, the trimmed string is the result. *)
Definition nameSchema : Schema string := fun v =>
  s <-? Zod.string_ v ;
  s <-? Zod.min 1 "Name is required" s ;
  Zod.ok (Str.trim s).

(** [z.number().int()] *)
Definition intSchema : Schema Z := fun v =>
  q <-? Zod.number v ;
  Zod.int q.

Definition createCategorySchema `{Externals} : Schema CreateCategoryData := fun v =>
  o <-? Zod.object v ;
  name <-? nameSchema (o "name") ;
  iconUrl <-? Zod.urlOrEmpty "Invalid URL" (o "iconUrl") ;
  sort <-? Zod.default intSchema 0%Z (o "sort") ;
  isActive <-? Zod.default Zod.boolean true (o "isActive") ;
  Zod.ok (mkCreateCategoryData name iconUrl sort isActive).

Definition updateCategorySchema `{Externals} : Schema UpdateCategoryData := fun v =>
  o <-? Zod.object v ;
  name <-? Zod.optional nameSchema (o "name") ;
  iconUrl <-? Zod.urlOrEmpty "Invalid URL" (o "iconUrl") ;
  sort <-? Zod.optional intSchema (o "sort") ;
  isActive <-? Zod.optional Zod.boolean (o "isActive") ;
  Zod.ok (mkUpdateCategoryData name iconUrl sort isActive).

Definition orElse (A : Type) (o : option A) (d : A) : A :=
  match o with Some a => a | None => d end.

(** [Object.assign(category, data)] *)
Definition assignCategory (c : Category) (d : UpdateCategoryData) : Category :=
  mkCategory (c_id c)
    (orElse (uc_name d) (c_name c))
    (match uc_iconUrl d with Some u => Some u | None => c_iconUrl c end)
    (orElse (uc_sort d) (c_sort c))
    (orElse (uc_isActive d) (c_isActive c)).

(** The [Category] model. *)
Module Category.

Definition findById (id : ObjectId) : M (option Category) :=
  readStore (fun s => lookupId c_id id (categories s)).

(** [Category.findOne({ name })] *)
Definition findOneByName (name : string) : M (option Category) :=
  readStore (fun s => find (fun c => String.eqb (c_name c) name) (categories s)).

(** [Category.find().sort({ sort: 1, name: 1 })] *)
Definition findSorted : M (list Category) :=
  readStore (fun s => sortBy categoryLe (categories s)).

Definition create (env : Env) (d : CreateCategoryData) : M Category :=
  insertDoc c_id categories setCategories
    (mkCategory (newObjectId env) (cc_name d) (cc_iconUrl d) (cc_sort d) (cc_isActive d)).

Definition save (c : Category) : M unit :=
  saveDoc c_id categories setCategories c.

Definition findByIdAndDelete (id : ObjectId) : M unit :=
  writeStore (fun s => setCategories (deleteOne c_id id (categories s)) s).

End Category.

Section CategoryControllers.
Context `{Externals}.

Definition getCategories (env : Env) (req : Req) : World -> Response * World :=
  tryCatch
    (categories <- Category.findSorted ;;
     ret (res_json (succeed (PCategories categories))))
    (catchAll "Failed to fetch categories").

Definition getCategoryById (env : Env) (req : Req) : World -> Response * World :=
  tryCatch
    (let id := params_id req in
     category <- Category.findById id ;;
     match category with
     | None => ret (res_status_json 404 (failure (Msg "Category not found")))
     | Some category => ret (res_json (succeed (PCategory category)))
     end)
    (catchAll "Failed to fetch category").

Definition createCategory (env : Env) (req : Req) : World -> Response * World :=
  tryCatch
    (data <- parse createCategorySchema (body req) ;;
     (* Check if category with same name exists *)
     existingCategory <- Category.findOneByName (cc_name data) ;;
     match existingCategory with
     | Some _ =>
         ret (res_status_json 400 (failure (Msg "Category with this name already exists")))
     | None =>
         category <- Category.create env data ;;
         ret (res_status_json 201 (succeed (PCategory category)))
     end)
    (catchZod "Failed to create category").

(** The test [data.name && data.name !== category.name]. *)
Definition nameIsChanging (submitted : option string) (current : string) : option string :=
  match submitted with
  | Some name =>
      if Str.truthy name && negb (String.eqb name current) then Some name else None
  | None => None
  end.

Definition updateCategory (env : Env) (req : Req) : World -> Response * World :=
  tryCatch
    (let id := params_id req in
     data <- parse updateCategorySchema (body req) ;;
     (* Check if category exists *)
     category <- Category.findById id ;;
     match category with
     | None => ret (res_status_json 404 (failure (Msg "Category not found")))
     | Some category =>
         (* Check if name is being updated and already exists *)
         existingCategory <-
           match nameIsChanging (uc_name data) (c_name category) with
           | Some name => Category.findOneByName name
           | None => ret None
           end ;;
         match existingCategory with
         | Some _ =>
             ret (res_status_json 400 (failure (Msg "Category with this name already exists")))
         | None =>
             let category := assignCategory category data in
             Category.save category ;;
             ret (res_json (succeed (PCategory category)))
         end
     end)
    (catchZod "Failed to update category").

Definition deleteCategory (env : Env) (req : Req) : World -> Response * World :=
  tryCatch
    (let id := params_id req in
     category <- Category.findById id ;;
     match category with
     | None => ret (res_status_json 404 (failure (Msg "Category not found")))
     | Some _ =>
         Category.findByIdAndDelete id ;;
         ret (res_json (succeedOnlyMsg "Category deleted successfully"))
     end)
    (catchAll "Failed to delete category").

End CategoryControllers.

(* ===================================================================== *)
(** ** Products *)
(* ===================================================================== *)

Record CreateProductData : Type := mkCreateProductData {
  cp_name : string;
  cp_categoryId : string;
  cp_images : list string;
  cp_description : option string;
  cp_unitPrices : list UnitPrice;
  cp_rating : option Q;
  cp_isActive : bool
}.

Record UpdateProductData : Type := mkUpdateProductData {
  upd_name : option string;
  upd_categoryId : option string;
  upd_images : option (list string);
  upd_description : option string;
  upd_unitPrices : option (list UnitPrice);
  upd_rating : option Q;
  upd_isActive : option bool
}.

(** [z.number().positive()], [z.number().min(0)] and
    [z.number().min(0).max(5)] *)
Definition positiveSchema : Schema Q := fun v =>
  q <-? Zod.number v ;
  Zod.positive q.

Definition stockSchema : Schema Q := fun v =>
  q <-? Zod.number v ;
  Zod.atLeast 0 q.

Definition ratingSchema : Schema Q := fun v =>
  q <-? Zod.number v ;
  q <-? Zod.atLeast 0 q ;
  Zod.atMost 5 q.

Definition unitPriceSchema : Schema UnitPrice := fun v =>
  o <-? Zod.object v ;
  unit <-? Zod.enum ["kg"; "g"; "pcs"; "bundle"] (o "unit") ;
  step <-? positiveSchema (o "step") ;
  baseQty <-? positiveSchema (o "baseQty") ;
  price <-? positiveSchema (o "price") ;
  compareAt <-? Zod.optional positiveSchema (o "compareAt") ;
  stock <-? stockSchema (o "stock") ;
  Zod.ok (mkUnitPrice unit step baseQty price compareAt stock).

(** [z.string().regex(/^[0-9a-fA-F]{24}$/, 'Invalid category ID')] *)
Definition categoryIdSchema : Schema string := fun v =>
  s <-? Zod.string_ v ;
  Zod.regexHex24 "Invalid category ID" s.

(** [z.string().url('Invalid image URL')] *)
Definition imageSchema `{Externals} : Schema string := fun v =>
  s <-? Zod.string_ v ;
  Zod.url "Invalid image URL" s.

Definition createProductSchema `{Externals} : Schema CreateProductData := fun v =>
  o <-? Zod.object v ;
  name <-? nameSchema (o "name") ;
  categoryId <-? categoryIdSchema (o "categoryId") ;
  images <-? Zod.array imageSchema (Some "At least one image is required") (o "images") ;
  description <-? Zod.optional Zod.string_ (o "description") ;
  unitPrices <-? Zod.array unitPriceSchema (Some "At least one unit price is required")
                   (o "unitPrices") ;
  rating <-? Zod.optional ratingSchema (o "rating") ;
  isActive <-? Zod.default Zod.boolean true (o "isActive") ;
  Zod.ok (mkCreateProductData name categoryId images description unitPrices rating isActive).

Definition updateProductSchema `{Externals} : Schema UpdateProductData := fun v =>
  o <-? Zod.object v ;
  name <-? Zod.optional nameSchema (o "name") ;
  categoryId <-? Zod.optional categoryIdSchema (o "categoryId") ;
  images <-? Zod.optional (Zod.array imageSchema None) (o "images") ;
  description <-? Zod.optional Zod.string_ (o "description") ;
  unitPrices <-? Zod.optional (Zod.array unitPriceSchema None) (o "unitPrices") ;
  rating <-? Zod.optional ratingSchema (o "rating") ;
  isActive <-? Zod.optional Zod.boolean (o "isActive") ;
  Zod.ok (mkUpdateProductData name categoryId images description unitPrices rating isActive).

(** [Object.assign(product, data)] *)
Definition assignProduct (p : Product) (d : UpdateProductData) : Product :=
  mkProduct (p_id p)
    (orElse (upd_name d) (p_name p))
    (orElse (upd_categoryId d) (p_categoryId p))
    (orElse (upd_images d) (p_images p))
    (match upd_description d with Some x => Some x | None => p_description p end)
    (orElse (upd_unitPrices d) (p_unitPrices p))
    (match upd_rating d with Some x => Some x | None => p_rating p end)
    (orElse (upd_isActive d) (p_isActive p)).

(** What a value selects when it stands in a filter under a path: a
    string selects the stored values that are equal to it, an array or
    an object what Mongoose and the store make of it; no value selects
    everything. *)
Definition selects `{Externals} (path : string) (v : option QueryValue)
  : option (string -> bool) :=
  match v with
  | None => Some (fun _ => true)
  | Some (QStr s) => Some (fun stored => String.eqb stored s)
  | Some v => castFilter path v
  end.

(** The filter [getProducts] builds from the query string:
    [{ categoryId, $or: [{ name }, { description }], isActive }]. *)
Record ProductQuery : Type := mkProductQuery {
  pq_categoryId : option QueryValue;
  pq_search : option (string -> bool);
  pq_isActive : option bool
}.

(** The products a filter selects; [None] when its cast throws. *)
Definition matchesProduct `{Externals} (q : ProductQuery) : option (Product -> bool) :=
  match selects "categoryId" (pq_categoryId q) with
  | Some inCategory =>
      Some (fun p =>
              inCategory (p_categoryId p)
              && match pq_search q with
                 | Some test =>
                     test (p_name p)
                     || match p_description p with Some d => test d | None => false end
                 | None => true
                 end
              && match pq_isActive q with
                 | Some b => Bool.eqb (p_isActive p) b
                 | None => true
                 end)
  | None => None
  end.

(** The [Product] model. *)
Module Product.

Definition findById (id : ObjectId) : M (option Product) :=
  readStore (fun s => lookupId p_id id (products s)).

(** [Product.findOne({ name })] *)
Definition findOneByName (name : string) : M (option Product) :=
  readStore (fun s => find (fun p => String.eqb (p_name p) name) (products s)).

Definition create (env : Env) (d : CreateProductData) : M Product :=
  insertDoc p_id products setProducts
    (mkProduct (newObjectId env) (cp_name d) (cp_categoryId d) (cp_images d)
       (cp_description d) (cp_unitPrices d) (cp_rating d) (cp_isActive d)).

Definition save (p : Product) : M unit :=
  saveDoc p_id products setProducts p.

Definition findByIdAndDelete (id : ObjectId) : M unit :=
  writeStore (fun s => setProducts (deleteOne p_id id (products s)) s).

(** [.populate('categoryId', 'name')] on the documents of a result:
    one more round trip when there is something to populate. *)
Definition populateOne (s : Store) (p : Product) : PopulatedProduct :=
  (p, option_map (fun c => mkCategoryRef (c_id c) (c_name c))
        (lookupId c_id (p_categoryId p) (categories s))).

Definition populate (l : list Product) : M (list PopulatedProduct) :=
  match l with
  | [] => ret []
  | _ => readStore (fun s => map (populateOne s) l)
  end.

(** [Product.findById(id).populate('categoryId', 'name')] *)
Definition findByIdPopulated (id : ObjectId) : M (option PopulatedProduct) :=
  found <- findById id ;;
  match found with
  | None => ret None
  | Some p => l <- populate [p] ;; ret (hd_error l)
  end.

(** [Product.find(query).populate(..).sort({ createdAt: -1 })
     .limit(limitNum).skip(skip)] *)
Definition findPage `{Externals} (q : ProductQuery) (limitNum skip : option Z)
  : M (list PopulatedProduct) :=
  match matchesProduct q with
  | None => throw OtherError
  | Some selected =>
      matching <- readStore (fun s => filter selected (products s)) ;;
      match pageByCreatedAt limitNum skip matching with
      | None => throw OtherError
      | Some page => populate page
      end
  end.

Definition countDocuments `{Externals} (q : ProductQuery) : M nat :=
  match matchesProduct q with
  | None => throw OtherError
  | Some selected => readStore (fun s => List.length (filter selected (products s)))
  end.

End Product.

(** [Math.ceil(total / limitNum)] as it is serialised: [NaN] and the
    infinities become [null]. *)
Definition pagesOf (total : nat) (limitNum : option Z) : option Z :=
  match limitNum with
  | Some n => if (n =? 0)%Z then None else Some (- ((- Z.of_nat total) / n))%Z
  | None => None
  end.

(** [(pageNum - 1) * limitNum] on numbers that may be [NaN]. *)
Definition skipOf (pageNum limitNum : option Z) : option Z :=
  match pageNum, limitNum with
  | Some p, Some l => Some ((p - 1) * l)%Z
  | _, _ => None
  end.

(** An optional string when it is truthy: present and not empty. *)
Definition whenTruthy (o : option string) : option string :=
  match o with
  | Some s => if Str.truthy s then Some s else None
  | None => None
  end.

(** A value of the query string when it is truthy: arrays and objects
    are, a string is unless it is empty. *)
Definition whenSet (o : option QueryValue) : option QueryValue :=
  match o with
  | Some (QStr s) => if Str.truthy s then o else None
  | Some _ => o
  | None => None
  end.

(** A value of the query string used as a string, as [parseInt] and
    [new RegExp] use their argument. *)
Definition asString `{Externals} (v : QueryValue) : M string :=
  match v with
  | QStr s => ret s
  | _ =>
      match stringOf v with
      | Some s => ret s
      | None => throw OtherError
      end
  end.

Section ProductControllers.
Context `{Externals}.

Definition getProducts (env : Env) (req : Req) : World -> Response * World :=
  tryCatch
    (let category := assoc "category" (query req) in
     let q := assoc "q" (query req) in
     let limit := orElse (assoc "limit" (query req)) (QStr "50") in
     let page := orElse (assoc "page" (query req)) (QStr "1") in
     let isActive := assoc "isActive" (query req) in
     search <-
       match whenSet q with
       | Some q =>
           pattern <- asString q ;;
           match regExpI pattern with
           | Some test => ret (Some test)
           | None => throw OtherError
           end
       | None => ret None
       end ;;
     let query :=
       mkProductQuery (whenSet category) search
         (option_map (fun v => match v with
                               | QStr s => String.eqb s "true"
                               | _ => false
                               end) isActive) in
     limit <- asString limit ;;
     let limitNum := parseInt limit in
     page <- asString page ;;
     let pageNum := parseInt page in
     let skip := skipOf pageNum limitNum in
     products <- Product.findPage query limitNum skip ;;
     total <- Product.countDocuments query ;;
     ret (res_json (succeedMeta (PProducts products)
                      (mkMeta total pageNum limitNum (pagesOf total limitNum)))))
    (catchAll "Failed to fetch products").

Definition getProductById (env : Env) (req : Req) : World -> Response * World :=
  tryCatch
    (let id := params_id req in
     product <- Product.findByIdPopulated id ;;
     match product with
     | None => ret (res_status_json 404 (failure (Msg "Product not found")))
     | Some product => ret (res_json (succeed (PProduct (Some product))))
     end)
    (catchAll "Failed to fetch product").

Definition createProduct (env : Env) (req : Req) : World -> Response * World :=
  tryCatch
    (data <- parse createProductSchema (body req) ;;
     (* Verify category exists *)
     category <- Category.findById (cp_categoryId data) ;;
     match category with
     | None => ret (res_status_json 400 (failure (Msg "Category not found")))
     | Some _ =>
         (* Check if product with same name exists *)
         existingProduct <- Product.findOneByName (cp_name data) ;;
         match existingProduct with
         | Some _ =>
             ret (res_status_json 400 (failure (Msg "Product with this name already exists")))
         | None =>
             product <- Product.create env data ;;
             populatedProduct <- Product.findByIdPopulated (p_id product) ;;
             ret (res_status_json 201 (succeed (PProduct populatedProduct)))
         end
     end)
    (catchZod "Failed to create product").

Definition updateProduct (env : Env) (req : Req) : World -> Response * World :=
  tryCatch
    (let id := params_id req in
     data <- parse updateProductSchema (body req) ;;
     (* Check if product exists *)
     product <- Product.findById id ;;
     match product with
     | None => ret (res_status_json 404 (failure (Msg "Product not found")))
     | Some product =>
         (* Verify category exists if being updated *)
         categoryMissing <-
           match whenTruthy (upd_categoryId data) with
           | Some categoryId =>
               category <- Category.findById categoryId ;;
               ret (match category with None => true | Some _ => false end)
           | None => ret false
           end ;;
         if categoryMissing : bool then
           ret (res_status_json 400 (failure (Msg "Category not found")))
         else
           (* Check if name is being updated and already exists *)
           existingProduct <-
             match nameIsChanging (upd_name data) (p_name product) with
             | Some name => Product.findOneByName name
             | None => ret None
             end ;;
           match existingProduct with
           | Some _ =>
               ret (res_status_json 400 (failure (Msg "Product with this name already exists")))
           | None =>
               let product := assignProduct product data in
               Product.save product ;;
               updatedProduct <- Product.findByIdPopulated (p_id product) ;;
               ret (res_json (succeed (PProduct updatedProduct)))
           end
     end)
    (catchZod "Failed to update product").

Definition deleteProduct (env : Env) (req : Req) : World -> Response * World :=
  tryCatch
    (let id := params_id req in
     product <- Product.findById id ;;
     match product with
     | None => ret (res_status_json 404 (failure (Msg "Product not found")))
     | Some _ =>
         Product.findByIdAndDelete id ;;
         ret (res_json (succeedOnlyMsg "Product deleted successfully"))
     end)
    (catchAll "Failed to delete product").

End ProductControllers.

(* ===================================================================== *)
(** ** Orders *)
(* ===================================================================== *)

Definition orderStatuses : list string :=
  ["placed"; "confirmed"; "preparing"; "out_for_delivery"; "delivered"; "cancelled"].

Definition updateOrderStatusSchema : Schema string := fun v =>
  o <-? Zod.object v ;
  status <-? Zod.enum orderStatuses (o "status") ;
  Zod.ok status.

(** The filters of the order queries: [{ status, userId }] of
    [getAllOrders], [{ status: { $in: [...] } }] and [{ status: s }]. *)
Record OrderQuery : Type := mkOrderQuery {
  oq_status : option QueryValue;
  oq_userId : option QueryValue
}.

(** The orders a filter selects; [None] when its cast throws. *)
Definition matchesOrder `{Externals} (q : OrderQuery) : option (Order -> bool) :=
  match selects "status" (oq_status q), selects "userId" (oq_userId q) with
  | Some hasStatus, Some ofUser =>
      Some (fun o => hasStatus (o_status o) && ofUser (o_userId o))
  | _, _ => None
  end.

Definition statusIn (values : list string) (o : Order) : bool :=
  existsb (String.eqb (o_status o)) values.

Definition statusIs (value : string) (o : Order) : bool :=
  String.eqb (o_status o) value.

(** The stages [{ $match: filter }] and
    [{ $group: { _id: null, total: { $sum: '$total' } } }]: grouping no
    document gives no group. *)
Definition matchStage (f : Order -> bool) (docs : list Order) : list Order :=
  filter f docs.

Definition groupSumTotal `{Externals} (docs : list Order) : list (option Q) :=
  match docs with
  | [] => []
  | _ => [storeSum (map o_total docs)]
  end.

(** The [Order] model. *)
Module Order.

Definition findById (id : ObjectId) : M (option Order) :=
  readStore (fun s => lookupId o_id id (orders s)).

Definition save (o : Order) : M unit :=
  saveDoc o_id orders setOrders o.

Definition populateOne (s : Store) (o : Order) : PopulatedOrder :=
  (o, option_map (fun u => mkUserRef (u_id u) (u_name u) (u_email u) (u_phone u))
        (lookupId u_id (o_userId o) (users s))).

Definition populate (l : list Order) : M (list PopulatedOrder) :=
  match l with
  | [] => ret []
  | _ => readStore (fun s => map (populateOne s) l)
  end.

(** [Order.findById(id).populate('userId', 'name email phone')] *)
Definition findByIdPopulated (id : ObjectId) : M (option PopulatedOrder) :=
  found <- findById id ;;
  match found with
  | None => ret None
  | Some o => l <- populate [o] ;; ret (hd_error l)
  end.

Definition findPage `{Externals} (q : OrderQuery) (limitNum skip : option Z)
  : M (list PopulatedOrder) :=
  match matchesOrder q with
  | None => throw OtherError
  | Some selected =>
      matching <- readStore (fun s => filter selected (orders s)) ;;
      match pageByCreatedAt limitNum skip matching with
      | None => throw OtherError
      | Some page => populate page
      end
  end.

(** [Order.countDocuments(query)] with the filter of [getAllOrders]. *)
Definition countQuery `{Externals} (q : OrderQuery) : M nat :=
  match matchesOrder q with
  | None => throw OtherError
  | Some selected => readStore (fun s => List.length (filter selected (orders s)))
  end.

(** [Order.countDocuments(filter)]; without a filter every document
    counts. *)
Definition countDocuments (f : Order -> bool) : M nat :=
  readStore (fun s => List.length (filter f (orders s))).

(** [Order.aggregate([{ $match }, { $group }])] *)
Definition aggregateRevenue `{Externals} (f : Order -> bool) : M (list (option Q)) :=
  readStore (fun s => groupSumTotal (matchStage f (orders s))).

End Order.

Section OrderControllers.
Context `{Externals}.

Definition getAllOrders (env : Env) (req : Req) : World -> Response * World :=
  tryCatch
    (let page := orElse (assoc "page" (query req)) (QStr "1") in
     let limit := orElse (assoc "limit" (query req)) (QStr "20") in
     let status := assoc "status" (query req) in
     let userId := assoc "userId" (query req) in
     page <- asString page ;;
     let pageNum := parseInt page in
     limit <- asString limit ;;
     let limitNum := parseInt limit in
     let skip := skipOf pageNum limitNum in
     let query := mkOrderQuery (whenSet status) (whenSet userId) in
     orders <- Order.findPage query limitNum skip ;;
     total <- Order.countQuery query ;;
     ret (res_json (succeedMeta (POrders orders)
                      (mkMeta total pageNum limitNum (pagesOf total limitNum)))))
    (catchAll "Failed to fetch orders").

Definition getOrderById (env : Env) (req : Req) : World -> Response * World :=
  tryCatch
    (let id := params_id req in
     order <- Order.findByIdPopulated id ;;
     match order with
     | None => ret (res_status_json 404 (failure (Msg "Order not found")))
     | Some order => ret (res_json (succeed (POrder (Some order))))
     end)
    (catchAll "Failed to fetch order").

Definition setStatus (o : Order) (status : string) : Order :=
  mkOrder (o_id o) (o_userId o) status (o_total o).

Definition updateOrderStatus (env : Env) (req : Req) : World -> Response * World :=
  tryCatch
    (let id := params_id req in
     status <- parse updateOrderStatusSchema (body req) ;;
     order <- Order.findById id ;;
     match order with
     | None => ret (res_status_json 404 (failure (Msg "Order not found")))
     | Some order =>
         let order := setStatus order status in
         Order.save order ;;
         updatedOrder <- Order.findByIdPopulated (o_id order) ;;
         ret (res_json (succeedMsg (POrder updatedOrder) "Order status updated successfully"))
     end)
    (catchZod "Failed to update order status").

Definition getOrderStats (env : Env) (req : Req) : World -> Response * World :=
  tryCatch
    (totalOrders <- Order.countDocuments (fun _ => true) ;;
     pendingOrders <- Order.countDocuments (statusIn ["placed"; "confirmed"; "preparing"]) ;;
     deliveredOrders <- Order.countDocuments (statusIs "delivered") ;;
     cancelledOrders <- Order.countDocuments (statusIs "cancelled") ;;
     totalRevenue <- Order.aggregateRevenue (statusIs "delivered") ;;
     let revenue :=
       match totalRevenue with
       | total :: _ => total
       | [] => Some 0%Q
       end in
     ret (res_json (succeed (PStats
            (mkStats totalOrders pendingOrders deliveredOrders cancelledOrders revenue)))))
    (catchAll "Failed to fetch order stats").

End OrderControllers.

(* ===================================================================== *)
(** ** Admin login *)
(* ===================================================================== *)

Definition adminLoginSchema `{Externals} : Schema (string * string) := fun v =>
  o <-? Zod.object v ;
  email <-? (s <-? Zod.string_ (o "email") ; Zod.email "Invalid email format" s) ;
  password <-? (s <-? Zod.string_ (o "password") ; Zod.min 1 "Password is required" s) ;
  Zod.ok (email, password).

(** The [User] model. *)
Module User.

(** [User.findOne({ email })] *)
Definition findOneByEmail (email : string) : M (option User) :=
  readStore (fun s => find (fun u => String.eqb (u_email u) email) (users s)).

Definition findById (id : ObjectId) : M (option User) :=
  readStore (fun s => lookupId u_id id (users s)).

End User.

(** [process.env.JWT_SECRET] when it is set to a non-empty string. *)
Definition jwtSecret (env : Env) : option string :=
  match JWT_SECRET env with
  | Some secret => if Str.truthy secret then Some secret else None
  | None => None
  end.

Definition viewOf (u : User) : UserView :=
  mkUserView (u_id u) (u_name u) (u_email u) (u_avatarUrl u) (u_role u).

Section AuthControllers.
Context `{Externals}.

(** Generate JWT tokens *)
Definition generateTokens (env : Env) (userId : string) : M (string * string) :=
  match jwtSecret env with
  | None => throw OtherError
  | Some secret =>
      let accessToken := jwtSign userId secret "1d" in
      let refreshToken := jwtSign userId secret "30d" in
      ret (accessToken, refreshToken)
  end.

Definition adminLogin (env : Env) (req : Req) : World -> Response * World :=
  tryCatch
    (credentials <- parse adminLoginSchema (body req) ;;
     let email := fst credentials in
     let password := snd credentials in
     (* Find user *)
     user <- User.findOneByEmail email ;;
     match user with
     | None => ret (res_status_json 401 (failure (Msg "Invalid credentials")))
     | Some user =>
         match whenTruthy (u_passwordHash user) with
         | None => ret (res_status_json 401 (failure (Msg "Invalid credentials")))
         | Some passwordHash =>
             (* Check if user is admin *)
             if negb (String.eqb (u_role user) "admin") then
               ret (res_status_json 403 (failure (Msg "Admin access required")))
             else
               (* Verify password *)
               let isValidPassword := bcryptCompare password passwordHash in
               if negb isValidPassword then
                 ret (res_status_json 401 (failure (Msg "Invalid credentials")))
               else
                 tokens <- generateTokens env (u_id user) ;;
                 ret (res_json (succeed (PLogin (viewOf user) (fst tokens) (snd tokens))))
         end
     end)
    (fun e =>
       res_status_json 400
         (failure (Msg match e with
                       | ZodError _ => "Validation error"
                       | OtherError => "Login failed"
                       end))).

(** [authHeader && authHeader.split(' ')[1]], when it is truthy. *)
Definition bearerToken (authHeader : option string) : option string :=
  match whenTruthy authHeader with
  | Some h => whenTruthy (nth_error (Str.split " "%char h) 1)
  | None => None
  end.

Definition getAdminProfile (env : Env) (req : Req) : World -> Response * World :=
  tryCatch
    (match jwtSecret env with
     | None => ret (res_status_json 500 (failure (Msg "JWT_SECRET is not configured")))
     | Some secret =>
         match bearerToken (authorization req) with
         | None => ret (res_status_json 401 (failure (Msg "Access token required")))
         | Some token =>
             match jwtVerify token secret with
             | None => throw OtherError
             | Some userId =>
                 user <- match userId with
                         | Some id => User.findById id
                         | None => dbCall ;; ret None
                         end ;;
                 match user with
                 | None => ret (res_status_json 403 (failure (Msg "Admin access required")))
                 | Some user =>
                     if negb (String.eqb (u_role user) "admin") then
                       ret (res_status_json 403 (failure (Msg "Admin access required")))
                     else
                       ret (res_json (succeed (PProfile (viewOf user))))
                 end
             end
         end
     end)
    (fun _ => res_status_json 401 (failure (Msg "Invalid token"))).

End AuthControllers.

(* ===================================================================== *)
(** ** The controllers of the API *)
(* ===================================================================== *)

Inductive Controller : Type :=
| GetCategories | GetCategoryById | CreateCategory | UpdateCategory | DeleteCategory
| GetProducts | GetProductById | CreateProduct | UpdateProduct | DeleteProduct
| GetAllOrders | GetOrderStats | GetOrderById | UpdateOrderStatus
| AdminLogin | GetAdminProfile.

Definition run `{Externals} (c : Controller) : Env -> Req -> World -> Response * World :=
  match c with
  | GetCategories => getCategories
  | GetCategoryById => getCategoryById
  | CreateCategory => createCategory
  | UpdateCategory => updateCategory
  | DeleteCategory => deleteCategory
  | GetProducts => getProducts
  | GetProductById => getProductById
  | CreateProduct => createProduct
  | UpdateProduct => updateProduct
  | DeleteProduct => deleteProduct
  | GetAllOrders => getAllOrders
  | GetOrderStats => getOrderStats
  | GetOrderById => getOrderById
  | UpdateOrderStatus => updateOrderStatus
  | AdminLogin => adminLogin
  | GetAdminProfile => getAdminProfile
  end.

(* ===================================================================== *)
(** ** A small implementation of the outside libraries

    Used to run the controllers on concrete requests. *)
(* ===================================================================== *)

Module Sample.

Fixpoint contains (c : ascii) (s : string) : bool :=
  match s with
  | EmptyString => false
  | String c' rest => Ascii.eqb c' c || contains c rest
  end.

Definition digit (c : ascii) : option Z :=
  let n := nat_of_ascii c in
  if ((48 <=? n)%nat && (n <=? 57)%nat) then Some (Z.of_nat (n - 48)) else None.

Fixpoint digits (acc : Z) (s : string) : Z :=
  match s with
  | EmptyString => acc
  | String c rest =>
      match digit c with
      | Some d => digits (10 * acc + d)%Z rest
      | None => acc
      end
  end.

Definition parseDecimal (s : string) : option Z :=
  match s with
  | String c _ => match digit c with Some _ => Some (digits 0%Z s) | None => None end
  | EmptyString => None
  end.

Definition page (A : Type) (limitNum skip : option Z) (l : list A) : option (list A) :=
  match limitNum, skip with
  | Some n, Some k =>
      if ((0 <? n)%Z && (0 <=? k)%Z)
      then Some (firstn (Z.to_nat n) (skipn (Z.to_nat k) (rev l)))
      else None
  | _, _ => None
  end.

(** Arrays are written with commas between their items, objects as
    [[object Object]]. *)
Fixpoint text (v : QueryValue) : string :=
  match v with
  | QStr s => s
  | QArr items =>
      (fix joined (l : list QueryValue) : string :=
         match l with
         | [] => ""
         | [x] => text x
         | x :: rest => text x ++ "," ++ joined rest
         end) items
  | QObj _ => "[object Object]"
  end.

#[export] Instance externals : Externals := {|
  isUrl := String.prefix "http";
  isEmail := contains "@"%char;
  bcryptCompare := fun password hash => String.eqb ("bcrypt:" ++ password) hash;
  jwtSign := fun userId secret expiresIn => userId ++ "." ++ expiresIn ++ "." ++ secret;
  jwtVerify := fun token secret =>
    match Str.split "."%char token with
    | [userId; _; secret'] => if String.eqb secret' secret then Some (Some userId) else None
    | _ => None
    end;
  parseInt := parseDecimal;
  regExpI := fun q => Some (fun s => String.eqb s q);
  pageByCreatedAt := page;
  stringOf := fun v => Some (text v);
  castFilter := fun _ _ => None;
  storeSum := fun l => Some (fold_left Qplus l 0%Q)
|}.

Definition env : Env := mkEnv (Some "s3cret") "0000000000000000000000ff".
Definition request (id : string) (b : JSON) : Req := mkReq id [] (Some b) None.
Definition emptyStore : Store := mkStore [] [] [] [].
Definition world (s : Store) : World := mkWorld s [].

End Sample.

(* ===================================================================== *)
(** ** Routers *)
(* ===================================================================== *)

(** The methods of a request: the ones the routers register, [HEAD],
    which Express serves with the [GET] handlers of a route that has no
    handler for [HEAD] of its own, as no route here has, and [OPTIONS],
    which runs the stack of no route here: the router answers it itself
    with the methods of the routes its path matches. *)
Inductive Method : Type := GET | POST | PUT | PATCH | DELETE | HEAD | OPTIONS.

(** What a route stacks: the two middlewares of [middlewares/auth] and a
    controller. *)
Inductive Handler : Type :=
| authenticateToken
| requireAdmin
| controller (c : Controller).

Record Route : Type := mkRoute {
  r_method : Method;
  r_path : string;
  r_stack : list Handler
}.

Definition authRouter : list Route :=
  [ mkRoute POST "/login" [controller AdminLogin];
    mkRoute GET "/me" [authenticateToken; requireAdmin; controller GetAdminProfile] ].

Definition productsRouter : list Route :=
  [ mkRoute GET "/" [authenticateToken; requireAdmin; controller GetProducts];
    mkRoute GET "/:id" [authenticateToken; requireAdmin; controller GetProductById];
    mkRoute POST "/" [authenticateToken; requireAdmin; controller CreateProduct];
    mkRoute PUT "/:id" [authenticateToken; requireAdmin; controller UpdateProduct];
    mkRoute DELETE "/:id" [authenticateToken; requireAdmin; controller DeleteProduct] ].

Definition categoriesRouter : list Route :=
  [ mkRoute GET "/" [authenticateToken; requireAdmin; controller GetCategories];
    mkRoute GET "/:id" [authenticateToken; requireAdmin; controller GetCategoryById];
    mkRoute POST "/" [authenticateToken; requireAdmin; controller CreateCategory];
    mkRoute PUT "/:id" [authenticateToken; requireAdmin; controller UpdateCategory];
    mkRoute DELETE "/:id" [authenticateToken; requireAdmin; controller DeleteCategory] ].

Definition ordersRouter : list Route :=
  [ mkRoute GET "/" [authenticateToken; requireAdmin; controller GetAllOrders];
    mkRoute GET "/stats" [authenticateToken; requireAdmin; controller GetOrderStats];
    mkRoute GET "/:id" [authenticateToken; requireAdmin; controller GetOrderById];
    mkRoute PATCH "/:id/status" [authenticateToken; requireAdmin; controller UpdateOrderStatus] ].

Definition routers : list (list Route) :=
  [authRouter; productsRouter; categoriesRouter; ordersRouter].

Definition methodEqb (a b : Method) : bool :=
  match a, b with
  | GET, GET | POST, POST | PUT, PUT | PATCH, PATCH | DELETE, DELETE
  | HEAD, HEAD | OPTIONS, OPTIONS => true
  | _, _ => false
  end.

(** Whether a route registered for a method serves a request. *)
Definition handlesMethod (registered requested : Method) : bool :=
  methodEqb registered requested
  || match registered, requested with
     | GET, HEAD => true
     | _, _ => false
     end.

(** Matching a request path against a route path, segment by segment: a
    segment [:name] binds any segment, any other one must be the same up
    to letter case, and empty segments do not count. *)
Definition lowerChar (c : ascii) : ascii :=
  let n := nat_of_ascii c in
  if ((65 <=? n)%nat && (n <=? 90)%nat) then ascii_of_nat (n + 32) else c.

Fixpoint lower (s : string) : string :=
  match s with
  | EmptyString => EmptyString
  | String c rest => String (lowerChar c) (lower rest)
  end.

Definition segments (path : string) : list string :=
  filter Str.truthy (Str.split "/"%char path).

Definition paramName (segment : string) : option string :=
  match segment with
  | String ":"%char name => Some name
  | _ => None
  end.

Fixpoint matchSegments (pattern actual : list string) (params : list (string * string))
  : option (list (string * string)) :=
  match pattern, actual with
  | [], [] => Some params
  | p :: ps, a :: rest =>
      match paramName p with
      | Some name => matchSegments ps rest ((name, a) :: params)
      | None => if String.eqb (lower p) (lower a) then matchSegments ps rest params else None
      end
  | _, _ => None
  end.

Definition matchRoute (r : Route) (method : Method) (path : string)
  : option (list (string * string)) :=
  if handlesMethod (r_method r) method
  then matchSegments (segments (r_path r)) (segments path) []
  else None.

(** What a router answers to [OPTIONS] with: the methods of the routes
    the path matches, in the order of the routes, [HEAD] after the [GET]
    of a route, each method once. *)
Definition routeOptions (r : Route) : list Method :=
  match r_method r with
  | GET => [GET; HEAD]
  | method => [method]
  end.

Definition appendMethods (options addition : list Method) : list Method :=
  fold_left (fun acc method =>
               if existsb (methodEqb method) acc then acc else (acc ++ [method])%list)
    addition options.

Definition matchesPath (r : Route) (path : string) : bool :=
  match matchSegments (segments (r_path r)) (segments path) [] with
  | Some _ => true
  | None => false
  end.

Definition allowed (routes : list Route) (path : string) : list Method :=
  fold_left (fun options r =>
               if matchesPath r path then appendMethods options (routeOptions r)
               else options)
    routes [].

Definition withParams (req : Req) (params : list (string * string)) : Req :=
  mkReq (orElse (assoc "id" params) "") (query req) (body req) (authorization req).

(** A middleware either calls [next()], handing the request on, or ends
    the request with a response of its own.  [middlewares/auth] is
    missing from the sources, so the routers are run over any pair of
    middlewares. *)
Definition Middleware : Type := Env -> Req -> World -> (Req + Response) * World.

(** Who answered a request: a controller, a middleware, the router with
    the methods it allows, or nobody yet. *)
Inductive Served : Type :=
| ByController (c : Controller) (r : Response)
| ByMiddleware (h : Handler) (r : Response)
| ByRouter (allow : list Method)
| PassedOn (req : Req).

Section Dispatch.
Context `{Externals}.
Variables authenticateTokenMw requireAdminMw : Middleware.

(** The handlers of a route run in order; each one runs only when the
    one before it called [next()]. *)
Fixpoint runStack (stack : list Handler) (env : Env) (req : Req) (w : World)
  : Served * World :=
  match stack with
  | [] => (PassedOn req, w)
  | controller c :: _ =>
      let (r, w') := run c env req w in (ByController c r, w')
  | authenticateToken :: rest =>
      match authenticateTokenMw env req w with
      | (inl req', w') => runStack rest env req' w'
      | (inr r, w') => (ByMiddleware authenticateToken r, w')
      end
  | requireAdmin :: rest =>
      match requireAdminMw env req w with
      | (inl req', w') => runStack rest env req' w'
      | (inr r, w') => (ByMiddleware requireAdmin r, w')
      end
  end.

(** A router tries its routes in the order they were registered. *)
Fixpoint tryRoutes (routes : list Route) (method : Method) (path : string)
    (env : Env) (req : Req) (w : World) : Served * World :=
  match routes with
  | [] => (PassedOn req, w)
  | r :: rest =>
      match matchRoute r method path with
      | Some params =>
          match runStack (r_stack r) env (withParams req params) w with
          | (PassedOn req', w') => tryRoutes rest method path env req' w'
          | served => served
          end
      | None => tryRoutes rest method path env req w
      end
  end.

(** When no route has answered an [OPTIONS] request and its path matched
    some, the router answers with their methods; any other request that
    no route answered is handed on. *)
Definition dispatch (routes : list Route) (method : Method) (path : string)
    (env : Env) (req : Req) (w : World) : Served * World :=
  match tryRoutes routes method path env req w with
  | (PassedOn req', w') =>
      match method, allowed routes path with
      | OPTIONS, first :: others => (ByRouter (first :: others), w')
      | _, _ => (PassedOn req', w')
      end
  | served => served
  end.

End Dispatch.

(** A route is guarded when its stack is the two middlewares followed by
    a controller. *)
Definition guardedBy (r : Route) (c : Controller) : Prop :=
  r_stack r = [authenticateToken; requireAdmin; controller c].

Definition isLoginRoute (r : Route) : Prop :=
  r = mkRoute POST "/login" [controller AdminLogin].

(* ===================================================================== *)
(** ** Properties of stores, requests and responses *)
(* ===================================================================== *)

(** The identifiers of a collection are pairwise different, as the store
    keeps them. *)
Definition idsDistinct (s : Store) : Prop :=
  NoDup (map c_id (categories s)) /\ NoDup (map p_id (products s)).

(** No two categories share a name, and no two products do. *)
Definition namesDistinct (s : Store) : Prop :=
  NoDup (map c_name (categories s)) /\ NoDup (map p_name (products s)).

(** Every stored product's [categoryId] refers to an existing category. *)
Definition refsResolve (s : Store) : Prop :=
  forall p, In p (products s) ->
    exists c, In c (categories s) /\ c_id c = p_categoryId p.

(** Every stored order has a status of the enum. *)
Definition statusesInEnum (s : Store) : Prop :=
  forall o, In o (orders s) -> In (o_status o) orderStatuses.

(** The value a request body has under a key, when it is an object. *)
Definition bodyField (req : Req) (k : string) : option JSON :=
  match body req with
  | Some (JObj fields) => assoc k fields
  | _ => None
  end.

(** The oracle lets the next [n] store calls through. *)
Definition noFaults (n : nat) (w : World) : Prop :=
  existsb (fun b => b) (firstn n (faults w)) = false.

(** A response has the shape of the API when [success] says whether the
    status is a 2xx one, and a failure carries an [error]. *)
Definition shaped (r : Response) : Prop :=
  (success (payload r) = true <-> 200 <= status r < 300)
  /\ (success (payload r) = false -> exists e, error (payload r) = Some e).

(** The response carries a pair of tokens. *)
Definition tokensOf (r : Response) : option (string * string) :=
  match data (payload r) with
  | Some (PLogin _ accessToken refreshToken) => Some (accessToken, refreshToken)
  | _ => None
  end.

(** Credentials are valid in a store when some user has the submitted
    email, a password hash, the role [admin], and the submitted password
    matches the hash. *)
Definition validCredentials `{Externals} (s : Store) (email password : string) : Prop :=
  exists u hash,
    In u (users s) /\ u_email u = email /\ u_passwordHash u = Some hash
    /\ u_role u = "admin" /\ bcryptCompare password hash = true.

(** The statistics of a list of orders, order by order: each order counts
    in the total; a placed, confirmed or preparing one is pending; a
    delivered one is delivered and adds its total to the revenue; a
    cancelled one is cancelled. *)
Definition noStats : Stats := mkStats 0 0 0 0 (Some 0%Q).

Definition tallyOrder (o : Order) (st : Stats) : Stats :=
  let s := o_status o in
  let isPending :=
    String.eqb s "placed" || String.eqb s "confirmed" || String.eqb s "preparing" in
  let isDelivered := String.eqb s "delivered" in
  let isCancelled := String.eqb s "cancelled" in
  mkStats
    (S (totalOrders st))
    (if isPending then S (pendingOrders st) else pendingOrders st)
    (if isDelivered then S (deliveredOrders st) else deliveredOrders st)
    (if isCancelled then S (cancelledOrders st) else cancelledOrders st)
    (if isDelivered then option_map (fun sum => (sum + o_total o)%Q) (revenue st)
     else revenue st).

Definition tally (l : list Order) : Stats := fold_right tallyOrder noStats l.

(** Two statistics have the same counts. *)
Definition sameCounts (a b : Stats) : Prop :=
  totalOrders a = totalOrders b
  /\ pendingOrders a = pendingOrders b
  /\ deliveredOrders a = deliveredOrders b
  /\ cancelledOrders a = cancelledOrders b.

(** The totals of the delivered orders, in the order of the store, and
    their sum as rationals.  The store adds in floating point: its sum
    is exact on a list when the number it returns is that rational. *)
Definition deliveredTotals (l : list Order) : list Q :=
  map o_total (filter (fun o => String.eqb (o_status o) "delivered") l).



(** The order of [{ sort: 1, name: 1 }] as a relation. *)
Definition bySortThenName (a b : Category) : Prop :=
  (c_sort a < c_sort b)%Z
  \/ (c_sort a = c_sort b /\ String.leb (c_name a) (c_name b) = true).

(** The controllers that never write to the store. *)
Definition readsOnly (c : Controller) : bool :=
  match c with
  | CreateCategory | UpdateCategory | DeleteCategory
  | CreateProduct | UpdateProduct | DeleteProduct
  | UpdateOrderStatus => false
  | _ => true
  end.

(** The name of the request body is not blank: trimming it leaves
    something. *)
Definition nameNotBlank (req : Req) : Prop :=
  forall s, bodyField req "name" = Some (JStr s) -> Str.trim s <> "".

Definition distinct (s : Store) : Prop := idsDistinct s /\ namesDistinct s.

(** The answers of the product controllers and of the login. *)
Definition categoryNotFound : Response :=
  res_status_json 400 (failure (Msg "Category not found")).

Definition nameTaken (what : string) : Response :=
  res_status_json 400 (failure (Msg (what ++ " with this name already exists"))).

(** The documents [create] builds from the parsed data. *)
Definition newCategory (env : Env) (d : CreateCategoryData) : Category :=
  mkCategory (newObjectId env) (cc_name d) (cc_iconUrl d) (cc_sort d) (cc_isActive d).
Definition newProduct (env : Env) (d : CreateProductData) : Product :=
  mkProduct (newObjectId env) (cp_name d) (cp_categoryId d) (cp_images d)
    (cp_description d) (cp_unitPrices d) (cp_rating d) (cp_isActive d).

Definition invalidCredentials : Response :=
  res_status_json 401 (failure (Msg "Invalid credentials")).
Definition adminRequired : Response :=
  res_status_json 403 (failure (Msg "Admin access required")).
Definition loginFailed : Response :=
  res_status_json 400 (failure (Msg "Login failed")).

(** The first user the store holds under an email. *)
Definition userByEmail (s : Store) (email : string) : option User :=
  find (fun u => String.eqb (u_email u) email) (users s).

Definition loggedIn `{Externals} (u : User) (secret : string) : Response :=
  res_json (succeed (PLogin (viewOf u)
                       (jwtSign (u_id u) secret "1d")
                       (jwtSign (u_id u) secret "30d"))).

(** What a login is answered once the body is valid and the user has
    been looked up: the checks in the order the controller makes them. *)
Definition loginAnswer `{Externals} (env : Env) (found : option User) (password : string) : Response :=
  match found with
  | None => invalidCredentials
  | Some u =>
      match whenTruthy (u_passwordHash u) with
      | None => invalidCredentials
      | Some hash =>
          if negb (String.eqb (u_role u) "admin") then adminRequired
          else if negb (bcryptCompare password hash) then invalidCredentials
          else match jwtSecret env with
               | None => loginFailed
               | Some secret => loggedIn u secret
               end
      end
  end.

(** Every registered route is guarded, except the login route. *)
Definition guardedOrLogin (r : Route) : Prop :=
  (exists c, guardedBy r c /\ c <> AdminLogin) \/ isLoginRoute r.

(* ===================================================================== *)
(** ** Concrete stores and requests *)
(* ===================================================================== *)

Module Scenario.
Import Sample.

Definition idA : ObjectId := "65a1b2c3d4e5f60718293a01".
Definition idB : ObjectId := "65a1b2c3d4e5f60718293a02".
Definition idP : ObjectId := "65a1b2c3d4e5f60718293b01".
Definition idU : ObjectId := "65a1b2c3d4e5f60718293c01".

Definition envA : Env := mkEnv (Some "s3cret") idA.
Definition envB : Env := mkEnv (Some "s3cret") idB.
Definition envNoSecret : Env := mkEnv None idA.

Definition named (name : string) : JSON := JObj [("name", JStr name)].

(** Two categories created through the API, the first one under a name
    of one space. *)
Definition afterBlankCreate : World :=
  snd (createCategory envA (request "" (named " ")) (world emptyStore)).
Definition afterSecondCreate : World :=
  snd (createCategory envB (request "" (named "Fruits")) afterBlankCreate).
Definition blankRename : Response * World :=
  updateCategory envA (request idB (named " ")) afterSecondCreate.

(** The same for products. *)
Definition productBody (name : string) : JSON :=
  JObj [("name", JStr name); ("categoryId", JStr idB);
        ("images", JArr [JStr "http://img.test/p.png"]);
        ("unitPrices",
         JArr [JObj [("unit", JStr "kg"); ("step", JNum 1); ("baseQty", JNum 1);
                     ("price", JNum 40); ("stock", JNum 10)]])].
Definition afterBlankProduct : World :=
  snd (createProduct envA (request "" (productBody " ")) afterSecondCreate).
Definition afterSecondProduct : World :=
  snd (createProduct envB (request "" (productBody "Apple")) afterBlankProduct).
Definition blankProductRename : Response * World :=
  updateProduct envA (request idB (named " ")) afterSecondProduct.

(** A shop with one category and one product in it. *)
Definition fruits : Category := mkCategory idA "Fruits" None 0 true.
Definition apple : Product :=
  mkProduct idP "Apple" idA ["http://img.test/apple.png"] None
    [mkUnitPrice "kg" 1 1 40 None 10] None true.
Definition shop : Store := mkStore [fruits] [apple] [] [].

(** An administrator whose password is [hunter2]. *)
Definition root : User :=
  mkUser idU "Root" "root@veggie.test" None (Some "bcrypt:hunter2") "admin" None.
Definition staff : Store := mkStore [] [] [] [root].
Definition rootLogin : Req :=
  request "" (JObj [("email", JStr "root@veggie.test"); ("password", JStr "hunter2")]).

(** Orders in every status. *)
Definition order (id status : string) (total : Q) : Order := mkOrder id idU status total.
Definition book : Store :=
  mkStore [] [] 
    [order "o1" "placed" 120; order "o2" "delivered" 300; order "o3" "out_for_delivery" 80;
     order "o4" "cancelled" 50; order "o5" "delivered" 45; order "o6" "preparing" 10]
    [root].

(** Categories out of order. *)
Definition shelves : Store :=
  mkStore [mkCategory "c1" "Roots" None 2 true; mkCategory "c2" "Herbs" None 1 true;
           mkCategory "c3" "Fruits" None 2 true] [] [] [].

(** Middlewares that let a request through when it carries an
    [authorization] header. *)
Definition unauthorized : Response :=
  res_status_json 401 (failure (Msg "Access token required")).
Definition needsHeader : Middleware := fun _ req w =>
  match authorization req with
  | Some _ => (inl req, w)
  | None => (inr unauthorized, w)
  end.
Definition letsThrough : Middleware := fun _ req w => (inl req, w).
Definition withHeader : Req := mkReq "" [] None (Some "Bearer t").

End Scenario.

(* ===================================================================== *)
(** ** Tables about the controllers *)
(* ===================================================================== *)

(** The statuses each controller answers with. *)
Definition statusesOf (c : Controller) : list nat :=
  match c with
  | GetCategories | GetProducts | GetAllOrders | GetOrderStats => [200; 500]
  | GetCategoryById | GetProductById | GetOrderById => [200; 404; 500]
  | CreateCategory | CreateProduct => [201; 400; 500]
  | UpdateCategory | UpdateProduct | UpdateOrderStatus => [200; 400; 404; 500]
  | DeleteCategory | DeleteProduct => [200; 404; 500]
  | AdminLogin => [200; 400; 401; 403]
  | GetAdminProfile => [200; 401; 403; 500]
  end.

(** The collections a controller writes to. *)
Definition writesCategories (c : Controller) : bool :=
  match c with
  | CreateCategory | UpdateCategory | DeleteCategory => true
  | _ => false
  end.

Definition writesProducts (c : Controller) : bool :=
  match c with
  | CreateProduct | UpdateProduct | DeleteProduct => true
  | _ => false
  end.

Definition writesOrders (c : Controller) : bool :=
  match c with
  | UpdateOrderStatus => true
  | _ => false
  end.

(** The controllers that answer 500 only when a store call throws: the
    others also do so on an identifier that is taken ([create]), on a
    pattern or cursor options that are refused (the two lists) or on a
    missing [JWT_SECRET] ([getAdminProfile]). *)
Definition failsOnlyWithStore (c : Controller) : bool :=
  match c with
  | CreateCategory | CreateProduct | GetProducts | GetAllOrders | GetAdminProfile => false
  | _ => true
  end.

(** The 404 answers. *)
Definition notFound (what : string) : Response :=
  res_status_json 404 (failure (Msg (what ++ " not found"))).

(* ===================================================================== *)
(** ** More concrete requests *)
(* ===================================================================== *)

Module Cases.
Import Sample.

(** Creating the category Herbs in the shop, and asking for it back. *)
Definition herbs : Req := request "" (Scenario.named "Herbs").
Definition byId (id : ObjectId) : Req := request id JNull.

(** Renaming the category of the shop and moving it down the list. *)
Definition moveFruits : Req :=
  request Scenario.idA (JObj [("name", JStr "Orchard"); ("sort", JNum 3)]).

(** The shop, with nothing going wrong and with a store that throws on
    the fourth call. *)
Definition shop : World := world Scenario.shop.
Definition flakyShop : World := mkWorld Scenario.shop [false; false; false; true].
Definition book : World := world Scenario.book.

(** A pear for the category of the shop, and the apple without its
    images. *)
Definition pear : Req :=
  request ""
    (JObj [("name", JStr "Pear"); ("categoryId", JStr Scenario.idA);
           ("images", JArr [JStr "http://img.test/pear.png"]);
           ("unitPrices",
            JArr [JObj [("unit", JStr "pcs"); ("step", JNum 1); ("baseQty", JNum 1);
                        ("price", JNum 12); ("stock", JNum 0)]])]).
Definition pearData : CreateProductData :=
  mkCreateProductData "Pear" Scenario.idA ["http://img.test/pear.png"] None
    [mkUnitPrice "pcs" 1 1 12 None 0] None true.
Definition noImages : Req := request Scenario.idP (JObj [("images", JArr [])]).

(** Putting a delivered order back to placed. *)
Definition reopen : Req := request "o2" (JObj [("status", JStr "placed")]).

(** Listing the delivered orders one to a page. *)
Definition delivered : Req :=
  mkReq "" [("status", QStr "delivered"); ("limit", QStr "1")] None None.

End Cases.

(** What the product schemas let through: a unit of the enum, positive
    step, quantity and prices, a stock that is not negative, a rating
    between 0 and 5, image URLs and a category identifier of 24
    hexadecimal digits. *)
Definition validUnitPrice (u : UnitPrice) : Prop :=
  In (up_unit u) ["kg"; "g"; "pcs"; "bundle"]
  /\ (0 < up_step u)%Q /\ (0 < up_baseQty u)%Q /\ (0 < up_price u)%Q
  /\ (forall c, up_compareAt u = Some c -> (0 < c)%Q)
  /\ (0 <= up_stock u)%Q.

Definition validRating (r : option Q) : Prop :=
  forall q, r = Some q -> (0 <= q)%Q /\ (q <= 5)%Q.

Definition validProduct `{Externals} (p : Product) : Prop :=
  Str.isHex24 (p_categoryId p) = true
  /\ Forall (fun i => isUrl i = true) (p_images p)
  /\ Forall validUnitPrice (p_unitPrices p)
  /\ validRating (p_rating p).

(** A product has at least one image and one unit price. *)
Definition stocked (p : Product) : Prop :=
  p_images p <> [] /\ p_unitPrices p <> [].

(** The product as [populate('categoryId', 'name')] returns it. *)
Definition populated (p : Product) (c : Category) : PopulatedProduct :=
  (p, Some (mkCategoryRef (c_id c) (c_name c))).

(** A string without a space: what [split(' ')] leaves whole. *)
Definition spaceFree (s : string) : bool :=
  Str.allChars (fun c => negb (Ascii.eqb c " "%char)) s.

(** The answers of [getAdminProfile] that are not a profile. *)
Definition secretMissing : Response :=
  res_status_json 500 (failure (Msg "JWT_SECRET is not configured")).
Definition tokenRequired : Response :=
  res_status_json 401 (failure (Msg "Access token required")).
Definition invalidToken : Response :=
  res_status_json 401 (failure (Msg "Invalid token")).

(** A key of the query string that is given once, as a string that is
    not empty ([Some]), or that is not given or given as the empty
    string ([None]). *)
Definition plain (req : Req) (key : string) (v : option string) : Prop :=
  match v with
  | Some s => assoc key (query req) = Some (QStr s) /\ s <> EmptyString
  | None =>
      assoc key (query req) = None \/ assoc key (query req) = Some (QStr EmptyString)
  end.

(** [isActive] asks for the active products when it is the string
    [true], for the others when it is anything else, and for both when
    it is not given. *)
Definition asked (req : Req) (active : option bool) : Prop :=
  match active with
  | None => assoc "isActive" (query req) = None
  | Some true => assoc "isActive" (query req) = Some (QStr "true")
  | Some false => exists v, assoc "isActive" (query req) = Some v /\ v <> QStr "true"
  end.

(** The orders of a status and of a user, and the products of a
    category whose name or description passes a test and that are
    active or not, where one is asked for. *)
Definition orderHas (status userId : option string) (o : Order) : bool :=
  match status with Some s => String.eqb (o_status o) s | None => true end
  && match userId with Some u => String.eqb (o_userId o) u | None => true end.

Definition productHas (category : option string) (search : option (string -> bool))
    (active : option bool) (p : Product) : bool :=
  match category with Some c => String.eqb (p_categoryId p) c | None => true end
  && match search with
     | Some test =>
         test (p_name p) || match p_description p with Some d => test d | None => false end
     | None => true
     end
  && match active with Some b => Bool.eqb (p_isActive p) b | None => true end.

(** The expression [new RegExp(q, 'i')] gives for a search. *)
Definition searchOf `{Externals} (q : option string) : option (string -> bool) :=
  match q with
  | Some s => regExpI s
  | None => None
  end.

(** The number [parseInt] makes of a key of the query string that is a
    string, or of its default when the key is not given. *)
Definition numberOf `{Externals} (req : Req) (key default : string) (n : option Z) : Prop :=
  (assoc key (query req) = None -> n = parseInt default)
  /\ (forall s, assoc key (query req) = Some (QStr s) -> n = parseInt s).

(** The string [parseInt] and [new RegExp] make of a value. *)
Definition stringGiven `{Externals} (v : QueryValue) : option string :=
  match v with
  | QStr s => Some s
  | _ => stringOf v
  end.

(** [pages] pages of [limit] documents are what it takes to list
    [total] documents. *)
Definition coversWith (total : nat) (limit : Z) (pages : option Z) : Prop :=
  exists k, pages = Some k /\ ((k - 1) * limit < Z.of_nat total <= k * limit)%Z.

(** The pages of a [meta] are the pages its total takes under its
    limit; a limit of 0 or one that is not a number gives no number of
    pages. *)
Definition pagesFit (m : Meta) : Prop :=
  (forall n, m_limit m = Some n -> (0 < n)%Z -> coversWith (m_total m) n (m_pages m))
  /\ (m_limit m = Some 0%Z \/ m_limit m = None -> m_pages m = None).

(** A name with no white space at either end. *)
Definition trimmed (s : string) : Prop := Str.trim s = s.

Definition namesTrimmed (s : Store) : Prop :=
  Forall (fun c => trimmed (c_name c)) (categories s)
  /\ Forall (fun p => trimmed (p_name p)) (products s).

(** A middleware that calls [next()] on every request, and what a
    controller then answers. *)
Definition passes (mw : Middleware) : Prop :=
  forall env req w, mw env req w = (inl req, w).

Definition served `{Externals} (c : Controller) (env : Env) (req : Req) (w : World)
  : Served * World :=
  let (r, w') := run c env req w in (ByController c r, w').

Definition withId (req : Req) (id : string) : Req := withParams req [("id", id)].

(* ===================================================================== *)
(** ** The script that creates the administrator *)
(* ===================================================================== *)

(** The environment variables the script reads, and the [_id] the store
    gives the new user. *)
Record ScriptEnv : Type := mkScriptEnv {
  MONGO_URI : option string;
  ADMIN_EMAIL : option string;
  ADMIN_PASSWORD : option string;
  ADMIN_NAME : option string;
  adminObjectId : ObjectId
}.

(** [a || b] on a variable of the environment. *)
Definition orDefault (o : option string) (d : string) : string :=
  orElse (whenTruthy o) d.

Definition mongoUri (e : ScriptEnv) : string :=
  orDefault (MONGO_URI e) "mongodb://localhost:27017/veggiefresh".
Definition adminEmail (e : ScriptEnv) : string :=
  orDefault (ADMIN_EMAIL e) "admin@veggiefresh.com".
Definition adminPassword (e : ScriptEnv) : string :=
  orDefault (ADMIN_PASSWORD e) "admin123".
Definition adminName (e : ScriptEnv) : string :=
  orDefault (ADMIN_NAME e) "Admin User".

Definition setUsers (l : list User) (s : Store) : Store :=
  mkStore (categories s) (products s) (orders s) l.

(** [mongoose.connect(uri)]: a call to the store, which is the database
    behind the URI. *)
Definition connect (uri : string) : M unit := dbCall.

(** A script ends with the code it hands to [process.exit]: 0 from the
    [try] block, 1 from the [catch] block.  [process.exit] ends the
    process where it is called, so nothing runs after it; the lines the
    script writes to the console are left out. *)
Definition runScript (body : M nat) : World -> nat * World := fun w =>
  match body w with
  | (inr code, w') => (code, w')
  | (inl _, w') => (1, w')
  end.

Section Script.
(** [bcrypt.hash(password, saltRounds)] *)
Variable bcryptHash : string -> nat -> string.

(** [new User({ name, email, passwordHash, role: 'admin',
    isPhoneVerified: true })]; the record of a user has no field for
    [isPhoneVerified], which nothing here reads. *)
Definition adminUser (e : ScriptEnv) : User :=
  let saltRounds := 10 in
  let passwordHash := bcryptHash (adminPassword e) saltRounds in
  mkUser (adminObjectId e) (adminName e) (adminEmail e) None (Some passwordHash) "admin" None.

Definition createAdminUser (e : ScriptEnv) : World -> nat * World :=
  runScript
    (connect (mongoUri e) ;;
     (* Check if admin user already exists *)
     existingAdmin <- User.findOneByEmail (adminEmail e) ;;
     match existingAdmin with
     | Some _ => ret 0
     | None =>
         (* Create admin user *)
         _ <- insertDoc u_id users setUsers (adminUser e) ;;
         ret 0
     end).

End Script.

(** The body of a login with an email and a password. *)
Definition loginWith (email password : string) : Req :=
  mkReq "" [] (Some (JObj [("email", JStr email); ("password", JStr password)])) None.

(** The script run without any variable set; the hash is the one the
    sample [bcrypt.compare] accepts. *)
Module Setup.

Definition hashOf (password : string) (saltRounds : nat) : string :=
  ("bcrypt:" ++ password)%string.
Definition unset : ScriptEnv := mkScriptEnv None None None None Scenario.idU.
Definition fresh : World := Sample.world Sample.emptyStore.

End Setup.

(* ===================================================================== *)
(** ** Reasoning about controller bodies *)
(* ===================================================================== *)

(** [wp m Q w]: running [m] in the world [w] ends, by a return or by a
    throw, in a world that satisfies [Q]. *)
Definition wp (A : Type) (m : M A) (Q : Thrown + A -> World -> Prop) (w : World) : Prop :=
  Q (fst (m w)) (snd (m w)).

Lemma wp_ret (A : Type) (a : A) (Q : Thrown + A -> World -> Prop) (w : World) :
  Q (inr a) w -> wp (ret a) Q w.
Proof. intro HQ. exact HQ. Qed.

Lemma wp_throw (A : Type) (e : Thrown) (Q : Thrown + A -> World -> Prop) (w : World) :
  Q (inl e) w -> wp (throw e) Q w.
Proof. intro HQ. exact HQ. Qed.

Lemma wp_bind (A B : Type) (m : M A) (k : A -> M B)
    (Q : Thrown + B -> World -> Prop) (w : World) :
  wp m (fun r w' => match r with
                    | inl e => Q (inl e) w'
                    | inr a => wp (k a) Q w'
                    end) w ->
  wp (bind m k) Q w.
Proof.
  unfold wp, bind. destruct (m w) as [[e | a] w1]; cbn; intro HQ; exact HQ.
Qed.

Lemma wp_dbCall (Q : Thrown + unit -> World -> Prop) (w : World) :
  (hd false (faults w) = true -> Q (inl OtherError) (advance w)) ->
  (hd false (faults w) = false -> Q (inr tt) (advance w)) ->
  wp dbCall Q w.
Proof.
  unfold wp, dbCall. intros Hfault Hok.
  destruct (hd false (faults w)); cbn; auto.
Qed.

Lemma wp_readStore (A : Type) (f : Store -> A)
    (Q : Thrown + A -> World -> Prop) (w : World) :
  (hd false (faults w) = true -> Q (inl OtherError) (advance w)) ->
  (hd false (faults w) = false -> Q (inr (f (store w))) (advance w)) ->
  wp (readStore f) Q w.
Proof.
  unfold wp, readStore, bind, dbCall. intros Hfault Hok.
  destruct (hd false (faults w)); cbn; auto.
Qed.

Lemma wp_writeStore (f : Store -> Store)
    (Q : Thrown + unit -> World -> Prop) (w : World) :
  (hd false (faults w) = true -> Q (inl OtherError) (advance w)) ->
  (hd false (faults w) = false ->
   Q (inr tt) (mkWorld (f (store w)) (tl (faults w)))) ->
  wp (writeStore f) Q w.
Proof.
  unfold wp, writeStore, bind, dbCall. intros Hfault Hok.
  destruct (hd false (faults w)); cbn; auto.
Qed.

Lemma wp_parse (A : Type) (schema : Schema A) (v : option JSON)
    (Q : Thrown + A -> World -> Prop) (w : World) :
  (forall m, schema v = inl m -> Q (inl (ZodError m)) w) ->
  (forall a, schema v = inr a -> Q (inr a) w) ->
  wp (parse schema v) Q w.
Proof.
  unfold wp, parse. intros Hbad Hgood.
  destruct (schema v) as [m | a]; cbn; auto.
Qed.

Lemma wp_insertDoc (A : Type) (idOf : A -> ObjectId) (get : Store -> list A)
    (set : list A -> Store -> Store) (d : A)
    (Q : Thrown + A -> World -> Prop) (w : World) :
  (hd false (faults w) = true -> Q (inl OtherError) (advance w)) ->
  (forall x, lookupId idOf (idOf d) (get (store w)) = Some x ->
   Q (inl OtherError) (advance w)) ->
  (hd false (faults w) = false ->
   lookupId idOf (idOf d) (get (store w)) = None ->
   Q (inr d) (mkWorld (set (get (store w) ++ [d])%list (store w)) (tl (faults w)))) ->
  wp (insertDoc idOf get set d) Q w.
Proof.
  unfold wp, insertDoc, bind, dbCall. intros Hfault Hdup Hok.
  destruct (hd false (faults w)); cbn; auto.
  destruct (lookupId idOf (idOf d) (get (store w))) eqn:Hl; cbn; eauto.
Qed.

Lemma wp_saveDoc (A : Type) (idOf : A -> ObjectId) (get : Store -> list A)
    (set : list A -> Store -> Store) (d : A)
    (Q : Thrown + unit -> World -> Prop) (w : World) :
  (hd false (faults w) = true -> Q (inl OtherError) (advance w)) ->
  (lookupId idOf (idOf d) (get (store w)) = None ->
   Q (inl OtherError) (advance w)) ->
  (forall x, hd false (faults w) = false ->
   lookupId idOf (idOf d) (get (store w)) = Some x ->
   Q (inr tt) (mkWorld (set (replaceDoc idOf d (get (store w))) (store w)) (tl (faults w)))) ->
  wp (saveDoc idOf get set d) Q w.
Proof.
  unfold wp, saveDoc, bind, dbCall. intros Hfault Hgone Hok.
  destruct (hd false (faults w)) eqn:Hf; cbn; auto.
  destruct (lookupId idOf (idOf d) (get (store w))) eqn:Hl; cbn; eauto.
Qed.

Lemma wp_tryCatch (body : M Response) (handler : Thrown -> Response)
    (Q : Response -> World -> Prop) (w : World) :
  wp body (fun r w' => match r with
                       | inl e => Q (handler e) w'
                       | inr resp => Q resp w'
                       end) w ->
  Q (fst (tryCatch body handler w)) (snd (tryCatch body handler w)).
Proof.
  unfold wp, tryCatch. destruct (body w) as [[e | r] w1]; cbn; auto.
Qed.

(** Unfolding a controller down to the primitives of the monad. *)
Ltac unfold_controllers :=
  cbv [run getCategories getCategoryById createCategory updateCategory
       deleteCategory getProducts getProductById createProduct updateProduct
       deleteProduct getAllOrders getOrderStats getOrderById updateOrderStatus
       adminLogin getAdminProfile generateTokens
       Category.findById Category.findOneByName Category.findSorted
       Category.create Category.save Category.findByIdAndDelete
       Product.findById Product.findOneByName Product.create Product.save
       Product.findByIdAndDelete Product.populate Product.findByIdPopulated
       Product.findPage Product.countDocuments asString
       Order.findById Order.save Order.populate Order.findByIdPopulated
       Order.findPage Order.countDocuments Order.countQuery Order.aggregateRevenue
       User.findOneByEmail User.findById].

Ltac wp_simpl :=
  cbv beta iota zeta; cbn [store faults advance fst snd status payload].

(** One step of symbolic execution through a controller body. *)
Ltac wp_step :=
  lazymatch goal with
  | |- wp (bind _ _) _ _ => apply wp_bind
  | |- wp (ret _) _ _ => apply wp_ret
  | |- wp (throw _) _ _ => apply wp_throw
  | |- wp dbCall _ _ => apply wp_dbCall; intros ?
  | |- wp (readStore _) _ _ => apply wp_readStore; intros ?
  | |- wp (writeStore _) _ _ => apply wp_writeStore; intros ?
  | |- wp (parse _ _) _ _ => apply wp_parse; intros ? ?
  | |- wp (insertDoc _ _ _ _) _ _ =>
      apply wp_insertDoc; [intros ? | intros ? ? | intros ? ?]
  | |- wp (saveDoc _ _ _ _) _ _ =>
      apply wp_saveDoc; [intros ? | intros ? | intros ? ? ?]
  | |- wp (match ?x with _ => _ end) _ _ => destruct x eqn:?
  end; wp_simpl.

Ltac wp_run := wp_simpl; repeat wp_step.

(* ===================================================================== *)
(** ** The shape of responses *)
(* ===================================================================== *)

Lemma shaped_failure (n : nat) (e : ErrMsg) :
  n < 200 \/ 300 <= n -> shaped (res_status_json n (failure e)).
Proof.
  intros Hn. split; simpl.
  - split; [discriminate | lia].
  - intros _. exists e. reflexivity.
Qed.

Lemma shaped_success (n : nat) (b : Body) :
  200 <= n < 300 -> success b = true -> shaped (res_status_json n b).
Proof.
  intros Hn Hb. split; simpl.
  - rewrite Hb. tauto.
  - rewrite Hb. discriminate.
Qed.

Ltac shaped_leaf :=
  first
    [ apply shaped_failure; lia
    | apply shaped_success; [lia | reflexivity]
    | unfold catchZod, catchAll; apply shaped_failure; lia ].

Section Shape.
Context `{Externals}.

Lemma shaped_run (c : Controller) (env : Env) (req : Req) (w : World) :
  shaped (fst (run c env req w)).
Proof.
  destruct c; unfold_controllers;
    apply (wp_tryCatch _ _ (fun r _ => shaped r));
    wp_run; shaped_leaf.
Qed.

End Shape.

(* ===================================================================== *)
(** ** Updates that answer 400 or 404 write nothing *)
(* ===================================================================== *)

Ltac atomic_leaf :=
  unfold catchZod; cbn [status res_status_json res_json];
  intros [Hs | Hs]; try discriminate Hs; reflexivity.

Section Atomic.
Context `{Externals}.

Lemma update_error_keeps_store (c : Controller) (env : Env) (req : Req) (w : World) :
  c = UpdateCategory \/ c = UpdateProduct \/ c = UpdateOrderStatus ->
  status (fst (run c env req w)) = 400 \/ status (fst (run c env req w)) = 404 ->
  store (snd (run c env req w)) = store w.
Proof.
  intros [-> | [-> | ->]]; unfold_controllers;
    apply (wp_tryCatch _ _
             (fun r w' => status r = 400 \/ status r = 404 -> store w' = store w));
    wp_run; atomic_leaf.
Qed.

End Atomic.

(* ===================================================================== *)
(** ** Collections *)
(* ===================================================================== *)

Section CollectionFacts.
Variable A : Type.
Variable idOf : A -> ObjectId.

Lemma lookupId_In (id : ObjectId) (l : list A) (d : A) :
  lookupId idOf id l = Some d -> In d l /\ idOf d = id.
Proof.
  unfold lookupId. intro Hf. apply find_some in Hf. destruct Hf as [Hin Hid].
  split; [exact Hin | ]. unfold hasId in Hid. apply String.eqb_eq. exact Hid.
Qed.

Lemma lookupId_None (id : ObjectId) (l : list A) :
  lookupId idOf id l = None -> ~ In id (map idOf l).
Proof.
  unfold lookupId. intros Hf Hin. apply in_map_iff in Hin.
  destruct Hin as [d [Hid Hd]].
  pose proof (find_none _ _ Hf d Hd) as Hno. unfold hasId in Hno.
  rewrite Hid, String.eqb_refl in Hno. discriminate.
Qed.

Lemma replaceDoc_In (d x : A) (l : list A) :
  In x (replaceDoc idOf d l) -> x = d \/ In x l.
Proof.
  unfold replaceDoc. intro Hin. apply in_map_iff in Hin.
  destruct Hin as [y [Hy Hin]].
  destruct (hasId idOf (idOf d) y); subst; auto.
Qed.

Lemma replaceDoc_ids (d : A) (l : list A) :
  map idOf (replaceDoc idOf d l) = map idOf l.
Proof.
  unfold replaceDoc. rewrite map_map. apply map_ext. intro y.
  unfold hasId. destruct (String.eqb (idOf y) (idOf d)) eqn:Heq; [ | reflexivity].
  apply String.eqb_eq in Heq. symmetry. exact Heq.
Qed.

Lemma deleteOne_In (id : ObjectId) (x : A) (l : list A) :
  In x (deleteOne idOf id l) -> In x l.
Proof.
  induction l as [ | y l IH]; cbn; [tauto | ].
  destruct (hasId idOf id y); cbn; intuition.
Qed.

Lemma deleteOne_keeps (id : ObjectId) (x : A) (l : list A) :
  In x l -> idOf x <> id -> In x (deleteOne idOf id l).
Proof.
  induction l as [ | y l IH]; cbn; [tauto | ].
  intros [-> | Hin] Hne.
  - unfold hasId. destruct (String.eqb_spec (idOf x) id); [contradiction | left; reflexivity].
  - destruct (hasId idOf id y); [exact Hin | right; auto].
Qed.

End CollectionFacts.

Lemma existsb_eqb_In (s : string) (values : list string) :
  existsb (String.eqb s) values = true <-> In s values.
Proof.
  rewrite existsb_exists. split.
  - intros [x [Hin Heq]]. apply String.eqb_eq in Heq. subst. exact Hin.
  - intro Hin. exists s. split; [exact Hin | apply String.eqb_refl].
Qed.

(* ===================================================================== *)
(** ** Order status *)
(* ===================================================================== *)

Lemma updateOrderStatusSchema_accepts (req : Req) (st : string) :
  updateOrderStatusSchema (body req) = inr st ->
  bodyField req "status" = Some (JStr st) /\ In st orderStatuses.
Proof.
  unfold updateOrderStatusSchema, bodyField, Zod.object, Zod.enum, Zod.andThen, Zod.ok.
  destruct (body req) as [[ | | | | | fields] | ]; try discriminate.
  destruct (assoc "status" fields) as [[ | | | s | | ] | ]; try discriminate.
  destruct (existsb (String.eqb s) orderStatuses) eqn:Hin; try discriminate.
  intro Heq. inversion Heq; subst. split; [reflexivity | ].
  apply existsb_eqb_In. exact Hin.
Qed.

Section OrderStatus.
Context `{Externals}.

Lemma updateOrderStatus_rejects (env : Env) (req : Req) (w : World) :
  (forall st, bodyField req "status" = Some (JStr st) -> ~ In st orderStatuses) ->
  status (fst (updateOrderStatus env req w)) = 400
  /\ store (snd (updateOrderStatus env req w)) = store w.
Proof.
  intro Hbad. unfold_controllers.
  apply (wp_tryCatch _ _ (fun r w' => status r = 400 /\ store w' = store w)).
  wp_run;
    try match goal with
        | Hp : updateOrderStatusSchema _ = inr ?a |- _ =>
            exfalso; destruct (updateOrderStatusSchema_accepts _ Hp) as [Hf Hin];
            exact (Hbad _ Hf Hin)
        end.
  split; reflexivity.
Qed.

Lemma updateOrderStatus_effect (env : Env) (req : Req) (w : World) :
  store (snd (updateOrderStatus env req w)) = store w
  \/ exists o st,
       lookupId o_id (params_id req) (orders (store w)) = Some o
       /\ bodyField req "status" = Some (JStr st)
       /\ In st orderStatuses
       /\ store (snd (updateOrderStatus env req w))
          = setOrders (replaceDoc o_id (setStatus o st) (orders (store w))) (store w).
Proof.
  unfold_controllers.
  apply (wp_tryCatch _ _
           (fun _ w' =>
              store w' = store w
              \/ exists o st,
                   lookupId o_id (params_id req) (orders (store w)) = Some o
                   /\ bodyField req "status" = Some (JStr st)
                   /\ In st orderStatuses
                   /\ store w'
                      = setOrders (replaceDoc o_id (setStatus o st) (orders (store w)))
                          (store w))).
  wp_run;
    try (left; reflexivity);
    match goal with
    | Hp : updateOrderStatusSchema _ = inr ?a,
      Hl : lookupId o_id _ _ = Some ?o |- _ =>
        destruct (updateOrderStatusSchema_accepts _ Hp) as [Hf Hin];
        right; exists o, a; repeat split; assumption || reflexivity
    end.
Qed.

Lemma updateOrderStatus_keeps_enum (env : Env) (req : Req) (w : World) :
  statusesInEnum (store w) ->
  statusesInEnum (store (snd (updateOrderStatus env req w))).
Proof.
  intro Hinv.
  destruct (updateOrderStatus_effect env req w) as [-> | [o [st [_ [_ [Hin ->]]]]]].
  - exact Hinv.
  - intros o' Ho'. cbn in Ho'. apply replaceDoc_In in Ho'.
    destruct Ho' as [-> | Ho']; [exact Hin | exact (Hinv _ Ho')].
Qed.

End OrderStatus.

(* ===================================================================== *)
(** ** Order statistics *)
(* ===================================================================== *)

Lemma noFaults_next (n : nat) (w : World) :
  noFaults (S n) w -> hd false (faults w) = false /\ noFaults n (advance w).
Proof.
  unfold noFaults, advance. cbn [faults].
  destruct (faults w) as [ | b rest]; cbn.
  - intros _. split; [reflexivity | ]. destruct n; reflexivity.
  - destruct b; cbn; [discriminate | ]. intro Hrest. split; [reflexivity | exact Hrest].
Qed.

Lemma count_all (l : list Order) :
  List.length (filter (fun _ => true) l) = totalOrders (tally l).
Proof.
  induction l as [ | o l IH]; cbn; [reflexivity | ]. rewrite IH. reflexivity.
Qed.

Lemma count_pending (l : list Order) :
  List.length (filter (statusIn ["placed"; "confirmed"; "preparing"]) l)
  = pendingOrders (tally l).
Proof.
  induction l as [ | o l IH]; [reflexivity | ].
  cbn [filter tally fold_right tallyOrder pendingOrders].
  change (fold_right tallyOrder noStats l) with (tally l).
  unfold statusIn at 1. cbn [existsb]. rewrite orb_false_r, orb_assoc.
  destruct (String.eqb (o_status o) "placed" || String.eqb (o_status o) "confirmed"
            || String.eqb (o_status o) "preparing"); cbn [List.length]; rewrite IH; reflexivity.
Qed.

Lemma count_delivered (l : list Order) :
  List.length (filter (statusIs "delivered") l) = deliveredOrders (tally l).
Proof.
  induction l as [ | o l IH]; [reflexivity | ].
  cbn [filter tally fold_right tallyOrder deliveredOrders].
  change (fold_right tallyOrder noStats l) with (tally l).
  unfold statusIs at 1.
  destruct (String.eqb (o_status o) "delivered"); cbn [List.length]; rewrite IH; reflexivity.
Qed.

Lemma count_cancelled (l : list Order) :
  List.length (filter (statusIs "cancelled") l) = cancelledOrders (tally l).
Proof.
  induction l as [ | o l IH]; [reflexivity | ].
  cbn [filter tally fold_right tallyOrder cancelledOrders].
  change (fold_right tallyOrder noStats l) with (tally l).
  unfold statusIs at 1.
  destruct (String.eqb (o_status o) "cancelled"); cbn [List.length]; rewrite IH; reflexivity.
Qed.



Section Stats.
Context `{Externals}.

Lemma revenue_of_aggregate (l : list Order) :
  match groupSumTotal (matchStage (statusIs "delivered") l) with
  | total :: _ => total
  | [] => Some 0%Q
  end
  = match deliveredTotals l with
    | [] => Some 0%Q
    | totals => storeSum totals
    end.
Proof.
  unfold groupSumTotal, matchStage, deliveredTotals, statusIs.
  destruct (filter (fun o => String.eqb (o_status o) "delivered") l) as [ | o rest];
    reflexivity.
Qed.

Lemma getOrderStats_tally (env : Env) (req : Req) (w : World) :
  noFaults 5 w ->
  exists st,
    fst (getOrderStats env req w) = res_json (succeed (PStats st))
    /\ sameCounts st (tally (orders (store w)))
    /\ revenue st = match deliveredTotals (orders (store w)) with
                    | [] => Some 0%Q
                    | totals => storeSum totals
                    end.
Proof.
  intro H5.
  apply noFaults_next in H5. destruct H5 as [F1 H5].
  apply noFaults_next in H5. destruct H5 as [F2 H5].
  apply noFaults_next in H5. destruct H5 as [F3 H5].
  apply noFaults_next in H5. destruct H5 as [F4 H5].
  apply noFaults_next in H5. destruct H5 as [F5 _].
  unfold_controllers.
  apply (wp_tryCatch _ _
           (fun r _ => exists st, r = res_json (succeed (PStats st))
                                  /\ sameCounts st (tally (orders (store w)))
                                  /\ revenue st
                                     = match deliveredTotals (orders (store w)) with
                                       | [] => Some 0%Q
                                       | totals => storeSum totals
                                       end)).
  wp_run; try congruence.
  eexists. split; [reflexivity | ].
  split; [ | cbn [revenue]; apply revenue_of_aggregate].
  repeat split; cbn [totalOrders pendingOrders deliveredOrders cancelledOrders].
  - apply count_all.
  - apply count_pending.
  - apply count_delivered.
  - apply count_cancelled.
Qed.

End Stats.


(* ===================================================================== *)
(** ** Sorted lists *)
(* ===================================================================== *)

Section SortFacts.
Variable A : Type.
Variable le : A -> A -> bool.
Hypothesis le_total : forall a b, le a b = true \/ le b a = true.

Lemma insertSorted_perm (x : A) (l : list A) :
  Permutation (insertSorted le x l) (x :: l).
Proof.
  induction l as [ | y l IH]; cbn.
  - apply Permutation_refl.
  - destruct (le x y).
    + apply Permutation_refl.
    + apply perm_trans with (y :: x :: l).
      * apply perm_skip. exact IH.
      * apply perm_swap.
Qed.

Lemma sortBy_perm (l : list A) : Permutation (sortBy le l) l.
Proof.
  induction l as [ | x l IH]; cbn.
  - apply perm_nil.
  - apply perm_trans with (x :: sortBy le l).
    + apply insertSorted_perm.
    + apply perm_skip. exact IH.
Qed.

Lemma insertSorted_hd (x y : A) (l : list A) :
  le y x = true ->
  HdRel (fun a b => le a b = true) y l ->
  HdRel (fun a b => le a b = true) y (insertSorted le x l).
Proof.
  intros Hyx Hhd. destruct l as [ | z l]; cbn.
  - constructor. exact Hyx.
  - destruct (le x z).
    + constructor. exact Hyx.
    + constructor. inversion Hhd; assumption.
Qed.

Lemma insertSorted_sorted (x : A) (l : list A) :
  Sorted (fun a b => le a b = true) l ->
  Sorted (fun a b => le a b = true) (insertSorted le x l).
Proof.
  induction l as [ | y l IH]; intro Hs; cbn.
  - repeat constructor.
  - destruct (le x y) eqn:Hxy.
    + constructor; [exact Hs | constructor; exact Hxy].
    + inversion Hs as [ | ? ? Hl Hhd]; subst.
      constructor; [apply IH; exact Hl | ].
      apply insertSorted_hd; [ | exact Hhd].
      destruct (le_total x y) as [Hle | Hle]; [congruence | exact Hle].
Qed.

Lemma sortBy_sorted (l : list A) :
  Sorted (fun a b => le a b = true) (sortBy le l).
Proof.
  induction l as [ | x l IH]; cbn.
  - constructor.
  - apply insertSorted_sorted. exact IH.
Qed.

End SortFacts.

Lemma string_leb_trans (s1 s2 s3 : string) :
  String.leb s1 s2 = true -> String.leb s2 s3 = true -> String.leb s1 s3 = true.
Proof.
  unfold String.leb. revert s2 s3.
  induction s1 as [ | a s1 IH]; intros [ | b s2] [ | c s3]; cbn; try easy.
  unfold Ascii.compare.
  destruct (N.compare_spec (N_of_ascii a) (N_of_ascii b)) as [Hab | Hab | Hab];
    destruct (N.compare_spec (N_of_ascii b) (N_of_ascii c)) as [Hbc | Hbc | Hbc];
    destruct (N.compare_spec (N_of_ascii a) (N_of_ascii c)) as [Hac | Hac | Hac];
    try easy; try lia.
  apply IH.
Qed.

Lemma categoryLe_iff (a b : Category) :
  categoryLe a b = true <-> bySortThenName a b.
Proof.
  unfold categoryLe, bySortThenName.
  rewrite orb_true_iff, andb_true_iff, Z.ltb_lt, Z.eqb_eq. tauto.
Qed.

Lemma categoryLe_total (a b : Category) :
  categoryLe a b = true \/ categoryLe b a = true.
Proof.
  rewrite !categoryLe_iff. unfold bySortThenName.
  destruct (Z.lt_trichotomy (c_sort a) (c_sort b)) as [Hlt | [Heq | Hgt]]; auto.
  destruct (String.leb_total (c_name a) (c_name b)); auto.
Qed.

Lemma bySortThenName_trans (a b c : Category) :
  bySortThenName a b -> bySortThenName b c -> bySortThenName a c.
Proof.
  unfold bySortThenName.
  intros [Hab | [Hab Nab]] [Hbc | [Hbc Nbc]]; try (left; lia).
  right. split; [lia | ]. exact (string_leb_trans _ _ _ Nab Nbc).
Qed.

Lemma sortBy_categories (l : list Category) :
  Permutation (sortBy categoryLe l) l
  /\ StronglySorted bySortThenName (sortBy categoryLe l).
Proof.
  split; [apply sortBy_perm | ].
  apply Sorted_StronglySorted.
  - intros a b c. apply bySortThenName_trans.
  - pose proof (sortBy_sorted categoryLe categoryLe_total l) as Hs.
    induction Hs as [ | x rest Hrest IH Hhd]; constructor; [exact IH | ].
    destruct Hhd; constructor. apply categoryLe_iff. assumption.
Qed.

(* ===================================================================== *)
(** ** Controllers that only read *)
(* ===================================================================== *)

Section ReadOnly.
Context `{Externals}.

Lemma readsOnly_keeps_store (c : Controller) (env : Env) (req : Req) (w : World) :
  readsOnly c = true -> store (snd (run c env req w)) = store w.
Proof.
  destruct c; cbn [readsOnly]; intro Hr; try discriminate Hr; unfold_controllers;
    apply (wp_tryCatch _ _ (fun _ w' => store w' = store w));
    wp_run; reflexivity.
Qed.

End ReadOnly.

(* ===================================================================== *)
(** ** Names within a collection *)
(* ===================================================================== *)

Section NameFacts.
Variable A : Type.
Variable idOf : A -> ObjectId.
Variable nameOf : A -> string.

Lemma find_name_None (n : string) (l : list A) :
  find (fun x => String.eqb (nameOf x) n) l = None -> ~ In n (map nameOf l).
Proof.
  intros Hf Hin. apply in_map_iff in Hin. destruct Hin as [x [Hx Hin]].
  pose proof (find_none _ _ Hf x Hin) as Hno. cbn in Hno.
  rewrite Hx, String.eqb_refl in Hno. discriminate.
Qed.

Lemma find_name_Some (n : string) (l : list A) :
  In n (map nameOf l) -> exists x, find (fun x => String.eqb (nameOf x) n) l = Some x.
Proof.
  intro Hin. apply in_map_iff in Hin. destruct Hin as [y [Hy Hin]].
  destruct (find (fun x => String.eqb (nameOf x) n) l) as [x | ] eqn:Hf.
  - exists x. reflexivity.
  - pose proof (find_none _ _ Hf y Hin) as Hno. cbn in Hno.
    rewrite Hy, String.eqb_refl in Hno. discriminate.
Qed.

Lemma lookupId_absent (id : ObjectId) (l : list A) :
  ~ In id (map idOf l) -> lookupId idOf id l = None.
Proof.
  intro Hno. destruct (lookupId idOf id l) as [x | ] eqn:Hl; [ | reflexivity].
  exfalso. apply Hno. apply lookupId_In in Hl. destruct Hl as [Hin Hid].
  apply in_map_iff. exists x. split; assumption.
Qed.

Lemma NoDup_map_snoc (B : Type) (f : A -> B) (l : list A) (d : A) :
  NoDup (map f l) -> ~ In (f d) (map f l) -> NoDup (map f (l ++ [d])).
Proof.
  intros Hnd Hfresh. rewrite map_app. cbn.
  apply (Permutation_NoDup (l := f d :: map f l)).
  - apply Permutation_cons_append.
  - constructor; assumption.
Qed.

Lemma deleteOne_NoDup (B : Type) (f : A -> B) (id : ObjectId) (l : list A) :
  NoDup (map f l) -> NoDup (map f (deleteOne idOf id l)).
Proof.
  induction l as [ | x l IH]; cbn; intro Hnd; [exact Hnd | ].
  inversion Hnd as [ | ? ? Hx Hl]; subst.
  destruct (hasId idOf id x); [exact Hl | ].
  cbn. constructor; [ | apply IH; exact Hl].
  intro Hin. apply Hx. apply in_map_iff in Hin. destruct Hin as [y [Hy Hin]].
  apply in_map_iff. exists y. split; [exact Hy | ].
  exact (deleteOne_In idOf id y l Hin).
Qed.

Lemma replaceDoc_absent (d : A) (l : list A) :
  ~ In (idOf d) (map idOf l) -> replaceDoc idOf d l = l.
Proof.
  induction l as [ | x l IH]; cbn; intro Hno; [reflexivity | ].
  unfold hasId at 1.
  destruct (String.eqb_spec (idOf x) (idOf d)) as [Heq | Hne].
  - exfalso. apply Hno. left. exact Heq.
  - f_equal. apply IH. intro Hin. apply Hno. right. exact Hin.
Qed.

(** With distinct identifiers, saving touches the one document that
    was looked up. *)
Lemma replaceDoc_split (d c : A) (l : list A) :
  NoDup (map idOf l) ->
  lookupId idOf (idOf d) l = Some c ->
  exists l1 l2, l = (l1 ++ c :: l2)%list /\ replaceDoc idOf d l = (l1 ++ d :: l2)%list.
Proof.
  induction l as [ | x l IH]; cbn; intros Hnd Hl; [discriminate | ].
  inversion Hnd as [ | ? ? Hx Hrest]; subst.
  destruct (hasId idOf (idOf d) x) eqn:Hid.
  - inversion Hl; subst. exists [], l. split; [reflexivity | ].
    cbn. f_equal. apply replaceDoc_absent.
    unfold hasId in Hid. apply String.eqb_eq in Hid. rewrite <- Hid. exact Hx.
  - destruct (IH Hrest Hl) as [l1 [l2 [Hsplit Hrep]]].
    exists (x :: l1), l2. split.
    + cbn. f_equal. exact Hsplit.
    + cbn. f_equal. exact Hrep.
Qed.

Lemma rename_NoDup (d c : A) (l1 l2 : list A) :
  NoDup (map nameOf (l1 ++ c :: l2)) ->
  nameOf d = nameOf c \/ ~ In (nameOf d) (map nameOf (l1 ++ c :: l2)) ->
  NoDup (map nameOf (l1 ++ d :: l2)).
Proof.
  rewrite !map_app. cbn [map]. intros Hnd [Hsame | Hfresh].
  - rewrite Hsame. exact Hnd.
  - apply NoDup_remove_1 in Hnd.
    apply (Permutation_NoDup (l := nameOf d :: (map nameOf l1 ++ map nameOf l2))).
    + apply Permutation_middle.
    + constructor; [ | exact Hnd].
      intro Hin. apply Hfresh. apply in_app_iff in Hin. apply in_app_iff.
      destruct Hin as [Hin | Hin]; [left; exact Hin | right; right; exact Hin].
Qed.

Lemma saved_names_distinct (d c : A) (l : list A) :
  NoDup (map idOf l) -> NoDup (map nameOf l) ->
  lookupId idOf (idOf d) l = Some c ->
  nameOf d = nameOf c \/ ~ In (nameOf d) (map nameOf l) ->
  NoDup (map nameOf (replaceDoc idOf d l)).
Proof.
  intros Hids Hnames Hl Hname.
  destruct (replaceDoc_split d l Hids Hl) as [l1 [l2 [Hsplit Hrep]]].
  rewrite Hrep. apply rename_NoDup with c; rewrite <- Hsplit; assumption.
Qed.

End NameFacts.

Lemma nameIsChanging_Some (submitted : option string) (current n : string) :
  nameIsChanging submitted current = Some n -> submitted = Some n /\ n <> current.
Proof.
  unfold nameIsChanging. destruct submitted as [name | ]; [ | discriminate].
  destruct (Str.truthy name); cbn; [ | discriminate].
  destruct (String.eqb_spec name current); cbn; [discriminate | ].
  intro Heq. inversion Heq; subst. split; [reflexivity | assumption].
Qed.

Lemma nameIsChanging_None (submitted : option string) (current : string) :
  nameIsChanging submitted current = None ->
  submitted <> Some "" -> orElse submitted current = current.
Proof.
  unfold nameIsChanging. destruct submitted as [name | ]; [ | reflexivity].
  destruct name as [ | ch rest]; [intros _ Hne; exfalso; apply Hne; reflexivity | ].
  cbn [Str.truthy andb].
  destruct (String.eqb_spec (String ch rest) current) as [Heq | Hne]; cbn; [ | discriminate].
  intros _ _. exact Heq.
Qed.

(* ===================================================================== *)
(** ** What the schemas accept *)
(* ===================================================================== *)

Ltac zod_rest :=
  repeat match goal with
         | |- context [Zod.andThen ?p _] => destruct p; cbn [Zod.andThen]; try discriminate
         end.

Section SchemaFacts.
Context `{Externals}.

Lemma updateCategorySchema_name (req : Req) (d : UpdateCategoryData) (n : string) :
  updateCategorySchema (body req) = inr d ->
  uc_name d = Some n ->
  exists s, bodyField req "name" = Some (JStr s) /\ n = Str.trim s.
Proof.
  unfold updateCategorySchema, bodyField, Zod.object.
  destruct (body req) as [[ | | | | | fields] | ]; cbn [Zod.andThen]; try discriminate.
  destruct (assoc "name" fields) as [[ | | | s | | ] | ];
    cbn [Zod.optional nameSchema Zod.string_ Zod.andThen]; try discriminate.
  - unfold Zod.min. destruct (String.length s <? 1)%nat;
      cbn [Zod.andThen Zod.ok]; try discriminate.
    zod_rest. intros Hd Hn. inversion Hd; subst. cbn in Hn. inversion Hn; subst.
    exists s. split; reflexivity.
  - zod_rest. intros Hd Hn. inversion Hd; subst. cbn in Hn. discriminate.
Qed.

Lemma updateProductSchema_name (req : Req) (d : UpdateProductData) (n : string) :
  updateProductSchema (body req) = inr d ->
  upd_name d = Some n ->
  exists s, bodyField req "name" = Some (JStr s) /\ n = Str.trim s.
Proof.
  unfold updateProductSchema, bodyField, Zod.object.
  destruct (body req) as [[ | | | | | fields] | ]; cbn [Zod.andThen]; try discriminate.
  destruct (assoc "name" fields) as [[ | | | s | | ] | ];
    cbn [Zod.optional nameSchema Zod.string_ Zod.andThen]; try discriminate.
  - unfold Zod.min. destruct (String.length s <? 1)%nat;
      cbn [Zod.andThen Zod.ok]; try discriminate.
    zod_rest. intros Hd Hn. inversion Hd; subst. cbn in Hn. inversion Hn; subst.
    exists s. split; reflexivity.
  - zod_rest. intros Hd Hn. inversion Hd; subst. cbn in Hn. discriminate.
Qed.

End SchemaFacts.

(* ===================================================================== *)
(** ** Distinct names *)
(* ===================================================================== *)

Ltac distinct_same :=
  match goal with
  | Hd : distinct ?s |- distinct ?s => exact Hd
  end.

Section DistinctNames.
Context `{Externals}.

Lemma createCategory_distinct (env : Env) (req : Req) (w : World) :
  distinct (store w) -> distinct (store (snd (createCategory env req w))).
Proof.
  intro Hd. unfold_controllers.
  apply (wp_tryCatch _ _ (fun _ w' => distinct (store w'))).
  wp_run; try distinct_same.
  destruct Hd as [[Hci Hpi] [Hcn Hpn]].
  repeat split; cbn [categories products setCategories]; try assumption.
  - apply NoDup_map_snoc; [assumption | ]. apply lookupId_None. assumption.
  - apply NoDup_map_snoc; [assumption | ]. cbn [c_name].
    apply find_name_None. assumption.
Qed.

Lemma createProduct_distinct (env : Env) (req : Req) (w : World) :
  distinct (store w) -> distinct (store (snd (createProduct env req w))).
Proof.
  intro Hd. unfold_controllers.
  apply (wp_tryCatch _ _ (fun _ w' => distinct (store w'))).
  wp_run; try distinct_same.
  all: destruct Hd as [[Hci Hpi] [Hcn Hpn]];
    repeat split; cbn [categories products setProducts]; try assumption;
    [ apply NoDup_map_snoc; [assumption | ]; apply lookupId_None; assumption
    | apply NoDup_map_snoc; [assumption | ]; cbn [p_name];
      apply find_name_None; assumption ].
Qed.

Lemma deleteCategory_distinct (env : Env) (req : Req) (w : World) :
  distinct (store w) -> distinct (store (snd (deleteCategory env req w))).
Proof.
  intro Hd. unfold_controllers.
  apply (wp_tryCatch _ _ (fun _ w' => distinct (store w'))).
  wp_run; try distinct_same.
  destruct Hd as [[Hci Hpi] [Hcn Hpn]].
  repeat split; cbn [categories products setCategories]; try assumption;
    apply deleteOne_NoDup; assumption.
Qed.

Lemma deleteProduct_distinct (env : Env) (req : Req) (w : World) :
  distinct (store w) -> distinct (store (snd (deleteProduct env req w))).
Proof.
  intro Hd. unfold_controllers.
  apply (wp_tryCatch _ _ (fun _ w' => distinct (store w'))).
  wp_run; try distinct_same.
  destruct Hd as [[Hci Hpi] [Hcn Hpn]].
  repeat split; cbn [categories products setProducts]; try assumption;
    apply deleteOne_NoDup; assumption.
Qed.

Lemma assignCategory_id (c : Category) (d : UpdateCategoryData) :
  c_id (assignCategory c d) = c_id c.
Proof. reflexivity. Qed.

Lemma assignProduct_id (p : Product) (d : UpdateProductData) :
  p_id (assignProduct p d) = p_id p.
Proof. reflexivity. Qed.

Lemma updateCategory_distinct (env : Env) (req : Req) (w : World) :
  nameNotBlank req ->
  distinct (store w) -> distinct (store (snd (updateCategory env req w))).
Proof.
  intros Hnb Hd. unfold_controllers.
  apply (wp_tryCatch _ _ (fun _ w' => distinct (store w'))).
  wp_run; try distinct_same.
  all: destruct Hd as [[Hci Hpi] [Hcn Hpn]];
    repeat split; cbn [categories products setCategories]; try assumption;
    [ rewrite replaceDoc_ids; assumption | ].
  all: match goal with
       | Hl : lookupId c_id (params_id _) _ = Some ?c |- _ =>
           destruct (lookupId_In _ _ _ Hl) as [_ Hid];
           apply saved_names_distinct with (c := c);
             [assumption | assumption
             | rewrite assignCategory_id, Hid; exact Hl | ]
       end.
  - (* the name changes, and no category holds the new one *)
    match goal with
    | Hc : nameIsChanging _ _ = Some _ |- _ =>
        apply nameIsChanging_Some in Hc; destruct Hc as [Hsub _]
    end.
    right. cbn [c_name assignCategory]. rewrite Hsub. cbn [orElse].
    apply find_name_None. assumption.
  - (* the name stays *)
    left. cbn [c_name assignCategory].
    apply nameIsChanging_None; [assumption | ].
    intro Hblank.
    match goal with
    | Hp : updateCategorySchema _ = inr _ |- _ =>
        destruct (updateCategorySchema_name _ Hp Hblank) as [raw [Hf Ht]]
    end.
    apply (Hnb raw Hf). symmetry. exact Ht.
Qed.

Lemma updateProduct_distinct (env : Env) (req : Req) (w : World) :
  nameNotBlank req ->
  distinct (store w) -> distinct (store (snd (updateProduct env req w))).
Proof.
  intros Hnb Hd. unfold_controllers.
  apply (wp_tryCatch _ _ (fun _ w' => distinct (store w'))).
  wp_run; try distinct_same.
  all: destruct Hd as [[Hci Hpi] [Hcn Hpn]];
    repeat split; cbn [categories products setProducts]; try assumption;
    [ rewrite replaceDoc_ids; assumption | ].
  all: match goal with
       | Hl : lookupId p_id (params_id _) _ = Some ?p |- _ =>
           destruct (lookupId_In _ _ _ Hl) as [_ Hid];
           apply saved_names_distinct with (c := p);
             [assumption | assumption
             | rewrite assignProduct_id, Hid; exact Hl | ]
       end.
  all: match goal with
       | Hc : nameIsChanging _ _ = Some _ |- _ =>
           apply nameIsChanging_Some in Hc; destruct Hc as [Hsub _];
           right; cbn [p_name assignProduct]; rewrite Hsub; cbn [orElse];
           apply find_name_None; assumption
       | Hc : nameIsChanging _ _ = None |- _ =>
           left; cbn [p_name assignProduct];
           apply nameIsChanging_None; [assumption | ];
           intro Hblank;
           match goal with
           | Hp : updateProductSchema _ = inr _ |- _ =>
               destruct (updateProductSchema_name _ Hp Hblank) as [raw [Hf Ht]]
           end;
           apply (Hnb raw Hf); symmetry; exact Ht
       end.
Qed.

Lemma updateOrderStatus_distinct (env : Env) (req : Req) (w : World) :
  distinct (store w) -> distinct (store (snd (updateOrderStatus env req w))).
Proof.
  intro Hd.
  destruct (updateOrderStatus_effect env req w) as [-> | [o [st [_ [_ [_ ->]]]]]];
    exact Hd.
Qed.

Lemma createCategory_name_taken (env : Env) (req : Req) (w : World)
    (d : CreateCategoryData) :
  createCategorySchema (body req) = inr d ->
  noFaults 1 w ->
  In (cc_name d) (map c_name (categories (store w))) ->
  fst (createCategory env req w) = nameTaken "Category"
  /\ store (snd (createCategory env req w)) = store w.
Proof.
  intros Hd Hq Hin. apply noFaults_next in Hq. destruct Hq as [F1 _].
  destruct (find_name_Some c_name _ _ Hin) as [held Hheld].
  unfold_controllers.
  apply (wp_tryCatch _ _ (fun r w' => r = nameTaken "Category" /\ store w' = store w)).
  wp_run; try congruence;
    try match goal with
        | Ha : createCategorySchema _ = inr ?a |- _ =>
            assert (a = d) by congruence; subst a
        end;
    try congruence.
  split; reflexivity.
Qed.

Lemma createCategory_inserts (env : Env) (req : Req) (w : World)
    (d : CreateCategoryData) :
  createCategorySchema (body req) = inr d ->
  noFaults 2 w ->
  ~ In (cc_name d) (map c_name (categories (store w))) ->
  ~ In (newObjectId env) (map c_id (categories (store w))) ->
  fst (createCategory env req w)
  = res_status_json 201 (succeed (PCategory (newCategory env d)))
  /\ store (snd (createCategory env req w))
     = setCategories (categories (store w) ++ [newCategory env d])%list (store w).
Proof.
  intros Hd Hq Hname Hid.
  apply noFaults_next in Hq. destruct Hq as [F1 Hq].
  apply noFaults_next in Hq. destruct Hq as [F2 _].
  pose proof (lookupId_absent c_id _ _ Hid) as Hfresh.
  unfold_controllers.
  apply (wp_tryCatch _ _
           (fun r w' =>
              r = res_status_json 201 (succeed (PCategory (newCategory env d)))
              /\ store w'
                 = setCategories (categories (store w) ++ [newCategory env d])%list
                     (store w))).
  wp_run; try congruence;
    try match goal with
        | Ha : createCategorySchema _ = inr ?a |- _ =>
            assert (a = d) by congruence; subst a
        end.
  - exfalso. apply Hname.
    match goal with
    | Hf : find _ _ = Some ?c |- _ =>
        apply find_some in Hf; destruct Hf as [Hin Heq];
        apply String.eqb_eq in Heq; rewrite <- Heq; apply in_map; exact Hin
    end.
  - exfalso. cbn [c_id store advance] in *. congruence.
  - split; reflexivity.
Qed.

Lemma updateCategory_name_taken (env : Env) (req : Req) (w : World)
    (d : UpdateCategoryData) (c : Category) (n : string) :
  updateCategorySchema (body req) = inr d ->
  noFaults 2 w ->
  lookupId c_id (params_id req) (categories (store w)) = Some c ->
  uc_name d = Some n -> n <> "" -> n <> c_name c ->
  In n (map c_name (categories (store w))) ->
  fst (updateCategory env req w) = nameTaken "Category"
  /\ store (snd (updateCategory env req w)) = store w.
Proof.
  intros Hd Hq Hc Hn Hne Hdiff Hin.
  apply noFaults_next in Hq. destruct Hq as [F1 Hq].
  apply noFaults_next in Hq. destruct Hq as [F2 _].
  destruct (find_name_Some c_name _ _ Hin) as [held Hheld].
  assert (Hchange : nameIsChanging (uc_name d) (c_name c) = Some n).
  { rewrite Hn. unfold nameIsChanging.
    destruct n as [ | ch rest]; [contradiction | ]. cbn [Str.truthy andb].
    destruct (String.eqb_spec (String ch rest) (c_name c)); [contradiction | reflexivity]. }
  unfold_controllers.
  apply (wp_tryCatch _ _ (fun r w' => r = nameTaken "Category" /\ store w' = store w)).
  wp_run; try congruence;
    try match goal with
        | Ha : updateCategorySchema _ = inr ?a |- _ =>
            assert (a = d) by congruence; subst a
        end;
    try match goal with
        | Hl : lookupId c_id (params_id _) _ = Some ?c' |- _ =>
            assert (c' = c) by congruence; subst c'
        end;
    cbn [store advance] in *; try congruence.
  all: try (split; reflexivity).
  all: exfalso;
    match goal with
    | Hch : nameIsChanging _ _ = Some ?s |- _ =>
        assert (s = n) by congruence; subst s; congruence
    end.
Qed.

(** Every controller keeps identifiers and names distinct, as long as an
    update does not submit a blank name. *)
Lemma run_distinct (c : Controller) (env : Env) (req : Req) (w : World) :
  (c = UpdateCategory \/ c = UpdateProduct -> nameNotBlank req) ->
  distinct (store w) -> distinct (store (snd (run c env req w))).
Proof.
  intros Hnb Hd.
  destruct (readsOnly c) eqn:Hr.
  - rewrite readsOnly_keeps_store by exact Hr. exact Hd.
  - destruct c; try discriminate Hr; cbn [run].
    + apply createCategory_distinct; exact Hd.
    + apply updateCategory_distinct; [apply Hnb; left; reflexivity | exact Hd].
    + apply deleteCategory_distinct; exact Hd.
    + apply createProduct_distinct; exact Hd.
    + apply updateProduct_distinct; [apply Hnb; right; reflexivity | exact Hd].
    + apply deleteProduct_distinct; exact Hd.
    + apply updateOrderStatus_distinct; exact Hd.
Qed.

End DistinctNames.

(* ===================================================================== *)
(** ** References from products to categories *)
(* ===================================================================== *)

Lemma isHex24_truthy (s : string) : Str.isHex24 s = true -> Str.truthy s = true.
Proof. destruct s; [discriminate | reflexivity]. Qed.

Lemma replaceDoc_has_id (A : Type) (idOf : A -> ObjectId) (d x : A) (l : list A) :
  In x l -> exists y, In y (replaceDoc idOf d l) /\ idOf y = idOf x.
Proof.
  intro Hin. unfold replaceDoc.
  destruct (hasId idOf (idOf d) x) eqn:Hid.
  - exists d. split.
    + apply in_map_iff. exists x. rewrite Hid. split; [reflexivity | exact Hin].
    + unfold hasId in Hid. apply String.eqb_eq in Hid. symmetry. exact Hid.
  - exists x. split; [ | reflexivity].
    apply in_map_iff. exists x. rewrite Hid. split; [reflexivity | exact Hin].
Qed.

Section References.
Context `{Externals}.

Lemma updateProductSchema_categoryId (req : Req) (d : UpdateProductData) (cid : string) :
  updateProductSchema (body req) = inr d ->
  upd_categoryId d = Some cid ->
  whenTruthy (upd_categoryId d) = Some cid.
Proof.
  unfold updateProductSchema, Zod.object.
  destruct (body req) as [[ | | | | | fields] | ]; cbn [Zod.andThen]; try discriminate.
  destruct (Zod.optional nameSchema (assoc "name" fields)); cbn [Zod.andThen];
    try discriminate.
  destruct (assoc "categoryId" fields) as [[ | | | s | | ] | ];
    cbn [Zod.optional categoryIdSchema Zod.string_ Zod.andThen]; try discriminate.
  - unfold Zod.regexHex24. destruct (Str.isHex24 s) eqn:Hhex;
      cbn [Zod.andThen]; try discriminate.
    zod_rest. intros Hd Hc. inversion Hd; subst. cbn in Hc |- *. inversion Hc; subst.
    rewrite (isHex24_truthy _ Hhex). reflexivity.
  - zod_rest. intros Hd Hc. inversion Hd; subst. cbn in Hc. discriminate.
Qed.

Lemma createCategory_refs (env : Env) (req : Req) (w : World) :
  refsResolve (store w) -> refsResolve (store (snd (createCategory env req w))).
Proof.
  intro Hr. unfold_controllers.
  apply (wp_tryCatch _ _ (fun _ w' => refsResolve (store w'))).
  wp_run; try exact Hr.
  intros p Hp. cbn [categories products setCategories] in *.
  destruct (Hr p Hp) as [held [Hheld Hid]].
  exists held. split; [apply in_or_app; left; exact Hheld | exact Hid].
Qed.

Lemma updateCategory_refs (env : Env) (req : Req) (w : World) :
  refsResolve (store w) -> refsResolve (store (snd (updateCategory env req w))).
Proof.
  intro Hr. unfold_controllers.
  apply (wp_tryCatch _ _ (fun _ w' => refsResolve (store w'))).
  wp_run; try exact Hr.
  all: intros p Hp; cbn [categories products setCategories] in *;
    destruct (Hr p Hp) as [held [Hheld Hid]];
    match goal with
    | |- exists _, In _ (replaceDoc _ ?d _) /\ _ =>
        destruct (replaceDoc_has_id c_id d held _ Hheld) as [y [Hy Hyid]]
    end;
    exists y; split; [exact Hy | congruence].
Qed.

(** Deleting a category keeps the references only when no product refers
    to it. *)
Lemma deleteCategory_refs (env : Env) (req : Req) (w : World) :
  (forall p, In p (products (store w)) -> p_categoryId p <> params_id req) ->
  refsResolve (store w) -> refsResolve (store (snd (deleteCategory env req w))).
Proof.
  intros Hfree Hr. unfold_controllers.
  apply (wp_tryCatch _ _ (fun _ w' => refsResolve (store w'))).
  wp_run; try exact Hr.
  intros p Hp. cbn [categories products setCategories] in *.
  destruct (Hr p Hp) as [held [Hheld Hid]].
  exists held. split; [ | exact Hid].
  apply deleteOne_keeps; [exact Hheld | ]. rewrite Hid. exact (Hfree p Hp).
Qed.

Lemma createProduct_refs (env : Env) (req : Req) (w : World) :
  refsResolve (store w) -> refsResolve (store (snd (createProduct env req w))).
Proof.
  intro Hr. unfold_controllers.
  apply (wp_tryCatch _ _ (fun _ w' => refsResolve (store w'))).
  wp_run; try exact Hr.
  all: intros q Hq; cbn [categories products setProducts] in *;
    apply in_app_or in Hq; destruct Hq as [Hq | [<- | []]]; [exact (Hr q Hq) | ];
    match goal with
    | Hl : lookupId c_id _ _ = Some ?c |- _ =>
        apply lookupId_In in Hl; destruct Hl as [Hc Hid]; exists c; split; assumption
    end.
Qed.

Lemma updateProduct_refs (env : Env) (req : Req) (w : World) :
  refsResolve (store w) -> refsResolve (store (snd (updateProduct env req w))).
Proof.
  intro Hr. unfold_controllers.
  apply (wp_tryCatch _ _ (fun _ w' => refsResolve (store w'))).
  wp_run; try exact Hr.
  all: intros q Hq; cbn [categories products setProducts] in *;
    apply replaceDoc_In in Hq; destruct Hq as [-> | Hq]; [ | exact (Hr q Hq)];
    cbn [p_categoryId assignProduct].
  all: match goal with
       | Hp : lookupId p_id (params_id _) _ = Some ?p |- _ =>
           destruct (lookupId_In _ _ _ Hp) as [Hin _]
       end.
  all: match goal with
       | Hs : updateProductSchema _ = inr ?a |- _ =>
           pose proof (fun cid Hc => updateProductSchema_categoryId (cid := cid) _ Hs Hc)
             as Hcat;
           destruct (upd_categoryId a) as [cid | ] eqn:Hcid;
           [ specialize (Hcat cid eq_refl) | cbn [orElse]; apply Hr; assumption ]
       end.
  all: cbn [orElse]; rewrite Hcat in *;
    match goal with
    | Ht : Some _ = Some _ |- _ => inversion Ht; subst
    | Ht : Some _ = None |- _ => discriminate Ht
    end.
  all: match goal with
       | Hm : match lookupId c_id ?s ?l with _ => _ end = false |- _ =>
           destruct (lookupId c_id s l) as [held | ] eqn:Hl; [ | discriminate Hm];
           apply lookupId_In in Hl; destruct Hl as [Hheld Hid]; exists held; split; assumption
       end.
Qed.

Lemma deleteProduct_refs (env : Env) (req : Req) (w : World) :
  refsResolve (store w) -> refsResolve (store (snd (deleteProduct env req w))).
Proof.
  intro Hr. unfold_controllers.
  apply (wp_tryCatch _ _ (fun _ w' => refsResolve (store w'))).
  wp_run; try exact Hr.
  intros q Hq. cbn [categories products setProducts] in *.
  apply deleteOne_In in Hq. exact (Hr q Hq).
Qed.

Lemma updateOrderStatus_refs (env : Env) (req : Req) (w : World) :
  refsResolve (store w) -> refsResolve (store (snd (updateOrderStatus env req w))).
Proof.
  intro Hr.
  destruct (updateOrderStatus_effect env req w) as [-> | [o [st [_ [_ [_ ->]]]]]];
    exact Hr.
Qed.

Lemma createProduct_missing_category (env : Env) (req : Req) (w : World)
    (d : CreateProductData) :
  createProductSchema (body req) = inr d ->
  lookupId c_id (cp_categoryId d) (categories (store w)) = None ->
  noFaults 1 w ->
  fst (createProduct env req w) = categoryNotFound
  /\ store (snd (createProduct env req w)) = store w.
Proof.
  intros Hd Hnone Hq. apply noFaults_next in Hq. destruct Hq as [F1 _].
  unfold_controllers.
  apply (wp_tryCatch _ _ (fun r w' => r = categoryNotFound /\ store w' = store w)).
  wp_run; try congruence.
  split; reflexivity.
Qed.

Lemma updateProduct_missing_category (env : Env) (req : Req) (w : World)
    (d : UpdateProductData) (p : Product) (cid : string) :
  updateProductSchema (body req) = inr d ->
  lookupId p_id (params_id req) (products (store w)) = Some p ->
  upd_categoryId d = Some cid ->
  lookupId c_id cid (categories (store w)) = None ->
  noFaults 2 w ->
  fst (updateProduct env req w) = categoryNotFound
  /\ store (snd (updateProduct env req w)) = store w.
Proof.
  intros Hd Hp Hcid Hnone Hq.
  apply noFaults_next in Hq. destruct Hq as [F1 Hq].
  apply noFaults_next in Hq. destruct Hq as [F2 _].
  pose proof (updateProductSchema_categoryId _ Hd Hcid) as Hcat.
  unfold_controllers.
  apply (wp_tryCatch _ _ (fun r w' => r = categoryNotFound /\ store w' = store w)).
  wp_run; try congruence;
    try match goal with
        | Ha : updateProductSchema _ = inr ?a |- _ =>
            assert (a = d) by congruence; subst a
        end;
    try match goal with
        | Ht : whenTruthy (upd_categoryId d) = Some ?s |- _ =>
            assert (s = cid) by congruence; subst s
        end;
    try match goal with
        | Hm : match lookupId c_id cid _ with _ => _ end = false |- _ =>
            rewrite Hnone in Hm; discriminate Hm
        end.
  all: split; reflexivity.
Qed.

Lemma run_refs (c : Controller) (env : Env) (req : Req) (w : World) :
  (c = DeleteCategory ->
   forall p, In p (products (store w)) -> p_categoryId p <> params_id req) ->
  refsResolve (store w) -> refsResolve (store (snd (run c env req w))).
Proof.
  intros Hfree Hr.
  destruct (readsOnly c) eqn:Hro.
  - rewrite readsOnly_keeps_store by exact Hro. exact Hr.
  - destruct c; try discriminate Hro; cbn [run].
    + apply createCategory_refs; exact Hr.
    + apply updateCategory_refs; exact Hr.
    + apply deleteCategory_refs; [apply Hfree; reflexivity | exact Hr].
    + apply createProduct_refs; exact Hr.
    + apply updateProduct_refs; exact Hr.
    + apply deleteProduct_refs; exact Hr.
    + apply updateOrderStatus_refs; exact Hr.
Qed.

End References.

(* ===================================================================== *)
(** ** The answers of a login *)
(* ===================================================================== *)

Section Login.
Context `{Externals}.

Lemma whenTruthy_Some (o : option string) (s : string) :
  whenTruthy o = Some s <-> o = Some s /\ s <> "".
Proof.
  unfold whenTruthy. destruct o as [[ | c rest] | ]; cbn; split.
  - discriminate.
  - intros [Heq Hne]. inversion Heq; subst. contradiction.
  - intro Heq. inversion Heq; subst. split; [reflexivity | discriminate].
  - intros [Heq _]. exact Heq.
  - discriminate.
  - intros [Heq _]. discriminate.
Qed.

Lemma adminLogin_answer (env : Env) (req : Req) (w : World) (email password : string) :
  adminLoginSchema (body req) = inr (email, password) ->
  noFaults 1 w ->
  fst (adminLogin env req w) = loginAnswer env (userByEmail (store w) email) password.
Proof.
  intros Hs Hq. apply noFaults_next in Hq. destruct Hq as [F1 _].
  unfold_controllers.
  apply (wp_tryCatch _ _
           (fun r _ => r = loginAnswer env (userByEmail (store w) email) password)).
  wp_run; try congruence.
  all: match goal with
       | Ha : adminLoginSchema _ = inr ?a |- _ =>
           assert (a = (email, password)) by congruence; subst a
       end;
    cbn [fst snd] in *; unfold loginAnswer, userByEmail;
    repeat match goal with
           | Heq : ?x = _ |- context [?x] => rewrite Heq
           end;
    reflexivity.
Qed.

(** Tokens are only ever issued to a user that was found under the
    submitted email, has a password hash that the submitted password
    matches and the role [admin], with the secret configured. *)
Lemma adminLogin_tokens (env : Env) (req : Req) (w : World)
    (accessToken refreshToken : string) :
  tokensOf (fst (adminLogin env req w)) = Some (accessToken, refreshToken) ->
  exists email password u hash secret,
    adminLoginSchema (body req) = inr (email, password)
    /\ userByEmail (store w) email = Some u
    /\ u_passwordHash u = Some hash
    /\ u_role u = "admin"
    /\ bcryptCompare password hash = true
    /\ jwtSecret env = Some secret
    /\ accessToken = jwtSign (u_id u) secret "1d"
    /\ refreshToken = jwtSign (u_id u) secret "30d"
    /\ status (fst (adminLogin env req w)) = 200.
Proof.
  unfold_controllers.
  apply (wp_tryCatch _ _
           (fun r _ =>
              tokensOf r = Some (accessToken, refreshToken) ->
              exists email password u hash secret,
                adminLoginSchema (body req) = inr (email, password)
                /\ userByEmail (store w) email = Some u
                /\ u_passwordHash u = Some hash
                /\ u_role u = "admin"
                /\ bcryptCompare password hash = true
                /\ jwtSecret env = Some secret
                /\ accessToken = jwtSign (u_id u) secret "1d"
                /\ refreshToken = jwtSign (u_id u) secret "30d"
                /\ status r = 200)).
  wp_run; try (cbn; discriminate).
  cbn [tokensOf data payload res_json succeed fst snd]. intro Ht. inversion Ht; subst.
  match goal with
  | Ha : adminLoginSchema _ = inr ?a,
    Hu : find _ _ = Some ?u,
    Hh : whenTruthy _ = Some ?h,
    Hr : negb (String.eqb _ "admin") = false,
    Hc : negb (bcryptCompare _ _) = false,
    Hj : jwtSecret _ = Some ?secret |- _ =>
      exists (fst a), (snd a), u, h, secret;
      apply whenTruthy_Some in Hh; destruct Hh as [Hh _];
      apply negb_false_iff in Hr; apply String.eqb_eq in Hr;
      apply negb_false_iff in Hc;
      destruct a; repeat split; assumption || reflexivity
  end.
Qed.

Lemma loginAnswer_tokens (env : Env) (found : option User) (password : string) :
  tokensOf (loginAnswer env found password) <> None
  <-> jwtSecret env <> None
      /\ exists u hash,
           found = Some u
           /\ u_passwordHash u = Some hash /\ hash <> ""
           /\ u_role u = "admin"
           /\ bcryptCompare password hash = true.
Proof.
  split.
  - unfold loginAnswer.
    destruct found as [u | ]; [ | intro Ht; exfalso; apply Ht; reflexivity].
    destruct (whenTruthy (u_passwordHash u)) as [hash | ] eqn:Hh;
      [ | intro Ht; exfalso; apply Ht; reflexivity].
    destruct (String.eqb_spec (u_role u) "admin") as [Hr | Hr]; cbn [negb];
      [ | intro Ht; exfalso; apply Ht; reflexivity].
    destruct (bcryptCompare password hash) eqn:Hc; cbn [negb];
      [ | intro Ht; exfalso; apply Ht; reflexivity].
    destruct (jwtSecret env) as [secret | ];
      [ | intro Ht; exfalso; apply Ht; reflexivity].
    intros _. split; [discriminate | ].
    apply whenTruthy_Some in Hh. destruct Hh as [Hh Hne].
    exists u, hash. repeat split; assumption.
  - intros [Hsec [u [hash [Hu [Hh [Hne [Hr Hc]]]]]]]. subst found.
    assert (Htp : whenTruthy (u_passwordHash u) = Some hash)
      by (apply whenTruthy_Some; split; assumption).
    unfold loginAnswer. rewrite Htp, Hr, Hc. cbn [String.eqb negb].
    change (String.eqb "admin" "admin") with true. cbn [negb].
    destruct (jwtSecret env) as [secret | ]; [cbn; discriminate | contradiction].
Qed.

End Login.

(* ===================================================================== *)
(** ** Routes and dispatch *)
(* ===================================================================== *)

Lemma routes_guarded :
  Forall guardedOrLogin authRouter
  /\ Forall (fun r => exists c, guardedBy r c /\ c <> AdminLogin) productsRouter
  /\ Forall (fun r => exists c, guardedBy r c /\ c <> AdminLogin) categoriesRouter
  /\ Forall (fun r => exists c, guardedBy r c /\ c <> AdminLogin) ordersRouter.
Proof.
  unfold authRouter, productsRouter, categoriesRouter, ordersRouter.
  repeat split;
    repeat (constructor;
            [ first [ right; reflexivity
                    | left; eexists; split; [reflexivity | discriminate]
                    | eexists; split; [reflexivity | discriminate] ] | ]);
    constructor.
Qed.

Lemma routers_guarded (routes : list Route) :
  In routes routers -> Forall guardedOrLogin routes.
Proof.
  destruct routes_guarded as [Ha [Hp [Hc Ho]]].
  unfold routers. cbn [In].
  intros [<- | [<- | [<- | [<- | []]]]]; [exact Ha | | | ];
    (eapply Forall_impl; [ | eassumption]); intros r Hr; left; exact Hr.
Qed.

Section DispatchFacts.
Context `{Externals}.
Variables authenticateTokenMw requireAdminMw : Middleware.

(** A guarded stack reaches its controller only through both
    middlewares, each calling [next()]; it never passes the request on. *)
Lemma runStack_guarded (c : Controller) (env : Env) (req : Req) (w : World) :
  match runStack authenticateTokenMw requireAdminMw [authenticateToken; requireAdmin; controller c] env req w with
  | (ByController c' r, w') =>
      c' = c
      /\ exists req1 req2 w1 w2,
           authenticateTokenMw env req w = (inl req1, w1)
           /\ requireAdminMw env req1 w1 = (inl req2, w2)
           /\ run c env req2 w2 = (r, w')
  | (ByMiddleware h r, w') => h = authenticateToken \/ h = requireAdmin
  | (ByRouter _, _) => False
  | (PassedOn _, _) => False
  end.
Proof.
  cbn [runStack].
  destruct (authenticateTokenMw env req w) as [[req1 | r1] w1] eqn:Hauth; [ | left; reflexivity].
  destruct (requireAdminMw env req1 w1) as [[req2 | r2] w2] eqn:Hadmin; [ | right; reflexivity].
  destruct (run c env req2 w2) as [r w'] eqn:Hrun.
  split; [reflexivity | ].
  exists req1, req2, w1, w2. repeat split; assumption.
Qed.

(** What [dispatch] adds to [tryRoutes] is the answer of the router to
    [OPTIONS]. *)
Lemma dispatch_tryRoutes (routes : list Route) (method : Method) (path : string)
    (env : Env) (req : Req) (w : World) :
  method <> OPTIONS ->
  dispatch authenticateTokenMw requireAdminMw routes method path env req w
  = tryRoutes authenticateTokenMw requireAdminMw routes method path env req w.
Proof.
  intro Hm. unfold dispatch.
  destruct (tryRoutes authenticateTokenMw requireAdminMw routes method path env req w)
    as [[c r | h r | allow | req'] w']; try reflexivity.
  destruct method; try reflexivity. contradiction Hm. reflexivity.
Qed.

Lemma dispatch_by_controller (routes : list Route) (method : Method) (path : string)
    (env : Env) (req : Req) (w : World) (c : Controller) (r : Response) (w' : World) :
  dispatch authenticateTokenMw requireAdminMw routes method path env req w
  = (ByController c r, w') ->
  tryRoutes authenticateTokenMw requireAdminMw routes method path env req w
  = (ByController c r, w').
Proof.
  unfold dispatch.
  destruct (tryRoutes authenticateTokenMw requireAdminMw routes method path env req w)
    as [[c1 r1 | h r1 | allow | req'] w1]; try (intro Heq; exact Heq).
  destruct method; try discriminate.
  destruct (allowed routes path); discriminate.
Qed.

Lemma dispatch_guarded (routes : list Route) (method : Method) (path : string)
    (env : Env) (req : Req) (w : World) (c : Controller) (r : Response) (w' : World) :
  Forall guardedOrLogin routes ->
  dispatch authenticateTokenMw requireAdminMw routes method path env req w = (ByController c r, w') ->
  (c = AdminLogin /\ In (mkRoute POST "/login" [controller AdminLogin]) routes
   /\ method = POST)
  \/ (c <> AdminLogin
      /\ exists route params req1 req2 w1 w2,
           In route routes
           /\ matchRoute route method path = Some params
           /\ guardedBy route c
           /\ authenticateTokenMw env (withParams req params) w = (inl req1, w1)
           /\ requireAdminMw env req1 w1 = (inl req2, w2)
           /\ run c env req2 w2 = (r, w')).
Proof.
  intros Hall Hd. apply dispatch_by_controller in Hd. revert env req w Hd.
  induction Hall as [ | route rest Hroute Hrest IH]; intros env req w; cbn [tryRoutes].
  - discriminate.
  - destruct (matchRoute route method path) as [params | ] eqn:Hmatch.
    + destruct Hroute as [[c0 [Hguard Hne]] | Hlogin].
      * rewrite Hguard.
        pose proof (runStack_guarded c0 env (withParams req params) w) as Hstack.
        destruct (runStack authenticateTokenMw requireAdminMw [authenticateToken; requireAdmin; controller c0] env
                    (withParams req params) w) as [[c1 r1 | h r1 | allow | req'] w1];
          [ | discriminate | contradiction | contradiction].
        intro Heq. inversion Heq; subst.
        destruct Hstack as [-> [req1 [req2 [v1 [v2 [Ha [Hb Hc]]]]]]].
        right. split; [exact Hne | ].
        exists route, params, req1, req2, v1, v2.
        repeat split; try assumption. left. reflexivity.
      * unfold isLoginRoute in Hlogin. subst route. cbn [r_stack runStack].
        destruct (run AdminLogin env (withParams req params) w) as [r1 w1].
        intro Heq. inversion Heq; subst.
        left. repeat split; [left; reflexivity | ].
        unfold matchRoute in Hmatch. cbn [r_method] in Hmatch.
        destruct method; cbn in Hmatch; try discriminate. reflexivity.
    + intro Heq. destruct (IH env req w Heq) as [[Hc [Hin Hm]] | [Hne Hex]].
      * left. repeat split; [exact Hc | right; exact Hin | exact Hm].
      * right. split; [exact Hne | ].
        destruct Hex as [route0 [params [req1 [req2 [v1 [v2 [Hin Hrest']]]]]]].
        exists route0, params, req1, req2, v1, v2.
        split; [right; exact Hin | exact Hrest'].
Qed.

End DispatchFacts.

(* ===================================================================== *)
(** ** The category list *)
(* ===================================================================== *)

Lemma getCategories_keeps_store (env : Env) (req : Req) (w : World) :
  store (snd (getCategories env req w)) = store w.
Proof.
  unfold_controllers.
  apply (wp_tryCatch _ _ (fun _ w' => store w' = store w)).
  wp_run; reflexivity.
Qed.

Lemma getCategories_sorted (env : Env) (req : Req) (w : World) :
  noFaults 1 w ->
  fst (getCategories env req w)
  = res_json (succeed (PCategories (sortBy categoryLe (categories (store w))))).
Proof.
  intro Hq. apply noFaults_next in Hq. destruct Hq as [F1 _].
  unfold_controllers.
  apply (wp_tryCatch _ _
           (fun r _ => r = res_json (succeed (PCategories
                                                (sortBy categoryLe (categories (store w))))))).
  wp_run; [congruence | reflexivity].
Qed.


Section ExactRevenue.
Context `{Externals}.


End ExactRevenue.

(* ===================================================================== *)
(** ** The claims of the specification *)
(* ===================================================================== *)

(** The name schema checks the length before it trims: the empty name is
    refused, a name of one space is accepted and becomes the empty name. *)
Example empty_name_is_refused :
  nameSchema (Some (JStr "")) = inl (Msg "Name is required").
Proof. reflexivity. Qed.

Example blank_name_is_accepted :
  nameSchema (Some (JStr " ")) = inr "".
Proof. reflexivity. Qed.

(** C1 (the code at the input where the claim breaks).  From the empty
    store, two categories are created through [createCategory], the first
    under a name of one space, which the schema accepts and trims to the
    empty name.  Identifiers and names are then pairwise different.
    Renaming the second category to one space is answered 200, and both
    categories now hold the empty name: [data.name] is falsy, so the
    look-up for a category of that name is skipped, while
    [Object.assign] still writes it.  [updateProduct] behaves the same. *)
Theorem C1_blank_rename_duplicates_name :
  distinct (store Scenario.afterSecondCreate)
  /\ status (fst Scenario.blankRename) = 200
  /\ map c_name (categories (store (snd Scenario.blankRename))) = [""; ""]
  /\ ~ namesDistinct (store (snd Scenario.blankRename))
  /\ distinct (store Scenario.afterSecondProduct)
  /\ status (fst Scenario.blankProductRename) = 200
  /\ map p_name (products (store (snd Scenario.blankProductRename))) = [""; ""]
  /\ ~ namesDistinct (store (snd Scenario.blankProductRename)).
Proof.
  repeat split.
  - vm_compute. repeat constructor; cbn; intuition (try discriminate).
  - vm_compute. repeat constructor; cbn; intuition (try discriminate).
  - vm_compute. repeat constructor; cbn; intuition (try discriminate).
  - vm_compute. repeat constructor; cbn; intuition (try discriminate).
  - intros [Hc _]. vm_compute in Hc. inversion Hc as [ | x l Hx _]; subst.
    apply Hx. left. reflexivity.
  - vm_compute. repeat constructor; cbn; intuition (try discriminate).
  - vm_compute. repeat constructor; cbn; intuition (try discriminate).
  - vm_compute. repeat constructor; cbn; intuition (try discriminate).
  - vm_compute. repeat constructor; cbn; intuition (try discriminate).
  - intros [_ Hp]. vm_compute in Hp. inversion Hp as [ | x l Hx _]; subst.
    apply Hx. left. reflexivity.
Qed.

(** X1 (what holds of C1).  As long as an update does not submit a name
    that is blank after trimming, every controller keeps the names of the
    categories pairwise different, and those of the products, in a store
    whose identifiers are pairwise different; the identifiers stay
    pairwise different as well. *)
Theorem X1_names_stay_distinct_unless_blank :
  forall (E : Externals) (c : Controller) (env : Env) (req : Req) (w : World),
    (c = UpdateCategory \/ c = UpdateProduct -> nameNotBlank req) ->
    idsDistinct (store w) /\ namesDistinct (store w) ->
    idsDistinct (store (snd (run c env req w)))
    /\ namesDistinct (store (snd (run c env req w))).
Proof.
  intros E c env req w Hnb Hd. exact (@run_distinct E c env req w Hnb Hd).
Qed.

(** X2 (the look-ups of C1 that work).  With a body that passes
    validation and store calls that do not throw: [createCategory] answers
    400 'Category with this name already exists' and writes nothing when a
    stored category has the trimmed name, and otherwise appends the new
    category and answers 201; [updateCategory] answers the same 400 and
    writes nothing when the trimmed name is not empty, differs from the
    category's own and is held by a stored category. *)
Theorem X2_category_names_are_looked_up :
  forall (E : Externals) (env : Env) (req : Req) (w : World),
    (forall d,
        createCategorySchema (body req) = inr d ->
        noFaults 1 w ->
        In (cc_name d) (map c_name (categories (store w))) ->
        fst (createCategory env req w) = nameTaken "Category"
        /\ store (snd (createCategory env req w)) = store w)
    /\ (forall d,
           createCategorySchema (body req) = inr d ->
           noFaults 2 w ->
           ~ In (cc_name d) (map c_name (categories (store w))) ->
           ~ In (newObjectId env) (map c_id (categories (store w))) ->
           fst (createCategory env req w)
           = res_status_json 201 (succeed (PCategory (newCategory env d)))
           /\ store (snd (createCategory env req w))
              = setCategories (categories (store w) ++ [newCategory env d])%list (store w))
    /\ (forall d c n,
           updateCategorySchema (body req) = inr d ->
           noFaults 2 w ->
           lookupId c_id (params_id req) (categories (store w)) = Some c ->
           uc_name d = Some n -> n <> "" -> n <> c_name c ->
           In n (map c_name (categories (store w))) ->
           fst (updateCategory env req w) = nameTaken "Category"
           /\ store (snd (updateCategory env req w)) = store w).
Proof.
  intros E env req w. split; [ | split].
  - intro d. apply createCategory_name_taken.
  - intro d. apply createCategory_inserts.
  - intros d c n. apply updateCategory_name_taken.
Qed.

(** C2.  [updateOrderStatus] only ever writes a status of the enum: a body
    whose [status] is not one of the six values is answered 400 and the
    store is left as it was; when the store changes, the change is that
    the order with the requested id took the submitted status, which is
    one of the six; and a store whose orders all have a status of the
    enum stays so. *)
Theorem C2_order_status_stays_in_enum :
  forall (env : Env) (req : Req) (w : World),
    ((forall st, bodyField req "status" = Some (JStr st) -> ~ In st orderStatuses) ->
     status (fst (updateOrderStatus env req w)) = 400
     /\ store (snd (updateOrderStatus env req w)) = store w)
    /\ (store (snd (updateOrderStatus env req w)) = store w
        \/ exists o st,
             lookupId o_id (params_id req) (orders (store w)) = Some o
             /\ bodyField req "status" = Some (JStr st)
             /\ In st orderStatuses
             /\ store (snd (updateOrderStatus env req w))
                = setOrders (replaceDoc o_id (setStatus o st) (orders (store w)))
                    (store w))
    /\ (statusesInEnum (store w) ->
        statusesInEnum (store (snd (updateOrderStatus env req w)))).
Proof.
  intros env req w. split; [ | split].
  - apply updateOrderStatus_rejects.
  - apply updateOrderStatus_effect.
  - apply updateOrderStatus_keeps_enum.
Qed.

(** C3 (amended).  With a body that passes validation and store calls
    that do not throw, [createProduct] answers 400 'Category not found'
    and writes nothing when the [categoryId] names no stored category, and
    so does [updateProduct] of a stored product.  Every controller other
    than [deleteCategory] keeps every product's [categoryId] referring to
    a stored category; [deleteCategory] keeps it when no stored product
    refers to the category it deletes. *)
Theorem C3_references_kept_unless_category_deleted :
  forall (E : Externals) (env : Env) (req : Req) (w : World),
    (forall d,
        createProductSchema (body req) = inr d ->
        lookupId c_id (cp_categoryId d) (categories (store w)) = None ->
        noFaults 1 w ->
        fst (createProduct env req w) = categoryNotFound
        /\ store (snd (createProduct env req w)) = store w)
    /\ (forall d p cid,
           updateProductSchema (body req) = inr d ->
           lookupId p_id (params_id req) (products (store w)) = Some p ->
           upd_categoryId d = Some cid ->
           lookupId c_id cid (categories (store w)) = None ->
           noFaults 2 w ->
           fst (updateProduct env req w) = categoryNotFound
           /\ store (snd (updateProduct env req w)) = store w)
    /\ (forall c,
           (c = DeleteCategory ->
            forall p, In p (products (store w)) -> p_categoryId p <> params_id req) ->
           refsResolve (store w) ->
           refsResolve (store (snd (run c env req w)))).
Proof.
  intros E env req w. split; [ | split].
  - intros d. apply createProduct_missing_category.
  - intros d p cid. apply updateProduct_missing_category.
  - intros c. apply run_refs.
Qed.

(** C4 (amended).  Tokens are issued only to the first user stored under
    the submitted email, when that user has a password hash the submitted
    password matches and the role [admin] and [JWT_SECRET] is set; both
    tokens are then signed with [JWT_SECRET] over the user's id and the
    status is 200.  With a valid body and a look-up that does not throw,
    that is also sufficient, and otherwise: no user or no hash is answered
    401 'Invalid credentials', then a role other than [admin] 403 'Admin
    access required', then a password that does not match 401, then a
    missing [JWT_SECRET] 400 'Login failed'.  Logging in writes
    nothing. *)
Theorem C4_tokens_need_valid_credentials_and_secret :
  forall (E : Externals) (env : Env) (req : Req) (w : World),
    (forall accessToken refreshToken,
        tokensOf (fst (adminLogin env req w)) = Some (accessToken, refreshToken) ->
        exists email password u hash secret,
          adminLoginSchema (body req) = inr (email, password)
          /\ userByEmail (store w) email = Some u
          /\ validCredentials (store w) email password
          /\ u_passwordHash u = Some hash
          /\ u_role u = "admin"
          /\ bcryptCompare password hash = true
          /\ jwtSecret env = Some secret
          /\ accessToken = jwtSign (u_id u) secret "1d"
          /\ refreshToken = jwtSign (u_id u) secret "30d"
          /\ status (fst (adminLogin env req w)) = 200)
    /\ (forall email password,
           adminLoginSchema (body req) = inr (email, password) ->
           noFaults 1 w ->
           (tokensOf (fst (adminLogin env req w)) <> None
            <-> jwtSecret env <> None
                /\ exists u hash,
                     userByEmail (store w) email = Some u
                     /\ u_passwordHash u = Some hash /\ hash <> ""
                     /\ u_role u = "admin"
                     /\ bcryptCompare password hash = true)
           /\ (userByEmail (store w) email = None ->
               fst (adminLogin env req w) = invalidCredentials)
           /\ (forall u,
                  userByEmail (store w) email = Some u ->
                  whenTruthy (u_passwordHash u) = None ->
                  fst (adminLogin env req w) = invalidCredentials)
           /\ (forall u hash,
                  userByEmail (store w) email = Some u ->
                  whenTruthy (u_passwordHash u) = Some hash ->
                  u_role u <> "admin" ->
                  fst (adminLogin env req w) = adminRequired)
           /\ (forall u hash,
                  userByEmail (store w) email = Some u ->
                  whenTruthy (u_passwordHash u) = Some hash ->
                  u_role u = "admin" ->
                  bcryptCompare password hash = false ->
                  fst (adminLogin env req w) = invalidCredentials)
           /\ (forall u hash,
                  userByEmail (store w) email = Some u ->
                  whenTruthy (u_passwordHash u) = Some hash ->
                  u_role u = "admin" ->
                  bcryptCompare password hash = true ->
                  jwtSecret env = None ->
                  fst (adminLogin env req w) = loginFailed))
    /\ store (snd (adminLogin env req w)) = store w.
Proof.
  intros E env req w. split; [ | split].
  - intros accessToken refreshToken Ht.
    destruct (@adminLogin_tokens E env req w accessToken refreshToken Ht)
      as [email [password [u [hash [secret [Hs [Hu [Hh [Hr [Hc [Hj [Ha [Hf Hst]]]]]]]]]]]]].
    exists email, password, u, hash, secret.
    repeat split; try assumption.
    exists u, hash. unfold userByEmail in Hu. apply find_some in Hu.
    destruct Hu as [Hin Heq]. apply String.eqb_eq in Heq.
    repeat split; assumption.
  - intros email password Hs Hq.
    rewrite (@adminLogin_answer E env req w email password Hs Hq).
    split; [apply loginAnswer_tokens | ].
    split; [intro Hu; rewrite Hu; reflexivity | ].
    split; [intros u Hu Hh; unfold loginAnswer; rewrite Hu, Hh; reflexivity | ].
    split; [ | split].
    + intros u hash Hu Hh Hr. unfold loginAnswer. rewrite Hu, Hh.
      apply String.eqb_neq in Hr. rewrite Hr. reflexivity.
    + intros u hash Hu Hh Hr Hc. unfold loginAnswer. rewrite Hu, Hh, Hr, Hc. reflexivity.
    + intros u hash Hu Hh Hr Hc Hj. unfold loginAnswer.
      rewrite Hu, Hh, Hr, Hc, Hj. reflexivity.
  - apply (readsOnly_keeps_store AdminLogin). reflexivity.
Qed.

(** C5.  In the four routers every route other than [POST /login] of the
    auth router stacks [authenticateToken], then [requireAdmin], then its
    controller.  So whenever a router has a request answered by a
    controller, either that controller is [adminLogin], reached by [POST]
    on the auth router, or [authenticateToken] ran first on the request
    and called [next()], [requireAdmin] ran second and called [next()],
    and the controller ran on what they handed on. *)
Theorem C5_controllers_behind_both_middlewares :
  forall (E : Externals) (authenticateTokenMw requireAdminMw : Middleware)
         (routes : list Route) (method : Method) (path : string)
         (env : Env) (req : Req) (w : World)
         (c : Controller) (r : Response) (w' : World),
    In routes routers ->
    dispatch authenticateTokenMw requireAdminMw routes method path env req w
    = (ByController c r, w') ->
    Forall guardedOrLogin routes
    /\ ((c = AdminLogin /\ routes = authRouter /\ method = POST)
        \/ (c <> AdminLogin
            /\ exists route params req1 req2 w1 w2,
                 In route routes
                 /\ matchRoute route method path = Some params
                 /\ guardedBy route c
                 /\ authenticateTokenMw env (withParams req params) w = (inl req1, w1)
                 /\ requireAdminMw env req1 w1 = (inl req2, w2)
                 /\ run c env req2 w2 = (r, w'))).
Proof.
  intros E mw1 mw2 routes method path env req w c r w' Hin Hd.
  pose proof (@routers_guarded routes Hin) as Hall.
  split; [exact Hall | ].
  destruct (@dispatch_guarded E mw1 mw2 routes method path env req w c r w' Hall Hd)
    as [[Hc [Hlogin Hm]] | Hguarded].
  - left. repeat split; try assumption.
    unfold routers in Hin. cbn [In] in Hin.
    destruct Hin as [<- | [<- | [<- | [<- | []]]]]; [reflexivity | | | ];
      exfalso; cbn in Hlogin; intuition discriminate.
  - right. exact Hguarded.
Qed.

(** C6.  Whatever the controller, the request and the state of the store,
    the response has a boolean [success] that is true exactly when the
    status is a 2xx one, and a response with [success] false carries an
    [error]. *)
Theorem C6_every_response_is_shaped :
  forall (E : Externals) (c : Controller) (env : Env) (req : Req) (w : World),
    (success (payload (fst (run c env req w))) = true
     <-> 200 <= status (fst (run c env req w)) < 300)
    /\ (success (payload (fst (run c env req w))) = false ->
        exists e, error (payload (fst (run c env req w))) = Some e).
Proof.
  intros E c env req w. exact (@shaped_run E c env req w).
Qed.

(** C7.  When the store call does not throw, [getCategories] answers 200
    with a list that holds every stored category, each as often as it is
    stored, ordered by [sort] ascending and, for equal [sort], by [name]
    ascending; the store is left as it was. *)
Theorem C7_getCategories_returns_all_sorted :
  forall (env : Env) (req : Req) (w : World),
    noFaults 1 w ->
    exists l,
      fst (getCategories env req w) = res_json (succeed (PCategories l))
      /\ Permutation l (categories (store w))
      /\ StronglySorted bySortThenName l
      /\ store (snd (getCategories env req w)) = store w.
Proof.
  intros env req w Hq.
  exists (sortBy categoryLe (categories (store w))).
  destruct (sortBy_categories (categories (store w))) as [Hperm Hsorted].
  repeat split; try assumption.
  - apply getCategories_sorted. exact Hq.
  - apply getCategories_keeps_store.
Qed.

(** C8.  When [updateCategory], [updateProduct] or [updateOrderStatus]
    answers 400 or 404, the store is exactly what it was before the
    request. *)
Theorem C8_failed_update_writes_nothing :
  forall (E : Externals) (c : Controller) (env : Env) (req : Req) (w : World),
    c = UpdateCategory \/ c = UpdateProduct \/ c = UpdateOrderStatus ->
    status (fst (run c env req w)) = 400 \/ status (fst (run c env req w)) = 404 ->
    store (snd (run c env req w)) = store w.
Proof.
  intros E c env req w Hc Hs. exact (@update_error_keeps_store E c env req w Hc Hs).
Qed.


(* ===================================================================== *)
(** ** The claims on concrete requests *)
(* ===================================================================== *)

Section OnConcreteRequests.
#[local] Existing Instance Sample.externals.

(** Renaming the one category of the shop to a name that is not blank
    keeps names and identifiers distinct. *)
Lemma X1_rename_to_greens :
  idsDistinct (store (snd (run UpdateCategory Scenario.envB
                             (Sample.request Scenario.idA (Scenario.named " Greens "))
                             (Sample.world Scenario.shop))))
  /\ namesDistinct (store (snd (run UpdateCategory Scenario.envB
                                  (Sample.request Scenario.idA (Scenario.named " Greens "))
                                  (Sample.world Scenario.shop)))).
Proof.
  apply (@X1_names_stay_distinct_unless_blank Sample.externals).
  - intros _ s Hf. vm_compute in Hf. inversion Hf; subst. vm_compute. discriminate.
  - repeat split; cbn; repeat constructor; cbn; tauto.
Defined.

(** A second category under the name of the first is refused. *)
Lemma X2_second_fruits_is_refused :
  fst (createCategory Scenario.envB (Sample.request "" (Scenario.named "Fruits "))
         (Sample.world Scenario.shop)) = nameTaken "Category"
  /\ store (snd (createCategory Scenario.envB (Sample.request "" (Scenario.named "Fruits "))
                   (Sample.world Scenario.shop)))
     = store (Sample.world Scenario.shop).
Proof.
  apply (proj1 (@X2_category_names_are_looked_up Sample.externals Scenario.envB
                  (Sample.request "" (Scenario.named "Fruits "))
                  (Sample.world Scenario.shop))
           (mkCreateCategoryData "Fruits" None 0 true)).
  - reflexivity.
  - reflexivity.
  - left. reflexivity.
Defined.

(** A request for the status [shipped] is refused and writes nothing. *)
Lemma C2_shipped_is_refused :
  status (fst (updateOrderStatus Scenario.envA
                 (Sample.request "o1" (JObj [("status", JStr "shipped")]))
                 (Sample.world Scenario.book))) = 400
  /\ store (snd (updateOrderStatus Scenario.envA
                   (Sample.request "o1" (JObj [("status", JStr "shipped")]))
                   (Sample.world Scenario.book)))
     = store (Sample.world Scenario.book).
Proof.
  apply (proj1 (@C2_order_status_stays_in_enum Scenario.envA
                  (Sample.request "o1" (JObj [("status", JStr "shipped")]))
                  (Sample.world Scenario.book))).
  intros st Hf. vm_compute in Hf. inversion Hf; subst.
  cbn. intuition discriminate.
Defined.

(** C3 (counterexample).  In a shop whose one product refers to its one
    category, every reference resolves; after [deleteCategory] of that
    category, answered 200, the product is still stored and refers to a
    category that no longer exists. *)
Lemma C3_deleteCategory_leaves_dangling_reference :
  refsResolve Scenario.shop
  /\ status (fst (deleteCategory Scenario.envA (Sample.request Scenario.idA JNull)
                    (Sample.world Scenario.shop))) = 200
  /\ ~ refsResolve (store (snd (deleteCategory Scenario.envA
                                   (Sample.request Scenario.idA JNull)
                                   (Sample.world Scenario.shop)))).
Proof.
  split; [ | split].
  - intros p [<- | []]. exists Scenario.fruits. split; [left; reflexivity | reflexivity].
  - reflexivity.
  - intro Hr. destruct (Hr Scenario.apple) as [c [Hc _]].
    + left. reflexivity.
    + vm_compute in Hc. exact Hc.
Qed.

(** Moving the apple to a category that does not exist is refused. *)
Lemma C3_unknown_category_is_refused :
  fst (updateProduct Scenario.envA
         (Sample.request Scenario.idP (JObj [("categoryId", JStr Scenario.idB)]))
         (Sample.world Scenario.shop)) = categoryNotFound
  /\ store (snd (updateProduct Scenario.envA
                   (Sample.request Scenario.idP (JObj [("categoryId", JStr Scenario.idB)]))
                   (Sample.world Scenario.shop)))
     = store (Sample.world Scenario.shop).
Proof.
  apply (proj1 (proj2 (@C3_references_kept_unless_category_deleted Sample.externals
                         Scenario.envA
                         (Sample.request Scenario.idP
                            (JObj [("categoryId", JStr Scenario.idB)]))
                         (Sample.world Scenario.shop)))
           (mkUpdateProductData None (Some Scenario.idB) None None None None None)
           Scenario.apple Scenario.idB);
    reflexivity.
Defined.

(** C4 (counterexample).  The administrator submits the right email and
    password, so the credentials are valid, but [JWT_SECRET] is not set:
    the answer is 400 'Login failed' and carries no token. *)
Lemma C4_valid_credentials_without_secret :
  validCredentials Scenario.staff "root@veggie.test" "hunter2"
  /\ fst (adminLogin Scenario.envNoSecret Scenario.rootLogin (Sample.world Scenario.staff))
     = loginFailed
  /\ tokensOf (fst (adminLogin Scenario.envNoSecret Scenario.rootLogin
                      (Sample.world Scenario.staff))) = None.
Proof.
  split; [ | split].
  - exists Scenario.root, "bcrypt:hunter2".
    repeat split; try reflexivity. left. reflexivity.
  - reflexivity.
  - reflexivity.
Qed.

(** With [JWT_SECRET] set, the same login is given tokens. *)
Lemma C4_root_is_given_tokens :
  tokensOf (fst (adminLogin Scenario.envA Scenario.rootLogin (Sample.world Scenario.staff)))
  <> None.
Proof.
  destruct (proj1 (proj2 (@C4_tokens_need_valid_credentials_and_secret Sample.externals
                            Scenario.envA Scenario.rootLogin (Sample.world Scenario.staff)))
              "root@veggie.test" "hunter2" eq_refl eq_refl) as [Hiff _].
  apply Hiff. split; [discriminate | ].
  exists Scenario.root, "bcrypt:hunter2".
  repeat split; try reflexivity. discriminate.
Defined.

(** [GET /stats] of the orders router reaches [getOrderStats] through
    both middlewares. *)
Lemma C5_stats_are_behind_both_middlewares :
  Forall guardedOrLogin ordersRouter
  /\ ((GetOrderStats = AdminLogin /\ ordersRouter = authRouter /\ GET = POST)
      \/ (GetOrderStats <> AdminLogin
          /\ exists route params req1 req2 w1 w2,
               In route ordersRouter
               /\ matchRoute route GET "/stats" = Some params
               /\ guardedBy route GetOrderStats
               /\ Scenario.needsHeader Scenario.envA
                    (withParams Scenario.withHeader params) (Sample.world Scenario.book)
                  = (inl req1, w1)
               /\ Scenario.letsThrough Scenario.envA req1 w1 = (inl req2, w2)
               /\ run GetOrderStats Scenario.envA req2 w2
                  = (fst (run GetOrderStats Scenario.envA Scenario.withHeader
                            (Sample.world Scenario.book)),
                     snd (run GetOrderStats Scenario.envA Scenario.withHeader
                            (Sample.world Scenario.book))))).
Proof.
  apply (@C5_controllers_behind_both_middlewares Sample.externals
           Scenario.needsHeader Scenario.letsThrough ordersRouter GET "/stats"
           Scenario.envA Scenario.withHeader (Sample.world Scenario.book)
           GetOrderStats
           (fst (run GetOrderStats Scenario.envA Scenario.withHeader
                   (Sample.world Scenario.book)))
           (snd (run GetOrderStats Scenario.envA Scenario.withHeader
                   (Sample.world Scenario.book)))).
  - right. right. right. left. reflexivity.
  - reflexivity.
Defined.

(** The categories of three shelves come back in order. *)
Lemma C7_shelves_come_back_sorted :
  exists l,
    fst (getCategories Scenario.envA (Sample.request "" JNull) (Sample.world Scenario.shelves))
    = res_json (succeed (PCategories l))
    /\ Permutation l (categories (store (Sample.world Scenario.shelves)))
    /\ StronglySorted bySortThenName l
    /\ store (snd (getCategories Scenario.envA (Sample.request "" JNull)
                     (Sample.world Scenario.shelves)))
       = store (Sample.world Scenario.shelves).
Proof.
  apply C7_getCategories_returns_all_sorted.
  reflexivity.
Defined.

(** Renaming a category that does not exist is answered 404 and writes
    nothing. *)
Lemma C8_rename_of_missing_category :
  store (snd (run UpdateCategory Scenario.envA
                (Sample.request Scenario.idB (Scenario.named "Greens"))
                (Sample.world Scenario.shop)))
  = store (Sample.world Scenario.shop).
Proof.
  apply (@C8_failed_update_writes_nothing Sample.externals).
  - left. reflexivity.
  - right. reflexivity.
Defined.


End OnConcreteRequests.

(* ===================================================================== *)
(** ** Further properties: what the controllers write and answer *)
(* ===================================================================== *)

Ltac frame_leaf :=
  cbn [categories products orders users setCategories setProducts setOrders];
  reflexivity.

Section Frames.
Context `{Externals}.

Lemma run_keeps_users (c : Controller) (env : Env) (req : Req) (w : World) :
  users (store (snd (run c env req w))) = users (store w).
Proof.
  destruct c; unfold_controllers;
    apply (wp_tryCatch _ _ (fun _ w' => users (store w') = users (store w)));
    wp_run; frame_leaf.
Qed.

Lemma run_keeps_orders (c : Controller) (env : Env) (req : Req) (w : World) :
  writesOrders c = false ->
  orders (store (snd (run c env req w))) = orders (store w).
Proof.
  destruct c; cbn [writesOrders]; intro Hw; try discriminate Hw; unfold_controllers;
    apply (wp_tryCatch _ _ (fun _ w' => orders (store w') = orders (store w)));
    wp_run; frame_leaf.
Qed.

Lemma run_keeps_categories (c : Controller) (env : Env) (req : Req) (w : World) :
  writesCategories c = false ->
  categories (store (snd (run c env req w))) = categories (store w).
Proof.
  destruct c; cbn [writesCategories]; intro Hw; try discriminate Hw; unfold_controllers;
    apply (wp_tryCatch _ _ (fun _ w' => categories (store w') = categories (store w)));
    wp_run; frame_leaf.
Qed.

Lemma run_keeps_products (c : Controller) (env : Env) (req : Req) (w : World) :
  writesProducts c = false ->
  products (store (snd (run c env req w))) = products (store w).
Proof.
  destruct c; cbn [writesProducts]; intro Hw; try discriminate Hw; unfold_controllers;
    apply (wp_tryCatch _ _ (fun _ w' => products (store w') = products (store w)));
    wp_run; frame_leaf.
Qed.

Lemma run_status_in_table (c : Controller) (env : Env) (req : Req) (w : World) :
  In (status (fst (run c env req w))) (statusesOf c).
Proof.
  destruct c; cbn [statusesOf]; unfold_controllers;
    apply (wp_tryCatch _ _ (fun r _ => In (status r) _));
    wp_run;
    try match goal with
        | |- In (status (catchZod _ ?e)) _ => destruct e
        end;
    cbn; tauto.
Qed.

Lemma run_no_500_without_failure (c : Controller) (env : Env) (req : Req) (w : World) :
  failsOnlyWithStore c = true ->
  noFaults 6 w ->
  status (fst (run c env req w)) <> 500.
Proof.
  intros Hc Hq.
  apply noFaults_next in Hq. destruct Hq as [F1 Hq].
  apply noFaults_next in Hq. destruct Hq as [F2 Hq].
  apply noFaults_next in Hq. destruct Hq as [F3 Hq].
  apply noFaults_next in Hq. destruct Hq as [F4 Hq].
  apply noFaults_next in Hq. destruct Hq as [F5 Hq].
  apply noFaults_next in Hq. destruct Hq as [F6 _].
  cbn [faults advance store] in *.
  destruct c; cbn [failsOnlyWithStore] in Hc; try discriminate Hc; unfold_controllers;
    apply (wp_tryCatch _ _ (fun r _ => status r <> 500));
    wp_run; cbn [faults advance store] in *; try congruence;
    try (cbn; discriminate).
  all: exfalso;
    match goal with
    | Hl : lookupId ?f (params_id _) ?l = Some ?d, Hn : lookupId ?f _ ?l = None |- _ =>
        destruct (lookupId_In _ _ _ Hl) as [_ Hid];
        cbn [c_id p_id o_id assignCategory assignProduct setStatus] in Hn;
        rewrite Hid in Hn; congruence
    end.
Qed.

End Frames.

(* ===================================================================== *)
(** ** Further properties: looking documents up *)
(* ===================================================================== *)

Section LookupFacts.
Variable A : Type.
Variable idOf : A -> ObjectId.

Lemma lookupId_unique (d : A) (l : list A) :
  NoDup (map idOf l) -> In d l -> lookupId idOf (idOf d) l = Some d.
Proof.
  induction l as [ | x l IH]; cbn; intros Hnd Hin; [contradiction | ].
  inversion Hnd as [ | ? ? Hx Hl]; subst.
  unfold hasId at 1. destruct (String.eqb_spec (idOf x) (idOf d)) as [Heq | Hne].
  - destruct Hin as [-> | Hin]; [reflexivity | ].
    exfalso. apply Hx. rewrite Heq. apply in_map. exact Hin.
  - destruct Hin as [-> | Hin]; [contradiction | ]. apply IH; assumption.
Qed.

Lemma lookupId_snoc (d : A) (l : list A) :
  lookupId idOf (idOf d) l = None ->
  lookupId idOf (idOf d) (l ++ [d]) = Some d.
Proof.
  unfold lookupId. induction l as [ | x l IH]; cbn.
  - intros _. unfold hasId. rewrite String.eqb_refl. reflexivity.
  - destruct (hasId idOf (idOf d) x); [discriminate | exact IH].
Qed.

Lemma lookupId_snoc_other (id : ObjectId) (d : A) (l : list A) :
  idOf d <> id ->
  lookupId idOf id (l ++ [d]) = lookupId idOf id l.
Proof.
  intro Hne. unfold lookupId. induction l as [ | x l IH]; cbn.
  - unfold hasId. destruct (String.eqb_spec (idOf d) id); [contradiction | reflexivity].
  - destruct (hasId idOf id x); [reflexivity | exact IH].
Qed.

Lemma lookupId_replaceDoc (d x : A) (l : list A) :
  lookupId idOf (idOf d) l = Some x ->
  lookupId idOf (idOf d) (replaceDoc idOf d l) = Some d.
Proof.
  unfold lookupId, replaceDoc. induction l as [ | y l IH]; cbn; [discriminate | ].
  destruct (hasId idOf (idOf d) y) eqn:Hy.
  - intros _. cbn. unfold hasId. rewrite String.eqb_refl. reflexivity.
  - intro Hl. cbn. rewrite Hy. exact (IH Hl).
Qed.

Lemma lookupId_replaceDoc_other (id : ObjectId) (d : A) (l : list A) :
  idOf d <> id ->
  lookupId idOf id (replaceDoc idOf d l) = lookupId idOf id l.
Proof.
  intro Hne. unfold lookupId, replaceDoc. induction l as [ | y l IH]; cbn; [reflexivity | ].
  destruct (hasId idOf (idOf d) y) eqn:Hy.
  - unfold hasId in Hy. apply String.eqb_eq in Hy.
    assert (Hd : hasId idOf id d = false)
      by (unfold hasId; apply String.eqb_neq; exact Hne).
    assert (Hy' : hasId idOf id y = false)
      by (unfold hasId; apply String.eqb_neq; rewrite Hy; exact Hne).
    rewrite Hd, Hy'. exact IH.
  - destruct (hasId idOf id y); [reflexivity | exact IH].
Qed.

Lemma replaceDoc_twice (d : A) (l : list A) :
  replaceDoc idOf d (replaceDoc idOf d l) = replaceDoc idOf d l.
Proof.
  unfold replaceDoc. rewrite map_map. apply map_ext. intro y.
  destruct (hasId idOf (idOf d) y) eqn:Hy; [ | rewrite Hy; reflexivity].
  unfold hasId. rewrite String.eqb_refl. reflexivity.
Qed.

Lemma replaceDoc_length (d : A) (l : list A) :
  List.length (replaceDoc idOf d l) = List.length l.
Proof. unfold replaceDoc. apply length_map. Qed.

Lemma deleteOne_removes (id : ObjectId) (l : list A) :
  NoDup (map idOf l) -> ~ In id (map idOf (deleteOne idOf id l)).
Proof.
  induction l as [ | x l IH]; cbn; intro Hnd; [tauto | ].
  inversion Hnd as [ | ? ? Hx Hl]; subst.
  unfold hasId at 1. destruct (String.eqb_spec (idOf x) id) as [Heq | Hne].
  - rewrite <- Heq. exact Hx.
  - cbn. intros [Hhd | Htl]; [contradiction | exact (IH Hl Htl)].
Qed.

Lemma deleteOne_absent (id : ObjectId) (l : list A) :
  ~ In id (map idOf l) -> deleteOne idOf id l = l.
Proof.
  induction l as [ | x l IH]; cbn; intro Hno; [reflexivity | ].
  unfold hasId. destruct (String.eqb_spec (idOf x) id) as [Heq | Hne].
  - exfalso. apply Hno. left. exact Heq.
  - f_equal. apply IH. intro Hin. apply Hno. right. exact Hin.
Qed.

Lemma deleteOne_length (id : ObjectId) (l : list A) (d : A) :
  lookupId idOf id l = Some d ->
  S (List.length (deleteOne idOf id l)) = List.length l.
Proof.
  unfold lookupId. induction l as [ | x l IH]; cbn; [discriminate | ].
  destruct (hasId idOf id x); [reflexivity | ].
  intro Hl. cbn. f_equal. exact (IH Hl).
Qed.

End LookupFacts.

Lemma getCategoryById_found (env : Env) (req : Req) (w : World) :
  noFaults 1 w ->
  fst (getCategoryById env req w)
  = match lookupId c_id (params_id req) (categories (store w)) with
    | Some c => res_json (succeed (PCategory c))
    | None => notFound "Category"
    end.
Proof.
  intro Hq. apply noFaults_next in Hq. destruct Hq as [F1 _].
  unfold_controllers.
  apply (wp_tryCatch _ _
           (fun r _ => r = match lookupId c_id (params_id req) (categories (store w)) with
                           | Some c => res_json (succeed (PCategory c))
                           | None => notFound "Category"
                           end)).
  wp_run; try congruence; reflexivity.
Qed.

Lemma deleteCategory_effect (env : Env) (req : Req) (w : World) :
  (status (fst (deleteCategory env req w)) = 200
   /\ (exists c, lookupId c_id (params_id req) (categories (store w)) = Some c)
   /\ store (snd (deleteCategory env req w))
      = setCategories (deleteOne c_id (params_id req) (categories (store w))) (store w))
  \/ (status (fst (deleteCategory env req w)) <> 200
      /\ store (snd (deleteCategory env req w)) = store w).
Proof.
  unfold_controllers.
  apply (wp_tryCatch _ _
           (fun r w' =>
              (status r = 200
               /\ (exists c, lookupId c_id (params_id req) (categories (store w)) = Some c)
               /\ store w'
                  = setCategories (deleteOne c_id (params_id req) (categories (store w)))
                      (store w))
              \/ (status r <> 200 /\ store w' = store w))).
  wp_run; try (right; split; [cbn; discriminate | reflexivity]).
  left. split; [reflexivity | ]. split; [eexists; reflexivity | reflexivity].
Qed.

Lemma deleteCategory_answer (env : Env) (req : Req) (w : World) :
  noFaults 2 w ->
  fst (deleteCategory env req w)
  = match lookupId c_id (params_id req) (categories (store w)) with
    | Some _ => res_json (succeedOnlyMsg "Category deleted successfully")
    | None => notFound "Category"
    end.
Proof.
  intro Hq. apply noFaults_next in Hq. destruct Hq as [F1 Hq].
  apply noFaults_next in Hq. destruct Hq as [F2 _].
  unfold_controllers.
  apply (wp_tryCatch _ _
           (fun r _ => r = match lookupId c_id (params_id req) (categories (store w)) with
                           | Some _ => res_json (succeedOnlyMsg "Category deleted successfully")
                           | None => notFound "Category"
                           end)).
  wp_run; cbn [faults advance store] in *; try congruence; reflexivity.
Qed.

Section CategoryWrites.
Context `{Externals}.

(** What a 201 of [createCategory] means. *)
Lemma createCategory_created (env : Env) (req : Req) (w : World) :
  status (fst (createCategory env req w)) = 201 ->
  exists d,
    createCategorySchema (body req) = inr d
    /\ fst (createCategory env req w)
       = res_status_json 201 (succeed (PCategory (newCategory env d)))
    /\ ~ In (cc_name d) (map c_name (categories (store w)))
    /\ lookupId c_id (newObjectId env) (categories (store w)) = None
    /\ store (snd (createCategory env req w))
       = setCategories (categories (store w) ++ [newCategory env d])%list (store w).
Proof.
  unfold_controllers.
  apply (wp_tryCatch _ _
           (fun r w' =>
              status r = 201 ->
              exists d,
                createCategorySchema (body req) = inr d
                /\ r = res_status_json 201 (succeed (PCategory (newCategory env d)))
                /\ ~ In (cc_name d) (map c_name (categories (store w)))
                /\ lookupId c_id (newObjectId env) (categories (store w)) = None
                /\ store w'
                   = setCategories (categories (store w) ++ [newCategory env d])%list
                       (store w))).
  wp_run; try (unfold catchZod; cbn; discriminate);
    try match goal with
        | |- status (catchZod _ ?e) = _ -> _ => destruct e; cbn; discriminate
        end.
  intros _.
  match goal with
  | Ha : createCategorySchema _ = inr ?a |- _ => exists a
  end.
  repeat split; try assumption; try reflexivity.
  apply find_name_None. assumption.
Qed.

(** What a 200 of [updateCategory] means. *)
Lemma updateCategory_updated (env : Env) (req : Req) (w : World) :
  (status (fst (updateCategory env req w)) = 200
   /\ exists d c,
        updateCategorySchema (body req) = inr d
        /\ lookupId c_id (params_id req) (categories (store w)) = Some c
        /\ fst (updateCategory env req w)
           = res_json (succeed (PCategory (assignCategory c d)))
        /\ store (snd (updateCategory env req w))
           = setCategories (replaceDoc c_id (assignCategory c d) (categories (store w)))
               (store w))
  \/ (status (fst (updateCategory env req w)) <> 200
      /\ store (snd (updateCategory env req w)) = store w).
Proof.
  unfold_controllers.
  apply (wp_tryCatch _ _
           (fun r w' =>
              (status r = 200
               /\ exists d c,
                    updateCategorySchema (body req) = inr d
                    /\ lookupId c_id (params_id req) (categories (store w)) = Some c
                    /\ r = res_json (succeed (PCategory (assignCategory c d)))
                    /\ store w'
                       = setCategories
                           (replaceDoc c_id (assignCategory c d) (categories (store w)))
                           (store w))
              \/ (status r <> 200 /\ store w' = store w))).
  wp_run;
    try (right; split; [cbn; discriminate | reflexivity]);
    try match goal with
        | |- context [catchZod _ ?e] =>
            right; split; [destruct e; cbn; discriminate | reflexivity]
        end.
  all: left; split; [reflexivity | ];
    match goal with
    | Ha : updateCategorySchema _ = inr ?a,
      Hl : lookupId c_id (params_id _) _ = Some ?c |- _ => exists a, c
    end;
    repeat split; assumption || reflexivity.
Qed.

End CategoryWrites.

Section CategorySchemaFacts.
Context `{Externals}.

(** A key the body of an update does not have is not in the parsed data. *)
Lemma updateCategorySchema_absent (req : Req) (d : UpdateCategoryData) :
  updateCategorySchema (body req) = inr d ->
  (bodyField req "name" = None -> uc_name d = None)
  /\ (bodyField req "iconUrl" = None -> uc_iconUrl d = None)
  /\ (bodyField req "sort" = None -> uc_sort d = None)
  /\ (bodyField req "isActive" = None -> uc_isActive d = None).
Proof.
  unfold updateCategorySchema, bodyField, Zod.object.
  destruct (body req) as [[ | | | | | fields] | ]; cbn [Zod.andThen]; try discriminate.
  destruct (assoc "name" fields) as [jn | ];
    destruct (assoc "iconUrl" fields) as [ji | ];
    destruct (assoc "sort" fields) as [js | ];
    destruct (assoc "isActive" fields) as [ja | ];
    cbn [Zod.optional Zod.urlOrEmpty Zod.andThen];
    zod_rest;
    repeat match goal with
           | |- context [match ?j with JNull => _ | _ => _ end] =>
               destruct j; cbn [Zod.andThen]; try discriminate
           | |- context [if ?b then _ else _] =>
               destruct b; cbn [Zod.andThen]; try discriminate
           end;
    zod_rest;
    intro Hd; inversion Hd; subst; cbn;
    repeat split; intro Hx; try reflexivity; discriminate Hx.
Qed.

End CategorySchemaFacts.

(* ===================================================================== *)
(** ** Further properties of the category controllers *)
(* ===================================================================== *)

(** X3.  No controller ever writes to the users.  The orders are written
    by [updateOrderStatus] only, the categories by the three category
    writers only and the products by the three product writers only; the
    other nine controllers leave the whole store as it was, whatever the
    request and whichever store calls throw. *)
Theorem X3_controllers_write_only_their_collection :
  forall (E : Externals) (c : Controller) (env : Env) (req : Req) (w : World),
    users (store (snd (run c env req w))) = users (store w)
    /\ (writesOrders c = false ->
        orders (store (snd (run c env req w))) = orders (store w))
    /\ (writesCategories c = false ->
        categories (store (snd (run c env req w))) = categories (store w))
    /\ (writesProducts c = false ->
        products (store (snd (run c env req w))) = products (store w))
    /\ (readsOnly c = true -> store (snd (run c env req w)) = store w).
Proof.
  intros E c env req w.
  split; [apply run_keeps_users | ].
  split; [apply run_keeps_orders | ].
  split; [apply run_keeps_categories | ].
  split; [apply run_keeps_products | apply readsOnly_keeps_store].
Qed.

(** X4.  Each controller answers with a status of its own short list
    ([adminLogin] never with 500, [getAdminProfile] never with 400 or
    404).  The by-id, update and delete controllers, [getCategories],
    [getOrderStats] and [adminLogin] answer 500 only when a store call
    throws. *)
Theorem X4_statuses_of_the_controllers :
  forall (E : Externals) (c : Controller) (env : Env) (req : Req) (w : World),
    In (status (fst (run c env req w))) (statusesOf c)
    /\ (failsOnlyWithStore c = true -> noFaults 6 w ->
        status (fst (run c env req w)) <> 500).
Proof.
  intros E c env req w. split.
  - apply run_status_in_table.
  - apply run_no_500_without_failure.
Qed.

(** X5.  When [createCategory] answers 201, the category of its answer
    carries the identifier the driver drew, and [getCategoryById] under
    that identifier answers 200 with the same category, as long as its
    store call does not throw. *)
Theorem X5_created_category_is_found :
  forall (E : Externals) (env : Env) (req : Req) (w : World) (env' : Env) (req' : Req),
    status (fst (createCategory env req w)) = 201 ->
    params_id req' = newObjectId env ->
    noFaults 1 (snd (createCategory env req w)) ->
    exists c,
      fst (createCategory env req w) = res_status_json 201 (succeed (PCategory c))
      /\ c_id c = newObjectId env
      /\ fst (getCategoryById env' req' (snd (createCategory env req w)))
         = res_json (succeed (PCategory c)).
Proof.
  intros E env req w env' req' Hst Hid Hq.
  destruct (createCategory_created env req w Hst)
    as [d [Hd [Hresp [Hname [Hfresh Hstore]]]]].
  exists (newCategory env d). split; [exact Hresp | ]. split; [reflexivity | ].
  rewrite (getCategoryById_found env' req' Hq), Hstore, Hid.
  cbn [categories setCategories].
  change (newObjectId env) with (c_id (newCategory env d)).
  rewrite lookupId_snoc; [reflexivity | exact Hfresh].
Qed.

(** X6.  When its store call does not throw, [getCategoryById] answers
    404 'Category not found' for an identifier no stored category has,
    and 200 with the category for the identifier of a stored one
    (identifiers being pairwise different); it writes nothing. *)
Theorem X6_getCategoryById_finds_by_id :
  forall (env : Env) (req : Req) (w : World),
    noFaults 1 w ->
    (~ In (params_id req) (map c_id (categories (store w))) ->
     fst (getCategoryById env req w) = notFound "Category")
    /\ (forall c,
           NoDup (map c_id (categories (store w))) ->
           In c (categories (store w)) ->
           c_id c = params_id req ->
           fst (getCategoryById env req w) = res_json (succeed (PCategory c)))
    /\ store (snd (getCategoryById env req w)) = store w.
Proof.
  intros env req w Hq. rewrite (getCategoryById_found env req Hq).
  split; [ | split].
  - intro Hno. rewrite (lookupId_absent c_id _ _ Hno). reflexivity.
  - intros c Hnd Hin Hid. rewrite <- Hid.
    rewrite (lookupId_unique c_id c _ Hnd Hin). reflexivity.
  - unfold_controllers.
    apply (wp_tryCatch _ _ (fun _ w' => store w' = store w)).
    wp_run; reflexivity.
Qed.

(** X7.  In a store with pairwise different identifiers, a
    [deleteCategory] that answers 200 removed one category, the one with
    the requested identifier: [getCategoryById] then answers 404 for it,
    every other category is still stored, and the products are as they
    were.  A [deleteCategory] that answers anything else wrote nothing. *)
Theorem X7_deleted_category_is_gone :
  forall (env : Env) (req : Req) (w : World) (env' : Env) (req' : Req),
    NoDup (map c_id (categories (store w))) ->
    (status (fst (deleteCategory env req w)) = 200 ->
     (params_id req' = params_id req ->
      noFaults 1 (snd (deleteCategory env req w)) ->
      fst (getCategoryById env' req' (snd (deleteCategory env req w)))
      = notFound "Category")
     /\ (forall c, In c (categories (store w)) -> c_id c <> params_id req ->
                   In c (categories (store (snd (deleteCategory env req w)))))
     /\ S (List.length (categories (store (snd (deleteCategory env req w)))))
        = List.length (categories (store w))
     /\ products (store (snd (deleteCategory env req w))) = products (store w))
    /\ (status (fst (deleteCategory env req w)) <> 200 ->
        store (snd (deleteCategory env req w)) = store w).
Proof.
  intros env req w env' req' Hnd.
  destruct (deleteCategory_effect env req w) as [[Hst [[c Hc] Hstore]] | [Hst Hstore]].
  - split; [ | intro Hne; contradiction].
    intros _. rewrite Hstore. cbn [categories products setCategories].
    split; [ | split; [ | split]].
    + intros Hid Hq. rewrite (getCategoryById_found env' req' Hq), Hstore, Hid.
      cbn [categories setCategories].
      rewrite (lookupId_absent c_id _ _ (deleteOne_removes c_id (params_id req) _ Hnd)).
      reflexivity.
    + intros c0 Hin Hne. apply deleteOne_keeps; assumption.
    + apply (deleteOne_length c_id _ _ Hc).
    + reflexivity.
  - split; [intro Hok; contradiction | intros _; exact Hstore].
Qed.

(** X8.  In a store with pairwise different identifiers, an
    [updateCategory] that answers 200 replaced the one category with the
    requested identifier and left the others, in their order; the new
    version keeps the identifier, and keeps the stored value of every key
    the body does not have.  An [updateCategory] that answers anything
    else wrote nothing. *)
Theorem X8_updateCategory_changes_the_submitted_keys :
  forall (E : Externals) (env : Env) (req : Req) (w : World),
    NoDup (map c_id (categories (store w))) ->
    (status (fst (updateCategory env req w)) = 200 ->
     exists c c' l1 l2,
       categories (store w) = (l1 ++ c :: l2)%list
       /\ c_id c = params_id req
       /\ categories (store (snd (updateCategory env req w))) = (l1 ++ c' :: l2)%list
       /\ fst (updateCategory env req w) = res_json (succeed (PCategory c'))
       /\ c_id c' = c_id c
       /\ (bodyField req "name" = None -> c_name c' = c_name c)
       /\ (bodyField req "iconUrl" = None -> c_iconUrl c' = c_iconUrl c)
       /\ (bodyField req "sort" = None -> c_sort c' = c_sort c)
       /\ (bodyField req "isActive" = None -> c_isActive c' = c_isActive c))
    /\ (status (fst (updateCategory env req w)) <> 200 ->
        store (snd (updateCategory env req w)) = store w).
Proof.
  intros E env req w Hnd.
  destruct (updateCategory_updated env req w)
    as [[Hst [d [c [Hd [Hc [Hresp Hstore]]]]]] | [Hst Hstore]].
  - split; [ | intro Hne; contradiction].
    intros _.
    destruct (lookupId_In _ _ _ Hc) as [_ Hid].
    assert (Hc' : lookupId c_id (c_id (assignCategory c d)) (categories (store w)) = Some c)
      by (rewrite assignCategory_id, Hid; exact Hc).
    destruct (replaceDoc_split c_id (assignCategory c d) _ Hnd Hc')
      as [l1 [l2 [Hsplit Hrep]]].
    destruct (updateCategorySchema_absent req Hd) as [Hn [Hi [Hs Ha]]].
    exists c, (assignCategory c d), l1, l2.
    split; [exact Hsplit | ]. split; [exact Hid | ].
    split; [rewrite Hstore; cbn [categories setCategories]; exact Hrep | ].
    split; [exact Hresp | ]. split; [reflexivity | ].
    split; [intro Hf; cbn [assignCategory c_name]; rewrite (Hn Hf); reflexivity | ].
    split; [intro Hf; cbn [assignCategory c_iconUrl]; rewrite (Hi Hf); reflexivity | ].
    split; [intro Hf; cbn [assignCategory c_sort]; rewrite (Hs Hf); reflexivity | ].
    intro Hf. cbn [assignCategory c_isActive]. rewrite (Ha Hf). reflexivity.
  - split; [intro Hok; contradiction | intros _; exact Hstore].
Qed.

(* ===================================================================== *)
(** ** Further properties: what the product schemas accept *)
(* ===================================================================== *)

Ltac zod_cases :=
  repeat match goal with
         | |- context [Zod.andThen ?p _] =>
             destruct p eqn:?; cbn [Zod.andThen]; try discriminate
         end.

Lemma Qltb_lt (a b : Q) : Qltb a b = true -> (a < b)%Q.
Proof.
  unfold Qltb. intro Hb. apply negb_true_iff in Hb.
  apply Qnot_le_lt. intro Hle. apply Qle_bool_iff in Hle. congruence.
Qed.

Lemma each_Forall (A B : Type) (f : A -> Parsed B) (P : B -> Prop) (l : list A) :
  (forall a b, f a = inr b -> P b) ->
  forall l', Zod.each f l = inr l' -> Forall P l' /\ List.length l' = List.length l.
Proof.
  intro Hf. induction l as [ | a l IH]; cbn; intros l' Hl.
  - inversion Hl; subst. split; [constructor | reflexivity].
  - unfold Zod.andThen in Hl. destruct (f a) as [m | b] eqn:Hb; [discriminate | ].
    destruct (Zod.each f l) as [m | bs]; [discriminate | ].
    inversion Hl; subst. destruct (IH bs eq_refl) as [Hall Hlen].
    split; [constructor; [exact (Hf a b Hb) | exact Hall] | cbn; f_equal; exact Hlen].
Qed.

Lemma array_Forall (A : Type) (item : Schema A) (P : A -> Prop)
    (minOne : option string) (v : option JSON) (l : list A) :
  (forall j a, item (Some j) = inr a -> P a) ->
  Zod.array item minOne v = inr l ->
  Forall P l /\ (minOne <> None -> l <> []).
Proof.
  intros Hitem. unfold Zod.array.
  destruct v as [[ | | | | items | ] | ]; try discriminate.
  intro Hl.
  assert (Heach : Zod.each (fun j => item (Some j)) items = inr l
                  /\ (minOne <> None -> items <> [])).
  { destruct minOne as [msg | ]; destruct items as [ | j items];
      try discriminate; (split; [exact Hl | ]); intros; try discriminate; contradiction. }
  destruct Heach as [Heach Hne].
  destruct (@each_Forall _ _ (fun j => item (Some j)) P items (fun j a => Hitem j a) l Heach)
    as [Hall Hlen].
  split; [exact Hall | ].
  intros Hmin Hnil. subst l. destruct items; [exact (Hne Hmin eq_refl) | discriminate].
Qed.

Lemma positiveSchema_sound (v : option JSON) (q : Q) :
  positiveSchema v = inr q -> (0 < q)%Q.
Proof.
  unfold positiveSchema, Zod.number, Zod.positive, Zod.andThen.
  destruct v as [[ | | q0 | | | ] | ]; try discriminate.
  destruct (Qltb 0 q0) eqn:Hq; [ | discriminate].
  intro Heq. inversion Heq; subst. apply Qltb_lt. exact Hq.
Qed.

Lemma optional_sound (A : Type) (s : Schema A) (P : A -> Prop) (v : option JSON)
    (o : option A) :
  (forall a, s v = inr a -> P a) ->
  Zod.optional s v = inr o -> forall a, o = Some a -> P a.
Proof.
  intros Hs. unfold Zod.optional, Zod.andThen. destruct v as [j | ].
  - destruct (s (Some j)) as [m | a0] eqn:Ha; [discriminate | ].
    intro Heq. inversion Heq; subst. intros a Ho. inversion Ho; subst.
    apply Hs. reflexivity.
  - intro Heq. inversion Heq; subst. intros a Ho. discriminate Ho.
Qed.

Lemma ratingSchema_sound (v : option JSON) (q : Q) :
  ratingSchema v = inr q -> (0 <= q)%Q /\ (q <= 5)%Q.
Proof.
  unfold ratingSchema, Zod.number, Zod.atLeast, Zod.atMost, Zod.andThen.
  destruct v as [[ | | q0 | | | ] | ]; try discriminate.
  destruct (Qle_bool 0 q0) eqn:Hlo; [ | discriminate].
  destruct (Qle_bool q0 5) eqn:Hhi; [ | discriminate].
  intro Heq. inversion Heq; subst. split; apply Qle_bool_iff; assumption.
Qed.

Lemma unitPriceSchema_sound (v : option JSON) (u : UnitPrice) :
  unitPriceSchema v = inr u -> validUnitPrice u.
Proof.
  unfold unitPriceSchema, Zod.object.
  destruct v as [[ | | | | | fields] | ]; cbn [Zod.andThen]; try discriminate.
  zod_cases. unfold Zod.ok. intro Heq. inversion Heq; subst.
  unfold validUnitPrice; cbn [up_unit up_step up_baseQty up_price up_compareAt up_stock].
  repeat match goal with
         | Hp : positiveSchema _ = inr _ |- _ => apply positiveSchema_sound in Hp
         end.
  split.
  - match goal with
    | He : Zod.enum _ _ = inr _ |- _ =>
        unfold Zod.enum in He;
        destruct (assoc "unit" fields) as [[ | | | s0 | | ] | ]; try discriminate He;
        destruct (existsb (String.eqb s0) ["kg"; "g"; "pcs"; "bundle"]) eqn:Hin;
        [ | discriminate He];
        inversion He; subst; apply existsb_eqb_In; exact Hin
    end.
  - split; [assumption | ]. split; [assumption | ]. split; [assumption | ]. split.
    + match goal with
      | Ho : Zod.optional positiveSchema _ = inr _ |- _ =>
          exact (@optional_sound _ positiveSchema (fun c => (0 < c)%Q) _ _
                   (fun a Ha => @positiveSchema_sound _ a Ha) Ho)
      end.
    + match goal with
      | Hs : stockSchema _ = inr _ |- _ =>
          unfold stockSchema, Zod.number, Zod.atLeast, Zod.andThen in Hs;
          destruct (assoc "stock" fields) as [[ | | inStock | | | ] | ];
          try discriminate Hs;
          destruct (Qle_bool 0 inStock) eqn:Hq; [ | discriminate Hs];
          inversion Hs; subst; apply Qle_bool_iff; exact Hq
      end.
Qed.

Lemma categoryIdSchema_sound (v : option JSON) (s : string) :
  categoryIdSchema v = inr s -> Str.isHex24 s = true.
Proof.
  unfold categoryIdSchema, Zod.string_, Zod.regexHex24, Zod.andThen.
  destruct v as [[ | | | s0 | | ] | ]; try discriminate.
  destruct (Str.isHex24 s0) eqn:Hh; [ | discriminate].
  intro Heq. inversion Heq; subst. exact Hh.
Qed.

Section ProductSchemaFacts.
Context `{Externals}.

Lemma imageSchema_sound (v : option JSON) (s : string) :
  imageSchema v = inr s -> isUrl s = true.
Proof.
  unfold imageSchema, Zod.string_, Zod.url, Zod.andThen.
  destruct v as [[ | | | s0 | | ] | ]; try discriminate.
  destruct (isUrl s0) eqn:Hu; [ | discriminate].
  intro Heq. inversion Heq; subst. exact Hu.
Qed.

Lemma createProductSchema_sound (v : option JSON) (d : CreateProductData) :
  createProductSchema v = inr d ->
  Str.isHex24 (cp_categoryId d) = true
  /\ Forall (fun i => isUrl i = true) (cp_images d) /\ cp_images d <> []
  /\ Forall validUnitPrice (cp_unitPrices d) /\ cp_unitPrices d <> []
  /\ validRating (cp_rating d).
Proof.
  unfold createProductSchema, Zod.object.
  destruct v as [[ | | | | | fields] | ]; cbn [Zod.andThen]; try discriminate.
  zod_cases. unfold Zod.ok. intro Heq. inversion Heq; subst.
  cbn [cp_categoryId cp_images cp_unitPrices cp_rating].
  match goal with
  | Hi : Zod.array imageSchema _ _ = inr _,
    Hu : Zod.array unitPriceSchema _ _ = inr _,
    Hc : categoryIdSchema _ = inr _,
    Hr : Zod.optional ratingSchema _ = inr _ |- _ =>
      destruct (@array_Forall _ imageSchema (fun i => isUrl i = true) _ _ _
                  (fun j a Ha => @imageSchema_sound _ a Ha) Hi) as [Hi1 Hi2];
      destruct (@array_Forall _ unitPriceSchema validUnitPrice _ _ _
                  (fun j a Ha => @unitPriceSchema_sound _ a Ha) Hu) as [Hu1 Hu2];
      pose proof (@categoryIdSchema_sound _ _ Hc) as Hc1;
      pose proof (@optional_sound _ ratingSchema
                    (fun q => (0 <= q)%Q /\ (q <= 5)%Q) _ _
                    (fun a Ha => @ratingSchema_sound _ a Ha) Hr) as Hr1
  end.
  split; [exact Hc1 | ]. split; [exact Hi1 | ].
  split; [apply Hi2; discriminate | ]. split; [exact Hu1 | ].
  split; [apply Hu2; discriminate | exact Hr1].
Qed.

Lemma updateProductSchema_sound (v : option JSON) (d : UpdateProductData) :
  updateProductSchema v = inr d ->
  (forall c, upd_categoryId d = Some c -> Str.isHex24 c = true)
  /\ (forall l, upd_images d = Some l -> Forall (fun i => isUrl i = true) l)
  /\ (forall l, upd_unitPrices d = Some l -> Forall validUnitPrice l)
  /\ validRating (upd_rating d).
Proof.
  unfold updateProductSchema, Zod.object.
  destruct v as [[ | | | | | fields] | ]; cbn [Zod.andThen]; try discriminate.
  zod_cases. unfold Zod.ok. intro Heq. inversion Heq; subst.
  cbn [upd_categoryId upd_images upd_unitPrices upd_rating].
  match goal with
  | Hi : Zod.optional (Zod.array imageSchema None) _ = inr _,
    Hu : Zod.optional (Zod.array unitPriceSchema None) _ = inr _,
    Hc : Zod.optional categoryIdSchema _ = inr _,
    Hr : Zod.optional ratingSchema _ = inr _ |- _ =>
      pose proof (@optional_sound _ (Zod.array imageSchema None)
                    (Forall (fun i => isUrl i = true)) _ _
                    (fun a Ha => proj1 (@array_Forall _ imageSchema
                                          (fun i => isUrl i = true) _ _ _
                                          (fun j b Hb => @imageSchema_sound _ b Hb) Ha))
                    Hi) as Hi1;
      pose proof (@optional_sound _ (Zod.array unitPriceSchema None)
                    (Forall validUnitPrice) _ _
                    (fun a Ha => proj1 (@array_Forall _ unitPriceSchema
                                          validUnitPrice _ _ _
                                          (fun j b Hb => @unitPriceSchema_sound _ b Hb) Ha))
                    Hu) as Hu1;
      pose proof (@optional_sound _ categoryIdSchema
                    (fun c => Str.isHex24 c = true) _ _
                    (fun a Ha => @categoryIdSchema_sound _ a Ha) Hc) as Hc1;
      pose proof (@optional_sound _ ratingSchema
                    (fun q => (0 <= q)%Q /\ (q <= 5)%Q) _ _
                    (fun a Ha => @ratingSchema_sound _ a Ha) Hr) as Hr1
  end.
  split; [exact Hc1 | ]. split; [exact Hi1 | ]. split; [exact Hu1 | exact Hr1].
Qed.

(** A key the body of a product update does not have, or has as an
    array that is not empty, leaves images and unit prices in place. *)
Lemma updateProductSchema_arrays (req : Req) (d : UpdateProductData) :
  updateProductSchema (body req) = inr d ->
  (bodyField req "images" <> Some (JArr []) -> upd_images d <> Some [])
  /\ (bodyField req "unitPrices" <> Some (JArr []) -> upd_unitPrices d <> Some []).
Proof.
  unfold updateProductSchema, bodyField, Zod.object.
  destruct (body req) as [[ | | | | | fields] | ]; cbn [Zod.andThen]; try discriminate.
  zod_cases. unfold Zod.ok. intro Heq. inversion Heq; subst.
  cbn [upd_images upd_unitPrices].
  split; intros Hne Hnil; subst; apply Hne;
    match goal with
    | Ha : Zod.optional (Zod.array ?item None) (assoc ?k fields) = inr (Some []) |- 
        assoc ?k fields = _ =>
        unfold Zod.optional, Zod.array, Zod.andThen in Ha;
        destruct (assoc k fields) as [[ | | | | [ | j items] | ] | ];
        try discriminate Ha; try reflexivity;
        cbn [Zod.each] in Ha; unfold Zod.andThen in Ha;
        destruct (item (Some j)); try discriminate Ha;
        destruct (Zod.each (fun j0 => item (Some j0)) items); discriminate Ha
    end.
Qed.

(** What [createProduct] does to the store, and what its 201 carries. *)
Lemma createProduct_effect (env : Env) (req : Req) (w : World) :
  (store (snd (createProduct env req w)) = store w
   /\ status (fst (createProduct env req w)) <> 201)
  \/ exists d c,
       createProductSchema (body req) = inr d
       /\ lookupId c_id (cp_categoryId d) (categories (store w)) = Some c
       /\ ~ In (cp_name d) (map p_name (products (store w)))
       /\ lookupId p_id (newObjectId env) (products (store w)) = None
       /\ store (snd (createProduct env req w))
          = setProducts (products (store w) ++ [newProduct env d])%list (store w)
       /\ (fst (createProduct env req w)
           = res_status_json 201 (succeed (PProduct (Some (populated (newProduct env d) c))))
           \/ status (fst (createProduct env req w)) = 500).
Proof.
  unfold_controllers.
  apply (wp_tryCatch _ _
           (fun r w' =>
              (store w' = store w /\ status r <> 201)
              \/ exists d c,
                   createProductSchema (body req) = inr d
                   /\ lookupId c_id (cp_categoryId d) (categories (store w)) = Some c
                   /\ ~ In (cp_name d) (map p_name (products (store w)))
                   /\ lookupId p_id (newObjectId env) (products (store w)) = None
                   /\ store w'
                      = setProducts (products (store w) ++ [newProduct env d])%list (store w)
                   /\ (r = res_status_json 201
                             (succeed (PProduct (Some (populated (newProduct env d) c))))
                       \/ status r = 500))).
  wp_run;
    try (left; split; [reflexivity | cbn; discriminate]);
    try match goal with
        | |- context [catchZod _ ?e] =>
            left; split; [reflexivity | destruct e; cbn; discriminate]
        end.
  all: cbn [p_id categories products setProducts store advance] in *;
    match goal with
    | Ha : createProductSchema _ = inr ?a,
      Hc : lookupId c_id _ _ = Some ?c,
      Hn : find _ _ = None,
      Hf : lookupId p_id (newObjectId _) (products (store _)) = None |- _ =>
        pose proof (find_name_None p_name _ _ Hn) as Hname;
        pose proof (lookupId_snoc p_id (newProduct env a) _ Hf) as Hsnoc;
        cbn [p_id newProduct] in Hsnoc;
        right; exists a, c;
        split; [exact Ha | ]; split; [exact Hc | ]; split; [exact Hname | ];
        split; [exact Hf | ]; split; [reflexivity | ]
    end.
  all: try (right; reflexivity).
  all: try match goal with
           | Hl : lookupId p_id _ (_ ++ _) = Some ?found |- _ =>
               is_var found;
               unfold newProduct in Hsnoc; rewrite Hsnoc in Hl; inversion Hl; subst
           | Hl : lookupId p_id _ (_ ++ _) = None |- _ =>
               unfold newProduct in Hsnoc; rewrite Hsnoc in Hl; discriminate Hl
           end.
  all: left; unfold populated, Product.populateOne, newProduct;
    cbn [hd_error map p_categoryId categories setProducts option_map];
    repeat match goal with
           | Hc : lookupId c_id _ _ = Some _ |- _ => rewrite Hc
           end;
    reflexivity.
Qed.

(** What [updateProduct] does to the store, and what its 200 carries. *)
Lemma updateProduct_effect (env : Env) (req : Req) (w : World) :
  (store (snd (updateProduct env req w)) = store w
   /\ status (fst (updateProduct env req w)) <> 200)
  \/ exists d p,
       updateProductSchema (body req) = inr d
       /\ lookupId p_id (params_id req) (products (store w)) = Some p
       /\ (forall cid, upd_categoryId d = Some cid ->
             exists c, lookupId c_id cid (categories (store w)) = Some c)
       /\ store (snd (updateProduct env req w))
          = setProducts (replaceDoc p_id (assignProduct p d) (products (store w))) (store w)
       /\ (fst (updateProduct env req w)
           = res_json (succeed (PProduct
                                  (Some (Product.populateOne (store w) (assignProduct p d)))))
           \/ status (fst (updateProduct env req w)) = 500).
Proof.
  unfold_controllers.
  apply (wp_tryCatch _ _
           (fun r w' =>
              (store w' = store w /\ status r <> 200)
              \/ exists d p,
                   updateProductSchema (body req) = inr d
                   /\ lookupId p_id (params_id req) (products (store w)) = Some p
                   /\ (forall cid, upd_categoryId d = Some cid ->
                         exists c, lookupId c_id cid (categories (store w)) = Some c)
                   /\ store w'
                      = setProducts
                          (replaceDoc p_id (assignProduct p d) (products (store w)))
                          (store w)
                   /\ (r = res_json
                             (succeed (PProduct
                                         (Some (Product.populateOne (store w)
                                                  (assignProduct p d)))))
                       \/ status r = 500))).
  wp_run;
    try (left; split; [reflexivity | cbn; discriminate]);
    try match goal with
        | |- context [catchZod _ ?e] =>
            left; split; [reflexivity | destruct e; cbn; discriminate]
        end.
  all: cbn [p_id categories products setProducts store advance] in *;
    match goal with
    | Ha : updateProductSchema _ = inr ?a,
      Hp : lookupId p_id (params_id _) (products (store _)) = Some ?p |- _ =>
        pose proof (fun cid Hc => updateProductSchema_categoryId (cid := cid) _ Ha Hc)
          as Hcat;
        destruct (lookupId_In _ _ _ Hp) as [_ Hid];
        pose proof (assignProduct_id p a) as Hsame;
        right; exists a, p;
        split; [exact Ha | ]; split; [reflexivity | ]; split; [ | split; [reflexivity | ]]
    end.
  all: try (right; reflexivity).
  all: try (intros cid Hc; specialize (Hcat cid Hc);
            match goal with
            | Ht : whenTruthy _ = None |- _ => rewrite Hcat in Ht; discriminate Ht
            | Ht : whenTruthy _ = Some _ |- _ =>
                rewrite Hcat in Ht; inversion Ht; subst;
                match goal with
                | Hm : match lookupId c_id ?s ?l with _ => _ end = false |- _ =>
                    destruct (lookupId c_id s l) as [held | ] eqn:Hheld;
                    [exists held; reflexivity | discriminate Hm]
                end
            end).
  all: match goal with
       | Hs : lookupId p_id (p_id (assignProduct ?p ?a)) (products _) = Some _ |- _ =>
           pose proof (lookupId_replaceDoc p_id (assignProduct p a) _ Hs) as Hfound
       end.
  all: try match goal with
           | Hl : lookupId p_id _ (replaceDoc _ _ _) = Some ?found |- _ =>
               is_var found; rewrite Hfound in Hl; inversion Hl; subst
           | Hl : lookupId p_id _ (replaceDoc _ _ _) = None |- _ =>
               rewrite Hfound in Hl; discriminate Hl
           end.
  all: left; reflexivity.
Qed.

(** An empty array under [images] or [unitPrices] is what the update
    schema hands on, and what the create schema refuses. *)
Lemma updateProductSchema_empty (req : Req) (d : UpdateProductData) :
  updateProductSchema (body req) = inr d ->
  (bodyField req "images" = Some (JArr []) -> upd_images d = Some [])
  /\ (bodyField req "unitPrices" = Some (JArr []) -> upd_unitPrices d = Some []).
Proof.
  unfold updateProductSchema, bodyField, Zod.object.
  destruct (body req) as [[ | | | | | fields] | ]; cbn [Zod.andThen]; try discriminate.
  zod_cases. unfold Zod.ok. intro Heq. inversion Heq; subst.
  cbn [upd_images upd_unitPrices].
  split; intro Hb;
    match goal with
    | Ha : Zod.optional (Zod.array _ None) (assoc ?k fields) = inr ?o |- ?o = _ =>
        rewrite Hb in Ha; cbn in Ha; inversion Ha; reflexivity
    end.
Qed.

Lemma createProductSchema_needs (req : Req) (d : CreateProductData) :
  createProductSchema (body req) = inr d ->
  bodyField req "images" <> Some (JArr [])
  /\ bodyField req "unitPrices" <> Some (JArr []).
Proof.
  unfold createProductSchema, bodyField, Zod.object.
  destruct (body req) as [[ | | | | | fields] | ]; cbn [Zod.andThen]; try discriminate.
  zod_cases. unfold Zod.ok. intros _.
  split; intro Hb;
    match goal with
    | Ha : Zod.array _ (Some _) (assoc ?k fields) = inr _,
      Hk : assoc ?k fields = _ |- _ => rewrite Hk in Ha; cbn in Ha; discriminate Ha
    end.
Qed.

Lemma createProduct_refuses (env : Env) (req : Req) (w : World) :
  (forall d, createProductSchema (body req) <> inr d) ->
  status (fst (createProduct env req w)) = 400
  /\ store (snd (createProduct env req w)) = store w.
Proof.
  intro Hno. unfold_controllers.
  apply (wp_tryCatch _ _ (fun r w' => status r = 400 /\ store w' = store w)).
  wp_run;
    try match goal with
        | Ha : createProductSchema _ = inr ?a |- _ => exfalso; exact (Hno a Ha)
        end.
  split; reflexivity.
Qed.

Lemma createProduct_name_taken (env : Env) (req : Req) (w : World)
    (d : CreateProductData) (c : Category) :
  createProductSchema (body req) = inr d ->
  noFaults 2 w ->
  lookupId c_id (cp_categoryId d) (categories (store w)) = Some c ->
  In (cp_name d) (map p_name (products (store w))) ->
  fst (createProduct env req w) = nameTaken "Product"
  /\ store (snd (createProduct env req w)) = store w.
Proof.
  intros Hd Hq Hc Hin. apply noFaults_next in Hq. destruct Hq as [F1 Hq].
  apply noFaults_next in Hq. destruct Hq as [F2 _].
  destruct (find_name_Some p_name _ _ Hin) as [held Hheld].
  unfold_controllers.
  apply (wp_tryCatch _ _ (fun r w' => r = nameTaken "Product" /\ store w' = store w)).
  wp_run; cbn [faults advance store] in *; try congruence;
    try match goal with
        | Ha : createProductSchema _ = inr ?a |- _ =>
            assert (a = d) by congruence; subst a
        end;
    try congruence.
  split; reflexivity.
Qed.

(** A [createProduct] that gets through its checks and its insert, and
    whose read of the new product throws. *)
Lemma createProduct_lost_answer (env : Env) (req : Req) (w : World)
    (d : CreateProductData) (c : Category) :
  createProductSchema (body req) = inr d ->
  noFaults 3 w ->
  nth 3 (faults w) false = true ->
  lookupId c_id (cp_categoryId d) (categories (store w)) = Some c ->
  ~ In (cp_name d) (map p_name (products (store w))) ->
  ~ In (newObjectId env) (map p_id (products (store w))) ->
  fst (createProduct env req w)
  = res_status_json 500 (failure (Msg "Failed to create product"))
  /\ store (snd (createProduct env req w))
     = setProducts (products (store w) ++ [newProduct env d])%list (store w).
Proof.
  intros Hd Hq Hf Hc Hname Hid.
  apply noFaults_next in Hq. destruct Hq as [F1 Hq].
  apply noFaults_next in Hq. destruct Hq as [F2 Hq].
  apply noFaults_next in Hq. destruct Hq as [F3 _].
  assert (F4 : hd false (faults (advance (advance (advance w)))) = true).
  { cbn [faults advance]. destruct (faults w) as [ | ? [ | ? [ | ? [ | ? ?]]]];
      cbn in Hf |- *; congruence. }
  pose proof (lookupId_absent p_id _ _ Hid) as Hfresh.
  unfold_controllers.
  apply (wp_tryCatch _ _
           (fun r w' =>
              r = res_status_json 500 (failure (Msg "Failed to create product"))
              /\ store w'
                 = setProducts (products (store w) ++ [newProduct env d])%list (store w))).
  wp_run; cbn [faults advance store p_id] in *; try congruence;
    try match goal with
        | Ha : createProductSchema _ = inr ?a |- _ =>
            assert (a = d) by congruence; subst a
        end;
    cbn [p_id] in *; try congruence.
  all: try match goal with
           | Hn : find _ _ = Some _ |- _ =>
               exfalso; apply Hname; apply find_some in Hn; destruct Hn as [Hin Heq];
               apply String.eqb_eq in Heq; rewrite <- Heq; apply in_map; exact Hin
           end.
  all: split; reflexivity.
Qed.

Lemma assignProduct_valid (p : Product) (d : UpdateProductData) (v : option JSON) :
  updateProductSchema v = inr d -> validProduct p -> validProduct (assignProduct p d).
Proof.
  intros Hd [Hc [Hi [Hu Hr]]].
  destruct (updateProductSchema_sound _ Hd) as [Dc [Di [Du Dr]]].
  unfold validProduct, assignProduct;
    cbn [p_categoryId p_images p_unitPrices p_rating].
  split; [ | split; [ | split]].
  - destruct (upd_categoryId d) as [c | ]; cbn [orElse]; [exact (Dc c eq_refl) | exact Hc].
  - destruct (upd_images d) as [l | ]; cbn [orElse]; [exact (Di l eq_refl) | exact Hi].
  - destruct (upd_unitPrices d) as [l | ]; cbn [orElse]; [exact (Du l eq_refl) | exact Hu].
  - destruct (upd_rating d) as [q | ]; [exact Dr | exact Hr].
Qed.

Lemma assignProduct_stocked (p : Product) (d : UpdateProductData) :
  upd_images d <> Some [] -> upd_unitPrices d <> Some [] ->
  stocked p -> stocked (assignProduct p d).
Proof.
  intros Hi Hu [Pi Pu]. unfold stocked, assignProduct; cbn [p_images p_unitPrices].
  split.
  - destruct (upd_images d) as [l | ]; cbn [orElse]; [congruence | exact Pi].
  - destruct (upd_unitPrices d) as [l | ]; cbn [orElse]; [congruence | exact Pu].
Qed.

Lemma newProduct_valid (env : Env) (d : CreateProductData) (v : option JSON) :
  createProductSchema v = inr d ->
  validProduct (newProduct env d) /\ stocked (newProduct env d).
Proof.
  intro Hd. destruct (createProductSchema_sound _ Hd) as [Hc [Hi [Hi' [Hu [Hu' Hr]]]]].
  unfold validProduct, stocked, newProduct;
    cbn [p_categoryId p_images p_unitPrices p_rating].
  split; [split; [exact Hc | split; [exact Hi | split; [exact Hu | exact Hr]]] | ].
  split; [exact Hi' | exact Hu'].
Qed.

End ProductSchemaFacts.

Lemma deleteProduct_effect (env : Env) (req : Req) (w : World) :
  (status (fst (deleteProduct env req w)) = 200
   /\ (exists p, lookupId p_id (params_id req) (products (store w)) = Some p)
   /\ store (snd (deleteProduct env req w))
      = setProducts (deleteOne p_id (params_id req) (products (store w))) (store w))
  \/ (status (fst (deleteProduct env req w)) <> 200
      /\ store (snd (deleteProduct env req w)) = store w).
Proof.
  unfold_controllers.
  apply (wp_tryCatch _ _
           (fun r w' =>
              (status r = 200
               /\ (exists p, lookupId p_id (params_id req) (products (store w)) = Some p)
               /\ store w'
                  = setProducts (deleteOne p_id (params_id req) (products (store w)))
                      (store w))
              \/ (status r <> 200 /\ store w' = store w))).
  wp_run; try (right; split; [cbn; discriminate | reflexivity]).
  left. split; [reflexivity | ]. split; [eexists; reflexivity | reflexivity].
Qed.

Lemma getProductById_found (env : Env) (req : Req) (w : World) :
  noFaults 2 w ->
  fst (getProductById env req w)
  = match lookupId p_id (params_id req) (products (store w)) with
    | Some p => res_json (succeed (PProduct (Some (Product.populateOne (store w) p))))
    | None => notFound "Product"
    end.
Proof.
  intro Hq. apply noFaults_next in Hq. destruct Hq as [F1 Hq].
  apply noFaults_next in Hq. destruct Hq as [F2 _].
  unfold_controllers.
  apply (wp_tryCatch _ _
           (fun r _ => r = match lookupId p_id (params_id req) (products (store w)) with
                           | Some p =>
                               res_json (succeed (PProduct
                                                    (Some (Product.populateOne (store w) p))))
                           | None => notFound "Product"
                           end)).
  wp_run; cbn [faults advance store hd_error map] in *; try congruence; reflexivity.
Qed.

Section ProductsKept.
Context `{Externals}.

Lemma run_valid (c : Controller) (env : Env) (req : Req) (w : World) :
  Forall validProduct (products (store w)) ->
  Forall validProduct (products (store (snd (run c env req w)))).
Proof.
  intro Hv. destruct (writesProducts c) eqn:Hw.
  - destruct c; try discriminate Hw; cbn [run].
    + destruct (createProduct_effect env req w) as [[-> _] | [d [c [Hd [_ [_ [_ [-> _]]]]]]]];
        [exact Hv | ].
      cbn [products setProducts]. apply Forall_app. split; [exact Hv | ].
      constructor; [ | constructor]. exact (proj1 (@newProduct_valid _ env _ _ Hd)).
    + destruct (updateProduct_effect env req w) as [[-> _] | [d [p [Hd [Hp [_ [-> _]]]]]]];
        [exact Hv | ].
      cbn [products setProducts]. apply Forall_forall. intros x Hx.
      apply replaceDoc_In in Hx. destruct Hx as [-> | Hx].
      * apply (@assignProduct_valid _ _ _ _ Hd).
        apply (proj1 (Forall_forall _ _) Hv). exact (proj1 (lookupId_In _ _ _ Hp)).
      * exact (proj1 (Forall_forall _ _) Hv x Hx).
    + destruct (deleteProduct_effect env req w) as [[_ [_ ->]] | [_ ->]]; [ | exact Hv].
      cbn [products setProducts]. apply Forall_forall. intros x Hx.
      apply deleteOne_In in Hx. exact (proj1 (Forall_forall _ _) Hv x Hx).
  - rewrite (run_keeps_products c env req w Hw). exact Hv.
Qed.

Lemma run_stocked (c : Controller) (env : Env) (req : Req) (w : World) :
  (c = UpdateProduct ->
   bodyField req "images" <> Some (JArr []) /\ bodyField req "unitPrices" <> Some (JArr [])) ->
  Forall stocked (products (store w)) ->
  Forall stocked (products (store (snd (run c env req w)))).
Proof.
  intros Hb Hv. destruct (writesProducts c) eqn:Hw.
  - destruct c; try discriminate Hw; cbn [run].
    + destruct (createProduct_effect env req w) as [[-> _] | [d [c [Hd [_ [_ [_ [-> _]]]]]]]];
        [exact Hv | ].
      cbn [products setProducts]. apply Forall_app. split; [exact Hv | ].
      constructor; [ | constructor]. exact (proj2 (@newProduct_valid _ env _ _ Hd)).
    + destruct (updateProduct_effect env req w) as [[-> _] | [d [p [Hd [Hp [_ [-> _]]]]]]];
        [exact Hv | ].
      destruct (Hb eq_refl) as [Bi Bu].
      destruct (updateProductSchema_arrays _ Hd) as [Ai Au].
      cbn [products setProducts]. apply Forall_forall. intros x Hx.
      apply replaceDoc_In in Hx. destruct Hx as [-> | Hx].
      * apply assignProduct_stocked; [exact (Ai Bi) | exact (Au Bu) | ].
        apply (proj1 (Forall_forall _ _) Hv). exact (proj1 (lookupId_In _ _ _ Hp)).
      * exact (proj1 (Forall_forall _ _) Hv x Hx).
    + destruct (deleteProduct_effect env req w) as [[_ [_ ->]] | [_ ->]]; [ | exact Hv].
      cbn [products setProducts]. apply Forall_forall. intros x Hx.
      apply deleteOne_In in Hx. exact (proj1 (Forall_forall _ _) Hv x Hx).
  - rewrite (run_keeps_products c env req w Hw). exact Hv.
Qed.

End ProductsKept.

(** X9.  What the create schema checks of a product is kept by every
    controller: when every stored product has a category identifier of
    24 hexadecimal digits, image URLs, unit prices with a unit of the
    enum, positive step, quantity and prices and a stock that is not
    negative, and a rating between 0 and 5, so has every product stored
    afterwards, whatever store calls throw.  That every product has an
    image and a unit price is kept as well, unless [updateProduct] is
    sent the empty array under [images] or [unitPrices]. *)
Theorem X9_stored_products_stay_valid :
  forall (E : Externals) (c : Controller) (env : Env) (req : Req) (w : World),
    Forall validProduct (products (store w)) ->
    Forall validProduct (products (store (snd (run c env req w))))
    /\ ((c = UpdateProduct ->
         bodyField req "images" <> Some (JArr [])
         /\ bodyField req "unitPrices" <> Some (JArr [])) ->
        Forall stocked (products (store w)) ->
        Forall stocked (products (store (snd (run c env req w))))).
Proof.
  intros E c env req w Hv. split.
  - exact (@run_valid E c env req w Hv).
  - exact (@run_stocked E c env req w).
Qed.

(** X10.  [createProduct] refuses a body whose [images] or [unitPrices]
    is the empty array, with 400 and nothing written; [updateProduct]
    accepts it: when it answers 200, the product stored under the
    requested identifier has no image, or no unit price, left. *)
Theorem X10_update_empties_what_create_requires :
  forall (E : Externals) (env : Env) (req : Req) (w : World),
    bodyField req "images" = Some (JArr [])
    \/ bodyField req "unitPrices" = Some (JArr []) ->
    (status (fst (createProduct env req w)) = 400
     /\ store (snd (createProduct env req w)) = store w)
    /\ (status (fst (updateProduct env req w)) = 200 ->
        exists p,
          lookupId p_id (params_id req) (products (store (snd (updateProduct env req w))))
          = Some p
          /\ (bodyField req "images" = Some (JArr []) -> p_images p = [])
          /\ (bodyField req "unitPrices" = Some (JArr []) -> p_unitPrices p = [])
          /\ ~ stocked p).
Proof.
  intros E env req w Hb. split.
  - apply createProduct_refuses. intros d Hd.
    destruct (createProductSchema_needs _ Hd) as [Hi Hu].
    destruct Hb as [Hb | Hb]; [exact (Hi Hb) | exact (Hu Hb)].
  - intro Hs.
    destruct (updateProduct_effect env req w) as [[_ Hne] | [d [p [Hd [Hp [_ [Hst _]]]]]]];
      [contradiction | ].
    destruct (updateProductSchema_empty _ Hd) as [Ei Eu].
    destruct (lookupId_In _ _ _ Hp) as [_ Hid].
    exists (assignProduct p d). rewrite Hst. cbn [products setProducts].
    split.
    + rewrite <- Hid. rewrite <- (assignProduct_id p d) at 1.
      apply (lookupId_replaceDoc p_id (assignProduct p d) (x := p)).
      rewrite (assignProduct_id p d), Hid. exact Hp.
    + assert (Hi : bodyField req "images" = Some (JArr []) -> p_images (assignProduct p d) = []).
      { intro Hi. cbn [assignProduct p_images]. rewrite (Ei Hi). reflexivity. }
      assert (Hu : bodyField req "unitPrices" = Some (JArr [])
                   -> p_unitPrices (assignProduct p d) = []).
      { intro Hu. cbn [assignProduct p_unitPrices]. rewrite (Eu Hu). reflexivity. }
      split; [exact Hi | ]. split; [exact Hu | ].
      intros [Si Su]. destruct Hb as [Hb | Hb]; [exact (Si (Hi Hb)) | exact (Su (Hu Hb))].
Qed.

(** X11.  A product [createProduct] answered 201 for is stored under the
    new identifier and carries its category populated as identifier and
    name; the category is one that is stored; and a [getProductById]
    for the new identifier right afterwards, with no store call
    throwing, answers 200 with the same populated product. *)
Theorem X11_created_product_is_found :
  forall (E : Externals) (env : Env) (req : Req) (w : World) (env' : Env) (req' : Req),
    status (fst (createProduct env req w)) = 201 ->
    params_id req' = newObjectId env ->
    noFaults 2 (snd (createProduct env req w)) ->
    exists d c,
      createProductSchema (body req) = inr d
      /\ In c (categories (store w)) /\ c_id c = cp_categoryId d
      /\ fst (createProduct env req w)
         = res_status_json 201 (succeed (PProduct (Some (populated (newProduct env d) c))))
      /\ fst (getProductById env' req' (snd (createProduct env req w)))
         = res_json (succeed (PProduct (Some (populated (newProduct env d) c)))).
Proof.
  intros E env req w env' req' Hs Hid Hq.
  destruct (createProduct_effect env req w)
    as [[_ Hne] | [d [c [Hd [Hc [_ [Hfresh [Hst Hr]]]]]]]]; [contradiction | ].
  destruct Hr as [Hr | Hr]; [ | rewrite Hr in Hs; discriminate Hs].
  destruct (lookupId_In _ _ _ Hc) as [Hin Hcid].
  exists d, c. split; [exact Hd | ]. split; [exact Hin | ]. split; [exact Hcid | ].
  split; [exact Hr | ].
  rewrite (getProductById_found env' req' Hq), Hid, Hst.
  cbn [products setProducts].
  pose proof (lookupId_snoc p_id (newProduct env d) _ Hfresh) as Hsnoc.
  change (p_id (newProduct env d)) with (newObjectId env) in Hsnoc. rewrite Hsnoc.
  unfold populated, Product.populateOne. cbn [categories setProducts p_categoryId newProduct].
  rewrite Hc. reflexivity.
Qed.

(** X12.  After a [deleteProduct] that answered 200, in a store whose
    product identifiers are pairwise different, a [getProductById] for
    the same identifier answers 404 'Product not found', every other
    product is still stored, there is one product less and the
    categories are as they were; a [deleteProduct] that did not answer
    200 changed nothing. *)
Theorem X12_deleted_product_is_gone :
  forall (env : Env) (req : Req) (w : World) (env' : Env) (req' : Req),
    NoDup (map p_id (products (store w))) ->
    (status (fst (deleteProduct env req w)) = 200 ->
       (params_id req' = params_id req ->
        noFaults 2 (snd (deleteProduct env req w)) ->
        fst (getProductById env' req' (snd (deleteProduct env req w))) = notFound "Product")
       /\ (forall p, In p (products (store w)) -> p_id p <> params_id req ->
             In p (products (store (snd (deleteProduct env req w)))))
       /\ S (List.length (products (store (snd (deleteProduct env req w)))))
          = List.length (products (store w))
       /\ categories (store (snd (deleteProduct env req w))) = categories (store w))
    /\ (status (fst (deleteProduct env req w)) <> 200 ->
        store (snd (deleteProduct env req w)) = store w).
Proof.
  intros env req w env' req' Hnd.
  destruct (deleteProduct_effect env req w) as [[Hs [[p Hp] Hst]] | [Hs Hst]].
  - split; [ | intro Hne; contradiction]. intros _.
    split; [ | split; [ | split]].
    + intros Hid Hq. rewrite (getProductById_found env' req' Hq), Hid, Hst.
      cbn [products setProducts].
      rewrite (lookupId_absent p_id _ _ (deleteOne_removes p_id (params_id req) _ Hnd)).
      reflexivity.
    + intros x Hx Hne. rewrite Hst. cbn [products setProducts].
      apply deleteOne_keeps; assumption.
    + rewrite Hst. cbn [products setProducts]. exact (deleteOne_length p_id _ _ Hp).
    + rewrite Hst. reflexivity.
  - split; [intro Hok; contradiction | intros _; exact Hst].
Qed.

(** X13.  [createProduct] is not atomic: when the body passes
    validation, the category exists, neither the name nor the new
    identifier is taken, the first three store calls go through and
    the read of the new product throws, the answer is 500 'Failed to
    create product' although the product has been inserted; the same
    request sent again is then refused with 400 'Product with this name
    already exists'. *)
Theorem X13_createProduct_can_fail_after_its_insert :
  forall (E : Externals) (env : Env) (req : Req) (w : World)
         (d : CreateProductData) (c : Category),
    createProductSchema (body req) = inr d ->
    lookupId c_id (cp_categoryId d) (categories (store w)) = Some c ->
    ~ In (cp_name d) (map p_name (products (store w))) ->
    ~ In (newObjectId env) (map p_id (products (store w))) ->
    noFaults 3 w -> nth 3 (faults w) false = true ->
    fst (createProduct env req w)
    = res_status_json 500 (failure (Msg "Failed to create product"))
    /\ products (store (snd (createProduct env req w)))
       = (products (store w) ++ [newProduct env d])%list
    /\ forall env',
         noFaults 2 (snd (createProduct env req w)) ->
         fst (createProduct env' req (snd (createProduct env req w))) = nameTaken "Product"
         /\ store (snd (createProduct env' req (snd (createProduct env req w))))
            = store (snd (createProduct env req w)).
Proof.
  intros E env req w d c Hd Hc Hname Hid Hq Hf.
  destruct (createProduct_lost_answer env req Hd Hq Hf Hc Hname Hid) as [Hr Hst].
  split; [exact Hr | ]. split; [rewrite Hst; reflexivity | ].
  intros env' Hq'.
  apply (@createProduct_name_taken E env' req _ d c Hd Hq').
  - rewrite Hst. exact Hc.
  - rewrite Hst. cbn [products setProducts]. rewrite map_app. apply in_or_app.
    right. left. reflexivity.
Qed.

(* ===================================================================== *)
(** ** Further properties: orders *)
(* ===================================================================== *)

Lemma getOrderById_found (env : Env) (req : Req) (w : World) :
  noFaults 2 w ->
  fst (getOrderById env req w)
  = match lookupId o_id (params_id req) (orders (store w)) with
    | Some o => res_json (succeed (POrder (Some (Order.populateOne (store w) o))))
    | None => notFound "Order"
    end.
Proof.
  intro Hq. apply noFaults_next in Hq. destruct Hq as [F1 Hq].
  apply noFaults_next in Hq. destruct Hq as [F2 _].
  unfold_controllers.
  apply (wp_tryCatch _ _
           (fun r _ => r = match lookupId o_id (params_id req) (orders (store w)) with
                           | Some o =>
                               res_json (succeed (POrder
                                                    (Some (Order.populateOne (store w) o))))
                           | None => notFound "Order"
                           end)).
  wp_run; cbn [faults advance store hd_error map] in *; try congruence; reflexivity.
Qed.

(** What [updateOrderStatus] answers when no store call throws. *)
Lemma updateOrderStatus_answer (env : Env) (req : Req) (w : World)
    (o : Order) (st : string) :
  updateOrderStatusSchema (body req) = inr st ->
  lookupId o_id (params_id req) (orders (store w)) = Some o ->
  noFaults 4 w ->
  fst (updateOrderStatus env req w)
  = res_json (succeedMsg
                (POrder (Some (setStatus o st,
                               snd (Order.populateOne (store w) o))))
                "Order status updated successfully")
  /\ store (snd (updateOrderStatus env req w))
     = setOrders (replaceDoc o_id (setStatus o st) (orders (store w))) (store w).
Proof.
  intros Hst Ho Hq.
  apply noFaults_next in Hq. destruct Hq as [F1 Hq].
  apply noFaults_next in Hq. destruct Hq as [F2 Hq].
  apply noFaults_next in Hq. destruct Hq as [F3 Hq].
  apply noFaults_next in Hq. destruct Hq as [F4 _].
  destruct (lookupId_In _ _ _ Ho) as [_ Hid].
  assert (Hsaved : lookupId o_id (o_id (setStatus o st))
                     (replaceDoc o_id (setStatus o st) (orders (store w)))
                   = Some (setStatus o st)).
  { apply (lookupId_replaceDoc o_id (setStatus o st) (x := o)).
    cbn [setStatus o_id]. rewrite Hid. exact Ho. }
  unfold_controllers.
  apply (wp_tryCatch _ _
           (fun r w' =>
              r = res_json (succeedMsg
                              (POrder (Some (setStatus o st,
                                             snd (Order.populateOne (store w) o))))
                              "Order status updated successfully")
              /\ store w'
                 = setOrders (replaceDoc o_id (setStatus o st) (orders (store w)))
                     (store w))).
  wp_run; cbn [faults advance store orders setOrders] in *; try congruence;
    try match goal with
        | Ha : updateOrderStatusSchema _ = inr ?a |- _ =>
            assert (a = st) by congruence; subst a
        end;
    try match goal with
        | Hl : lookupId o_id (params_id _) _ = Some ?x |- _ =>
            assert (x = o) by congruence; subst x
        end;
    try congruence.
  all: try match goal with
           | Hn : lookupId o_id (o_id (setStatus _ _)) (orders _) = None |- _ =>
               cbn [setStatus o_id] in Hn; rewrite Hid in Hn; congruence
           end.
  all: match goal with
       | Hl : lookupId o_id _ (replaceDoc _ _ _) = Some ?found |- _ =>
           rewrite Hsaved in Hl; inversion Hl; subst
       end.
  all: split; reflexivity.
Qed.

Section OrdersKept.
Context `{Externals}.


End OrdersKept.

Lemma updateOrderStatusSchema_of_field (req : Req) (st : string) :
  bodyField req "status" = Some (JStr st) -> In st orderStatuses ->
  updateOrderStatusSchema (body req) = inr st.
Proof.
  unfold updateOrderStatusSchema, bodyField, Zod.object, Zod.enum, Zod.andThen, Zod.ok.
  destruct (body req) as [[ | | | | | fields] | ]; try discriminate.
  intros -> Hin. apply existsb_eqb_In in Hin. rewrite Hin. reflexivity.
Qed.

Lemma count_out_for_delivery (l : list Order) :
  (forall o, In o l -> In (o_status o) orderStatuses) ->
  totalOrders (tally l)
  = pendingOrders (tally l) + deliveredOrders (tally l) + cancelledOrders (tally l)
    + List.length (filter (statusIs "out_for_delivery") l).
Proof.
  induction l as [ | o l IH]; intro Hin; [reflexivity | ].
  cbn [tally fold_right tallyOrder totalOrders pendingOrders deliveredOrders
       cancelledOrders filter].
  change (fold_right tallyOrder noStats l) with (tally l).
  rewrite (IH (fun o' Ho' => Hin o' (or_intror Ho'))).
  unfold statusIs.
  destruct (Hin o (or_introl eq_refl)) as [<- | [<- | [<- | [<- | [<- | [<- | []]]]]]];
    cbn [String.eqb Ascii.eqb Bool.eqb orb List.length]; lia.
Qed.

Lemma count_at_most (l : list Order) :
  pendingOrders (tally l) + deliveredOrders (tally l) + cancelledOrders (tally l)
  <= totalOrders (tally l).
Proof.
  induction l as [ | o l IH]; [cbn; lia | ].
  cbn [tally fold_right tallyOrder totalOrders pendingOrders deliveredOrders cancelledOrders].
  change (fold_right tallyOrder noStats l) with (tally l).
  destruct (String.eqb_spec (o_status o) "placed") as [-> | ?];
    [cbn; lia | ].
  destruct (String.eqb_spec (o_status o) "confirmed") as [-> | ?];
    [cbn; lia | ].
  destruct (String.eqb_spec (o_status o) "preparing") as [-> | ?];
    [cbn; lia | ].
  destruct (String.eqb_spec (o_status o) "delivered") as [-> | ?];
    [cbn; lia | ].
  destruct (String.eqb_spec (o_status o) "cancelled") as [? | ?];
    cbn; lia.
Qed.

(** What the orders router allows on its paths. *)
Example orders_router_allows :
  allowed ordersRouter "/" = [GET; HEAD]
  /\ allowed ordersRouter "/stats" = [GET; HEAD]
  /\ allowed ordersRouter "/o1/status" = [PATCH]
  /\ allowed ordersRouter "/o1/status/now" = [].
Proof. repeat split. Qed.


(** X15.  [updateOrderStatus] accepts every status of the enum for every
    stored order, whatever status the order has: with no store call
    throwing it answers 200 with the order under its new status and its
    user populated, and the message; every other order stays as it is;
    and the same request sent again leaves the store as it is and is
    answered the same. *)
Theorem X15_any_status_change_is_accepted :
  forall (env : Env) (req : Req) (w : World) (o : Order) (st : string),
    bodyField req "status" = Some (JStr st) -> In st orderStatuses ->
    lookupId o_id (params_id req) (orders (store w)) = Some o ->
    noFaults 4 w ->
    fst (updateOrderStatus env req w)
    = res_json (succeedMsg
                  (POrder (Some (setStatus o st, snd (Order.populateOne (store w) o))))
                  "Order status updated successfully")
    /\ lookupId o_id (params_id req) (orders (store (snd (updateOrderStatus env req w))))
       = Some (setStatus o st)
    /\ (forall id, id <> params_id req ->
          lookupId o_id id (orders (store (snd (updateOrderStatus env req w))))
          = lookupId o_id id (orders (store w)))
    /\ (forall env',
          noFaults 4 (snd (updateOrderStatus env req w)) ->
          fst (updateOrderStatus env' req (snd (updateOrderStatus env req w)))
          = fst (updateOrderStatus env req w)
          /\ store (snd (updateOrderStatus env' req (snd (updateOrderStatus env req w))))
             = store (snd (updateOrderStatus env req w))).
Proof.
  intros env req w o st Hf Hin Ho Hq.
  pose proof (updateOrderStatusSchema_of_field req Hf Hin) as Hs.
  destruct (updateOrderStatus_answer env req Hs Ho Hq) as [Hr Hst].
  destruct (lookupId_In _ _ _ Ho) as [_ Hid].
  assert (Hsaved : lookupId o_id (params_id req)
                     (replaceDoc o_id (setStatus o st) (orders (store w)))
                   = Some (setStatus o st)).
  { rewrite <- Hid at 1. apply (lookupId_replaceDoc o_id (setStatus o st) (x := o)).
    cbn [setStatus o_id]. rewrite Hid. exact Ho. }
  split; [exact Hr | ]. split; [rewrite Hst; exact Hsaved | ].
  split.
  - intros id Hne. rewrite Hst. cbn [orders setOrders].
    apply lookupId_replaceDoc_other. cbn [setStatus o_id]. rewrite Hid.
    intro Heq. apply Hne. symmetry. exact Heq.
  - intros env' Hq'.
    assert (Ho' : lookupId o_id (params_id req)
                    (orders (store (snd (updateOrderStatus env req w))))
                  = Some (setStatus o st)) by (rewrite Hst; exact Hsaved).
    destruct (updateOrderStatus_answer env' req Hs Ho' Hq') as [Hr' Hst'].
    rewrite Hr', Hst', Hr, Hst.
    cbn [orders setOrders users]. split.
    + reflexivity.
    + assert (Hagain : setStatus (setStatus o st) st = setStatus o st) by reflexivity.
      rewrite Hagain. rewrite replaceDoc_twice. reflexivity.
Qed.

(** X16.  The three counts of [getOrderStats] leave out the orders that
    are out for delivery: with no store call throwing, the pending, the
    delivered and the cancelled orders are together at most
    [totalOrders], and when every stored order has a status of the enum,
    [totalOrders] is their sum plus the number of orders out for
    delivery. *)
Theorem X16_order_counts_add_up :
  forall (E : Externals) (env : Env) (req : Req) (w : World),
    noFaults 5 w ->
    exists st,
      fst (getOrderStats env req w) = res_json (succeed (PStats st))
      /\ pendingOrders st + deliveredOrders st + cancelledOrders st <= totalOrders st
      /\ (statusesInEnum (store w) ->
          totalOrders st
          = pendingOrders st + deliveredOrders st + cancelledOrders st
            + List.length (filter (statusIs "out_for_delivery") (orders (store w)))).
Proof.
  intros E env req w Hq.
  destruct (@getOrderStats_tally E env req w Hq) as [st [Hr [[Ht [Hp [Hd Hc]]] _]]].
  exists st. split; [exact Hr | ]. rewrite Ht, Hp, Hd, Hc. split.
  - apply count_at_most.
  - intro Henum. apply count_out_for_delivery. exact Henum.
Qed.

(* ===================================================================== *)
(** ** Further properties: populated references *)
(* ===================================================================== *)

(** X17.  [getProductById] and [getOrderById], with no store call
    throwing, answer 404 for an identifier that is not stored, and
    otherwise 200 with the document and its reference populated: a
    product carries the identifier and the name of its category, an
    order the identifier, name, email and phone of its user, and either
    carries [null] when what it refers to is not stored. *)
Theorem X17_references_are_populated_or_null :
  forall (env : Env) (req : Req) (w : World),
    noFaults 2 w ->
    (forall p,
        lookupId p_id (params_id req) (products (store w)) = Some p ->
        (forall c,
            NoDup (map c_id (categories (store w))) ->
            In c (categories (store w)) -> c_id c = p_categoryId p ->
            fst (getProductById env req w)
            = res_json (succeed (PProduct (Some (populated p c)))))
        /\ (~ In (p_categoryId p) (map c_id (categories (store w))) ->
            fst (getProductById env req w)
            = res_json (succeed (PProduct (Some (p, None))))))
    /\ (forall o,
           lookupId o_id (params_id req) (orders (store w)) = Some o ->
           (forall u,
               NoDup (map u_id (users (store w))) ->
               In u (users (store w)) -> u_id u = o_userId o ->
               fst (getOrderById env req w)
               = res_json (succeed (POrder
                    (Some (o, Some (mkUserRef (u_id u) (u_name u) (u_email u) (u_phone u)))))))
           /\ (~ In (o_userId o) (map u_id (users (store w))) ->
               fst (getOrderById env req w)
               = res_json (succeed (POrder (Some (o, None))))))
    /\ (~ In (params_id req) (map p_id (products (store w))) ->
        fst (getProductById env req w) = notFound "Product")
    /\ (~ In (params_id req) (map o_id (orders (store w))) ->
        fst (getOrderById env req w) = notFound "Order").
Proof.
  intros env req w Hq.
  rewrite (getProductById_found env req Hq), (getOrderById_found env req Hq).
  split; [ | split; [ | split]].
  - intros p Hp. rewrite Hp. unfold Product.populateOne, populated. split.
    + intros c Hnd Hin Hid. rewrite <- Hid.
      rewrite (lookupId_unique c_id c _ Hnd Hin). reflexivity.
    + intro Hno. rewrite (lookupId_absent c_id _ _ Hno). reflexivity.
  - intros o Ho. rewrite Ho. unfold Order.populateOne. split.
    + intros u Hnd Hin Hid. rewrite <- Hid.
      rewrite (lookupId_unique u_id u _ Hnd Hin). reflexivity.
    + intro Hno. rewrite (lookupId_absent u_id _ _ Hno). reflexivity.
  - intro Hno. rewrite (lookupId_absent p_id _ _ Hno). reflexivity.
  - intro Hno. rewrite (lookupId_absent o_id _ _ Hno). reflexivity.
Qed.

(** X18.  The products of a deleted category stay, and lose it: after a
    [deleteCategory] that answered 200, in a store whose category
    identifiers are pairwise different, a product that referred to the
    deleted category is still stored, unchanged, and [getProductById]
    answers it with [null] for its category. *)
Theorem X18_products_of_a_deleted_category :
  forall (env : Env) (req : Req) (w : World) (env' : Env) (req' : Req) (p : Product),
    NoDup (map c_id (categories (store w))) ->
    status (fst (deleteCategory env req w)) = 200 ->
    lookupId p_id (params_id req') (products (store w)) = Some p ->
    p_categoryId p = params_id req ->
    noFaults 2 (snd (deleteCategory env req w)) ->
    products (store (snd (deleteCategory env req w))) = products (store w)
    /\ fst (getProductById env' req' (snd (deleteCategory env req w)))
       = res_json (succeed (PProduct (Some (p, None)))).
Proof.
  intros env req w env' req' p Hnd Hs Hp Hc Hq.
  destruct (deleteCategory_effect env req w) as [[_ [_ Hst]] | [Hne _]]; [ | contradiction].
  split; [rewrite Hst; reflexivity | ].
  rewrite (getProductById_found env' req' Hq), Hst. cbn [products setCategories].
  rewrite Hp. unfold Product.populateOne. cbn [categories setCategories]. rewrite Hc.
  rewrite (lookupId_absent c_id _ _ (deleteOne_removes c_id (params_id req) _ Hnd)).
  reflexivity.
Qed.

(* ===================================================================== *)
(** ** Further properties: the profile of the administrator *)
(* ===================================================================== *)

Lemma splitAcc_whole (sep : ascii) (acc s : string) :
  Str.allChars (fun c => negb (Ascii.eqb c sep)) s = true ->
  Str.splitAcc sep acc s = [(acc ++ s)%string].
Proof.
  revert acc. induction s as [ | c s IH]; intros acc Hs.
  - cbn. replace (acc ++ "")%string with acc; [reflexivity | ].
    induction acc as [ | a acc IHa]; cbn; [reflexivity | f_equal; exact IHa].
  - cbn [Str.allChars] in Hs.
    apply andb_true_iff in Hs. destruct Hs as [Hc Hs].
    cbn [Str.splitAcc]. apply negb_true_iff in Hc. rewrite Hc.
    rewrite (IH _ Hs). f_equal.
    clear. induction acc as [ | a acc IHa]; cbn; [reflexivity | f_equal; exact IHa].
Qed.

Lemma splitAcc_first (sep : ascii) (acc a b : string) :
  Str.allChars (fun c => negb (Ascii.eqb c sep)) a = true ->
  Str.splitAcc sep acc (a ++ String sep b)
  = (acc ++ a)%string :: Str.splitAcc sep EmptyString b.
Proof.
  revert acc. induction a as [ | c a IH]; intros acc Hs.
  - cbn. rewrite Ascii.eqb_refl. f_equal.
    induction acc as [ | x acc IHa]; cbn; [reflexivity | f_equal; exact IHa].
  - cbn [Str.allChars] in Hs.
    apply andb_true_iff in Hs. destruct Hs as [Hc Hs].
    cbn [Str.splitAcc String.append]. apply negb_true_iff in Hc. rewrite Hc.
    rewrite (IH _ Hs). f_equal.
    clear. induction acc as [ | x acc IHa]; cbn; [reflexivity | f_equal; exact IHa].
Qed.

Section Profile.
Context `{Externals}.

Lemma getAdminProfile_granted (env : Env) (req : Req) (w : World) :
  status (fst (getAdminProfile env req w)) = 200 ->
  exists secret token u,
    jwtSecret env = Some secret
    /\ bearerToken (authorization req) = Some token
    /\ jwtVerify token secret = Some (Some (u_id u))
    /\ In u (users (store w))
    /\ u_role u = "admin"
    /\ fst (getAdminProfile env req w) = res_json (succeed (PProfile (viewOf u))).
Proof.
  unfold_controllers.
  apply (wp_tryCatch _ _
           (fun r _ =>
              status r = 200 ->
              exists secret token u,
                jwtSecret env = Some secret
                /\ bearerToken (authorization req) = Some token
                /\ jwtVerify token secret = Some (Some (u_id u))
                /\ In u (users (store w))
                /\ u_role u = "admin"
                /\ r = res_json (succeed (PProfile (viewOf u))))).
  wp_run; try (cbn; discriminate).
  intros _.
  match goal with
  | Hu : lookupId u_id _ _ = Some ?u |- _ =>
      destruct (lookupId_In _ _ _ Hu) as [Hin Hid]; eexists; eexists; exists u
  end.
  split; [first [reflexivity | eassumption] | ].
  split; [first [reflexivity | eassumption] | ].
  split; [rewrite Hid; first [reflexivity | eassumption] | ].
  split; [exact Hin | ]. split; [ | reflexivity].
  match goal with
  | Hr : negb (String.eqb _ "admin") = false |- _ =>
      apply negb_false_iff in Hr; apply String.eqb_eq in Hr; exact Hr
  end.
Qed.

Lemma getAdminProfile_answer (env : Env) (req : Req) (w : World)
    (secret token : string) (id : option string) :
  jwtSecret env = Some secret ->
  bearerToken (authorization req) = Some token ->
  jwtVerify token secret = Some id ->
  fst (getAdminProfile env req w)
  = if hd false (faults w) then invalidToken
    else match id with
         | Some id =>
             match lookupId u_id id (users (store w)) with
             | Some u =>
                 if String.eqb (u_role u) "admin"
                 then res_json (succeed (PProfile (viewOf u)))
                 else adminRequired
             | None => adminRequired
             end
         | None => adminRequired
         end.
Proof.
  intros Hs Ht Hv. unfold_controllers.
  rewrite Hs, Ht, Hv.
  apply (wp_tryCatch _ _
           (fun r _ =>
              r = if hd false (faults w) then invalidToken
                  else match id with
                       | Some id =>
                           match lookupId u_id id (users (store w)) with
                           | Some u =>
                               if String.eqb (u_role u) "admin"
                               then res_json (succeed (PProfile (viewOf u)))
                               else adminRequired
                           | None => adminRequired
                           end
                       | None => adminRequired
                       end)).
  wp_run;
    repeat match goal with
           | Hf : hd false (faults w) = _ |- _ => rewrite Hf; clear Hf
           end;
    try reflexivity.
  all: match goal with
       | Hr : negb (String.eqb ?r "admin") = _ |- _ =>
           destruct (String.eqb r "admin"); cbn in Hr; try discriminate Hr; reflexivity
       end.
Qed.

End Profile.

(** X19.  [getAdminProfile] answers 200 only to a request whose
    [authorization] header carries, after its first space, a token that
    [jwt.verify] accepts under [JWT_SECRET] and that names a stored user
    of role 'admin'; the profile is that user's.  Without a
    [JWT_SECRET] the answer is 500 'JWT_SECRET is not configured',
    without a token 401 'Access token required', with a token that is
    refused 401 'Invalid token'; a token that is accepted is answered by
    the user it names: 403 'Admin access required' when there is none or
    it is no administrator, and 401 'Invalid token' when the look-up of
    the user throws. *)
Theorem X19_profile_needs_the_token_of_an_admin :
  forall (E : Externals) (env : Env) (req : Req) (w : World),
    (status (fst (getAdminProfile env req w)) = 200 ->
     exists secret token u,
       jwtSecret env = Some secret
       /\ bearerToken (authorization req) = Some token
       /\ jwtVerify token secret = Some (Some (u_id u))
       /\ In u (users (store w))
       /\ u_role u = "admin"
       /\ fst (getAdminProfile env req w) = res_json (succeed (PProfile (viewOf u))))
    /\ (jwtSecret env = None -> fst (getAdminProfile env req w) = secretMissing)
    /\ (forall secret,
          jwtSecret env = Some secret ->
          (bearerToken (authorization req) = None ->
           fst (getAdminProfile env req w) = tokenRequired)
          /\ (forall token,
                bearerToken (authorization req) = Some token ->
                (jwtVerify token secret = None ->
                 fst (getAdminProfile env req w) = invalidToken)
                /\ (forall id,
                      jwtVerify token secret = Some id ->
                      (hd false (faults w) = true ->
                       fst (getAdminProfile env req w) = invalidToken)
                      /\ (hd false (faults w) = false ->
                          fst (getAdminProfile env req w)
                          = match id with
                            | Some id =>
                                match lookupId u_id id (users (store w)) with
                                | Some u =>
                                    if String.eqb (u_role u) "admin"
                                    then res_json (succeed (PProfile (viewOf u)))
                                    else adminRequired
                                | None => adminRequired
                                end
                            | None => adminRequired
                            end)))).
Proof.
  intros E env req w. split; [exact (@getAdminProfile_granted E env req w) | ].
  split.
  - intro Hs. unfold getAdminProfile, tryCatch. rewrite Hs. reflexivity.
  - intros secret Hs. split.
    + intro Ht. unfold getAdminProfile, tryCatch. rewrite Hs, Ht. reflexivity.
    + intros token Ht. split.
      * intro Hv. unfold getAdminProfile, tryCatch. rewrite Hs, Ht, Hv. reflexivity.
      * intros id Hv.
        rewrite (@getAdminProfile_answer E env req w secret token id Hs Ht Hv).
        split; intros ->; reflexivity.
Qed.

(** X20.  The token of a request is what stands between the first and
    the second space of its [authorization] header, whatever stands
    before the first space: a header made of a scheme without a space,
    one space and a token without a space that is not empty gives the
    token, for every scheme; a header without a space gives none, and so
    does a header with two spaces after the scheme. *)
Theorem X20_the_token_follows_the_first_space :
  forall (scheme token : string),
    spaceFree scheme = true -> spaceFree token = true ->
    (token <> EmptyString ->
     bearerToken (Some (scheme ++ String " "%char token)%string) = Some token)
    /\ bearerToken (Some scheme) = None
    /\ bearerToken (Some (scheme ++ String " "%char (String " "%char token))%string) = None
    /\ bearerToken None = None.
Proof.
  intros scheme token Hs Ht.
  split; [ | split; [ | split]].
  - intro Hne. unfold bearerToken, whenTruthy.
    destruct (Str.truthy (scheme ++ String " "%char token)) eqn:Hh.
    + unfold Str.split. rewrite (@splitAcc_first " "%char EmptyString scheme token Hs).
      rewrite (@splitAcc_whole " "%char EmptyString token Ht). cbn [nth_error String.append].
      destruct token; [contradiction | reflexivity].
    + destruct scheme; discriminate Hh.
  - unfold bearerToken, whenTruthy. destruct (Str.truthy scheme); [ | reflexivity].
    unfold Str.split. rewrite (@splitAcc_whole " "%char EmptyString scheme Hs). reflexivity.
  - unfold bearerToken, whenTruthy.
    destruct (Str.truthy (scheme ++ String " "%char (String " "%char token))); [ | reflexivity].
    unfold Str.split. rewrite (@splitAcc_first " "%char EmptyString scheme (String " "%char token) Hs).
    reflexivity.
  - reflexivity.
Qed.

(* ===================================================================== *)
(** ** Further properties: the two lists *)
(* ===================================================================== *)

Lemma pagesOf_ceiling (total : nat) (n : Z) :
  (0 < n)%Z -> coversWith total n (pagesOf total (Some n)).
Proof.
  intro Hn. unfold coversWith, pagesOf.
  destruct (Z.eqb_spec n 0) as [-> | _]; [lia | ].
  eexists. split; [reflexivity | ].
  pose proof (Z.div_mod (- Z.of_nat total) n ltac:(lia)) as Hd.
  pose proof (Z.mod_pos_bound (- Z.of_nat total) n Hn) as Hm.
  nia.
Qed.

Section Lists.
Context `{Externals}.

Lemma whenSet_plain (req : Req) (key : string) (v : option string) :
  plain req key v -> whenSet (assoc key (query req)) = option_map QStr v.
Proof.
  destruct v as [s | ]; cbn [plain option_map].
  - intros [-> Hs]. cbn [whenSet]. destruct s; [contradiction | reflexivity].
  - intros [-> | ->]; reflexivity.
Qed.

Lemma matchesOrder_plain (status userId : option string) (f : Order -> bool) :
  matchesOrder (mkOrderQuery (option_map QStr status) (option_map QStr userId)) = Some f ->
  forall o, f o = orderHas status userId o.
Proof.
  unfold matchesOrder, orderHas. cbn [oq_status oq_userId].
  destruct status as [s | ], userId as [u | ]; cbn [option_map selects];
    intro Hf; inversion Hf; subst; reflexivity.
Qed.

Lemma matchesProduct_plain (category : option string) (search : option (string -> bool))
    (active : option bool) (f : Product -> bool) :
  matchesProduct (mkProductQuery (option_map QStr category) search active) = Some f ->
  forall p, f p = productHas category search active p.
Proof.
  unfold matchesProduct, productHas. cbn [pq_categoryId pq_search pq_isActive].
  destruct category as [c | ]; cbn [option_map selects];
    intro Hf; inversion Hf; subst; reflexivity.
Qed.

Lemma filter_all (A : Type) (f : A -> bool) (l : list A) :
  (forall a, f a = true) -> filter f l = l.
Proof.
  intro Hf. apply forallb_filter_id. apply forallb_forall. intros a _. apply Hf.
Qed.

(** What a 200 of [getAllOrders] carries. *)
Lemma getAllOrders_meta (env : Env) (req : Req) (w : World) :
  status (fst (getAllOrders env req w)) = 200 ->
  exists docs selected page limit,
    stringGiven (orElse (assoc "page" (query req)) (QStr "1")) = Some page
    /\ stringGiven (orElse (assoc "limit" (query req)) (QStr "20")) = Some limit
    /\ matchesOrder (mkOrderQuery (whenSet (assoc "status" (query req)))
                       (whenSet (assoc "userId" (query req))))
       = Some selected
    /\ fst (getAllOrders env req w)
       = res_json
           (succeedMeta (POrders docs)
              (let total := List.length (filter selected (orders (store w))) in
               mkMeta total (parseInt page) (parseInt limit)
                 (pagesOf total (parseInt limit)))).
Proof.
  unfold_controllers.
  apply (wp_tryCatch _ _
           (fun r _ =>
              status r = 200 ->
              exists docs selected page limit,
                stringGiven (orElse (assoc "page" (query req)) (QStr "1")) = Some page
                /\ stringGiven (orElse (assoc "limit" (query req)) (QStr "20")) = Some limit
                /\ matchesOrder (mkOrderQuery (whenSet (assoc "status" (query req)))
                                   (whenSet (assoc "userId" (query req))))
                   = Some selected
                /\ r = res_json
                         (succeedMeta (POrders docs)
                            (let total := List.length (filter selected (orders (store w))) in
                             mkMeta total (parseInt page) (parseInt limit)
                               (pagesOf total (parseInt limit)))))).
  unfold stringGiven.
  wp_run; try (cbn; discriminate).
  all: intros _; eexists; eexists; eexists; eexists;
    (split; [first [reflexivity | eassumption]
            | split; [first [reflexivity | eassumption]
                     | split; [first [reflexivity | eassumption] | reflexivity]]]).
Qed.

(** What a 200 of [getProducts] carries. *)
Lemma getProducts_meta (env : Env) (req : Req) (w : World) :
  status (fst (getProducts env req w)) = 200 ->
  exists docs selected search page limit,
    stringGiven (orElse (assoc "page" (query req)) (QStr "1")) = Some page
    /\ stringGiven (orElse (assoc "limit" (query req)) (QStr "50")) = Some limit
    /\ (whenSet (assoc "q" (query req)) = None -> search = None)
    /\ (forall q pattern,
          whenSet (assoc "q" (query req)) = Some q ->
          stringGiven q = Some pattern -> search = regExpI pattern)
    /\ matchesProduct
         (mkProductQuery (whenSet (assoc "category" (query req))) search
            (option_map (fun v => match v with
                                  | QStr s => String.eqb s "true"
                                  | _ => false
                                  end) (assoc "isActive" (query req))))
       = Some selected
    /\ fst (getProducts env req w)
       = res_json
           (succeedMeta (PProducts docs)
              (let total := List.length (filter selected (products (store w))) in
               mkMeta total (parseInt page) (parseInt limit)
                 (pagesOf total (parseInt limit)))).
Proof.
  unfold_controllers.
  apply (wp_tryCatch _ _
           (fun r _ =>
              status r = 200 ->
              exists docs selected search page limit,
                stringGiven (orElse (assoc "page" (query req)) (QStr "1")) = Some page
                /\ stringGiven (orElse (assoc "limit" (query req)) (QStr "50")) = Some limit
                /\ (whenSet (assoc "q" (query req)) = None -> search = None)
                /\ (forall q pattern,
                      whenSet (assoc "q" (query req)) = Some q ->
                      stringGiven q = Some pattern -> search = regExpI pattern)
                /\ matchesProduct
                     (mkProductQuery (whenSet (assoc "category" (query req))) search
                        (option_map (fun v => match v with
                                              | QStr s => String.eqb s "true"
                                              | _ => false
                                              end) (assoc "isActive" (query req))))
                   = Some selected
                /\ r = res_json
                         (succeedMeta (PProducts docs)
                            (let total :=
                               List.length (filter selected (products (store w))) in
                             mkMeta total (parseInt page) (parseInt limit)
                               (pagesOf total (parseInt limit)))))).
  unfold stringGiven.
  wp_run; try (cbn; discriminate).
  all: intros _; eexists; eexists; eexists; eexists; eexists;
    (split; [first [reflexivity | eassumption] | ]);
    (split; [first [reflexivity | eassumption] | ]);
    match goal with
    | |- _ /\ _ /\ ?rest =>
        assert (Hrest : rest) by (split; [eassumption | reflexivity]);
        split; [ | split; [ | exact Hrest]]
    end;
    [ intro Hq; first [discriminate Hq | reflexivity]
    | intros q0 pattern Hq Hp;
      first [discriminate Hq | inversion Hq; subst; cbn in Hp; congruence] ].
Qed.

Lemma asked_active (req : Req) (active : option bool) :
  asked req active ->
  option_map (fun v => match v with
                       | QStr s => String.eqb s "true"
                       | _ => false
                       end) (assoc "isActive" (query req))
  = active.
Proof.
  destruct active as [[ | ] | ]; cbn [asked].
  - intros ->. reflexivity.
  - intros [v [-> Hv]]. cbn [option_map]. destruct v as [s | items | fields]; try reflexivity.
    destruct (String.eqb_spec s "true") as [-> | _]; [contradiction Hv | ]; reflexivity.
  - intros ->. reflexivity.
Qed.

Lemma numberOf_given (req : Req) (key default given : string) :
  stringGiven (orElse (assoc key (query req)) (QStr default)) = Some given ->
  numberOf req key default (parseInt given).
Proof.
  intro Hg. split.
  - intro Ha. rewrite Ha in Hg. cbn in Hg. inversion Hg. reflexivity.
  - intros s Ha. rewrite Ha in Hg. cbn in Hg. inversion Hg. reflexivity.
Qed.

Lemma pagesFit_pagesOf (total : nat) (page limit : option Z) :
  pagesFit (mkMeta total page limit (pagesOf total limit)).
Proof.
  split; cbn [m_total m_limit m_pages].
  - intros n -> Hn. apply pagesOf_ceiling. exact Hn.
  - intros [-> | ->]; reflexivity.
Qed.

End Lists.

(** X21.  The [meta] of the two lists counts every document the query
    string asks for, whatever the page.  When [getAllOrders] answers
    200, [total] is the number of stored orders of the status and of the
    user the query string names, each as one string, a key that is
    absent or empty asking for nothing; when [getProducts] answers 200,
    [total] is the number of stored products of the category named, whose
    name or description passes the expression made of [q], and that are
    active when [isActive] is [true] and inactive when it is anything
    else.  [page] and [limit] are what [parseInt] makes of the strings
    given, or of 1 and of 20 (orders) or 50 (products); for a limit above
    0, [pages] is the least number of pages of that size that hold the
    total, and with a limit of 0 or one that is not a number there is no
    number of pages. *)
Theorem X21_lists_count_every_match :
  forall (E : Externals) (env : Env) (req : Req) (w : World),
    (status (fst (getAllOrders env req w)) = 200 ->
     exists docs m,
       fst (getAllOrders env req w) = res_json (succeedMeta (POrders docs) m)
       /\ (forall status userId,
             plain req "status" status -> plain req "userId" userId ->
             m_total m
             = List.length (filter (orderHas status userId) (orders (store w))))
       /\ m_total m <= List.length (orders (store w))
       /\ (query req = [] -> m_total m = List.length (orders (store w)))
       /\ numberOf req "page" "1" (m_page m)
       /\ numberOf req "limit" "20" (m_limit m)
       /\ pagesFit m)
    /\ (status (fst (getProducts env req w)) = 200 ->
        exists docs m,
          fst (getProducts env req w) = res_json (succeedMeta (PProducts docs) m)
          /\ (forall category q active,
                plain req "category" category -> plain req "q" q -> asked req active ->
                m_total m
                = List.length (filter (productHas category (searchOf q) active)
                                 (products (store w))))
          /\ m_total m <= List.length (products (store w))
          /\ (query req = [] -> m_total m = List.length (products (store w)))
          /\ numberOf req "page" "1" (m_page m)
          /\ numberOf req "limit" "50" (m_limit m)
          /\ pagesFit m).
Proof.
  intros E env req w. split; intro Hs.
  - destruct (@getAllOrders_meta E env req w Hs)
      as [docs [selected [page [limit [Hp [Hl [Hm Hr]]]]]]].
    exists docs. eexists. split; [exact Hr | ]. cbv zeta. cbn [m_total m_page m_limit].
    split; [ | split; [ | split; [ | split; [ | split]]]].
    + intros status userId Hst Hu.
      rewrite (@whenSet_plain req "status" status Hst) in Hm.
      rewrite (@whenSet_plain req "userId" userId Hu) in Hm.
      rewrite (filter_ext _ _ (@matchesOrder_plain E status userId selected Hm)).
      reflexivity.
    + apply filter_length_le.
    + intro Hq. rewrite Hq in Hm. cbn in Hm. inversion Hm.
      rewrite filter_all; [reflexivity | intros; reflexivity].
    + apply numberOf_given. exact Hp.
    + apply numberOf_given. exact Hl.
    + apply pagesFit_pagesOf.
  - destruct (@getProducts_meta E env req w Hs)
      as [docs [selected [search [page [limit [Hp [Hl [Hnone [Hsome [Hm Hr]]]]]]]]]].
    exists docs. eexists. split; [exact Hr | ]. cbv zeta. cbn [m_total m_page m_limit].
    split; [ | split; [ | split; [ | split; [ | split]]]].
    + intros category q active Hc Hq Ha.
      assert (Hsearch : search = searchOf q).
      { pose proof (@whenSet_plain req "q" q Hq) as Hw.
        destruct q as [s | ]; cbn [option_map] in Hw.
        - apply (Hsome (QStr s) s Hw). reflexivity.
        - apply Hnone. exact Hw. }
      rewrite (@whenSet_plain req "category" category Hc) in Hm.
      rewrite (@asked_active req active Ha) in Hm.
      rewrite (filter_ext _ _
                 (@matchesProduct_plain E category search active selected Hm)).
      rewrite Hsearch. reflexivity.
    + apply filter_length_le.
    + intro Hq. pose proof Hnone as Hn. rewrite Hq in Hn, Hm.
      rewrite (Hn eq_refl) in Hm. cbn in Hm. inversion Hm.
      rewrite filter_all; [reflexivity | intros; reflexivity].
    + apply numberOf_given. exact Hp.
    + apply numberOf_given. exact Hl.
    + apply pagesFit_pagesOf.
Qed.

(* ===================================================================== *)
(** ** Further properties: names are stored trimmed *)
(* ===================================================================== *)

Lemma trimStart_dropSpace (s : string) :
  Str.trimStart s = match Str.dropSpace s with
                    | Some rest => Str.trimStart rest
                    | None => s
                    end.
Proof.
  destruct s as [ | c1 [ | c2 [ | c3 r3]]]; cbn [Str.trimStart Str.dropSpace];
    try reflexivity.
  - destruct (Str.isSpace c1); reflexivity.
  - destruct (Str.isSpace c1); [reflexivity | ].
    destruct (Str.isSpace2 c1 c2); reflexivity.
  - destruct (Str.isSpace c1); [reflexivity | ].
    destruct (Str.isSpace2 c1 c2); [reflexivity | ].
    destruct (Str.isSpace3 c1 c2 c3); reflexivity.
Qed.

Lemma dropSpace_shorter (s rest : string) :
  Str.dropSpace s = Some rest -> String.length rest < String.length s.
Proof.
  destruct s as [ | c1 [ | c2 [ | c3 r3]]]; cbn [Str.dropSpace]; try discriminate.
  - destruct (Str.isSpace c1); [ | discriminate].
    intro Heq. inversion Heq; subst. cbn. lia.
  - destruct (Str.isSpace c1); [intro Heq; inversion Heq; subst; cbn; lia | ].
    destruct (Str.isSpace2 c1 c2); [ | discriminate].
    intro Heq. inversion Heq; subst. cbn. lia.
  - destruct (Str.isSpace c1); [intro Heq; inversion Heq; subst; cbn; lia | ].
    destruct (Str.isSpace2 c1 c2); [intro Heq; inversion Heq; subst; cbn; lia | ].
    destruct (Str.isSpace3 c1 c2 c3); [ | discriminate].
    intro Heq. inversion Heq; subst. cbn. lia.
Qed.

(** A string that starts with a white space character still does when
    something is appended to it. *)
Lemma dropSpace_app (s rest more : string) :
  Str.dropSpace s = Some rest -> Str.dropSpace (s ++ more) = Some (rest ++ more)%string.
Proof.
  destruct s as [ | c1 [ | c2 [ | c3 r3]]]; cbn [Str.dropSpace String.append];
    try discriminate.
  - destruct (Str.isSpace c1); [ | discriminate].
    intro Heq. inversion Heq; subst. reflexivity.
  - destruct (Str.isSpace c1); [intro Heq; inversion Heq; subst; reflexivity | ].
    destruct (Str.isSpace2 c1 c2); [ | discriminate].
    intro Heq. inversion Heq; subst. reflexivity.
  - destruct (Str.isSpace c1); [intro Heq; inversion Heq; subst; reflexivity | ].
    destruct (Str.isSpace2 c1 c2); [intro Heq; inversion Heq; subst; reflexivity | ].
    destruct (Str.isSpace3 c1 c2 c3); [ | discriminate].
    intro Heq. inversion Heq; subst. reflexivity.
Qed.

Lemma by_length (P : string -> Prop) :
  (forall s, (forall t, String.length t < String.length s -> P t) -> P s) ->
  forall s, P s.
Proof.
  intros Hstep s.
  assert (Hall : forall n t, String.length t < n -> P t).
  { induction n as [ | n IH]; intros t Ht; [lia | ].
    apply Hstep. intros u Hu. apply IH. lia. }
  exact (Hall (S (String.length s)) s (Nat.lt_succ_diag_r _)).
Qed.

(** What [trimStart] leaves does not start with white space. *)
Lemma trimStart_done (s : string) : Str.dropSpace (Str.trimStart s) = None.
Proof.
  induction s as [s IH] using by_length.
  rewrite (trimStart_dropSpace s).
  destruct (Str.dropSpace s) as [rest | ] eqn:Hd.
  - apply IH. exact (dropSpace_shorter _ Hd).
  - exact Hd.
Qed.

Lemma trimStart_fixed (s : string) :
  Str.dropSpace s = None -> Str.trimStart s = s.
Proof. intro Hd. rewrite trimStart_dropSpace, Hd. reflexivity. Qed.

(** White space in front of a string is trimmed with it. *)
Lemma trimStart_blank_app (s more : string) :
  Str.trimStart s = EmptyString -> Str.trimStart (s ++ more) = Str.trimStart more.
Proof.
  induction s as [s IH] using by_length. intro Hs.
  rewrite (trimStart_dropSpace s) in Hs.
  destruct (Str.dropSpace s) as [rest | ] eqn:Hd.
  - rewrite (trimStart_dropSpace (s ++ more)), (dropSpace_app _ more Hd).
    apply IH; [exact (dropSpace_shorter _ Hd) | exact Hs].
  - subst s. reflexivity.
Qed.

(** [trimEnd] cuts off a suffix of white space. *)
Lemma trimEnd_split (s : string) :
  exists cut, s = (Str.trimEnd s ++ cut)%string /\ Str.trimStart cut = EmptyString.
Proof.
  induction s as [ | c s IH]; [exists EmptyString; split; reflexivity | ].
  cbn [Str.trimEnd]. destruct (Str.trimStart (String c s)) as [ | k kept] eqn:Hk.
  - exists (String c s). split; [reflexivity | exact Hk].
  - destruct IH as [cut [Hs Hcut]]. exists cut. split; [ | exact Hcut].
    cbn [String.append]. rewrite <- Hs. reflexivity.
Qed.

Lemma trimEnd_twice (s : string) :
  Str.trimEnd (Str.trimEnd s) = Str.trimEnd s.
Proof.
  induction s as [ | c s IH]; [reflexivity | ].
  cbn [Str.trimEnd]. destruct (Str.trimStart (String c s)) as [ | k kept] eqn:Hk;
    [reflexivity | ].
  cbn [Str.trimEnd]. rewrite IH.
  destruct (Str.trimStart (String c (Str.trimEnd s))) as [ | k' kept'] eqn:Hk';
    [ | reflexivity].
  exfalso. destruct (trimEnd_split s) as [cut [Hs Hcut]].
  pose proof (trimStart_blank_app (String c (Str.trimEnd s)) cut Hk') as Happ.
  cbn [String.append] in Happ. rewrite <- Hs, Hk, Hcut in Happ. discriminate Happ.
Qed.

(** What does not start with white space still does not once its end
    is trimmed. *)
Lemma dropSpace_trimEnd (s : string) :
  Str.dropSpace s = None -> Str.dropSpace (Str.trimEnd s) = None.
Proof.
  intro Hs. destruct (Str.dropSpace (Str.trimEnd s)) as [rest | ] eqn:Hd; [ | reflexivity].
  destruct (trimEnd_split s) as [cut [Hcut _]].
  pose proof (dropSpace_app _ cut Hd) as Happ. rewrite <- Hcut, Hs in Happ.
  discriminate Happ.
Qed.

Lemma trim_trimmed (s : string) : trimmed (Str.trim s).
Proof.
  unfold trimmed, Str.trim.
  rewrite (@trimStart_fixed _ (@dropSpace_trimEnd _ (trimStart_done s))).
  apply trimEnd_twice.
Qed.

(** The name Herbs between two no-break spaces, a line separator and a
    byte order mark is stored as Herbs. *)
Example padded_name_is_trimmed :
  Str.trim (String (ascii_of_nat 194) (String (ascii_of_nat 160)
             ("Herbs"
              ++ String (ascii_of_nat 226) (String (ascii_of_nat 128)
                   (String (ascii_of_nat 168)
                      (String (ascii_of_nat 239) (String (ascii_of_nat 187)
                         (String (ascii_of_nat 191) " "))))))))
  = "Herbs".
Proof. vm_compute. reflexivity. Qed.

Section TrimmedNames.
Context `{Externals}.

Lemma createCategorySchema_name (req : Req) (d : CreateCategoryData) :
  createCategorySchema (body req) = inr d ->
  exists s, bodyField req "name" = Some (JStr s) /\ s <> EmptyString
            /\ cc_name d = Str.trim s.
Proof.
  unfold createCategorySchema, bodyField, Zod.object.
  destruct (body req) as [[ | | | | | fields] | ]; cbn [Zod.andThen]; try discriminate.
  destruct (assoc "name" fields) as [[ | | | s | | ] | ];
    cbn [nameSchema Zod.string_ Zod.andThen]; try discriminate.
  unfold Zod.min. destruct s as [ | ch rest]; cbn [String.length Nat.ltb Nat.leb];
    cbn [Zod.andThen Zod.ok]; try discriminate.
  zod_rest. intros Hd. inversion Hd; subst.
  exists (String ch rest). split; [reflexivity | ]. split; [discriminate | reflexivity].
Qed.

Lemma createProductSchema_name (req : Req) (d : CreateProductData) :
  createProductSchema (body req) = inr d ->
  exists s, bodyField req "name" = Some (JStr s) /\ s <> EmptyString
            /\ cp_name d = Str.trim s.
Proof.
  unfold createProductSchema, bodyField, Zod.object.
  destruct (body req) as [[ | | | | | fields] | ]; cbn [Zod.andThen]; try discriminate.
  destruct (assoc "name" fields) as [[ | | | s | | ] | ];
    cbn [nameSchema Zod.string_ Zod.andThen]; try discriminate.
  unfold Zod.min. destruct s as [ | ch rest]; cbn [String.length Nat.ltb Nat.leb];
    cbn [Zod.andThen Zod.ok]; try discriminate.
  zod_rest. intros Hd. inversion Hd; subst.
  exists (String ch rest). split; [reflexivity | ]. split; [discriminate | reflexivity].
Qed.

Lemma createCategory_effect (env : Env) (req : Req) (w : World) :
  store (snd (createCategory env req w)) = store w
  \/ exists d,
       createCategorySchema (body req) = inr d
       /\ store (snd (createCategory env req w))
          = setCategories (categories (store w) ++ [newCategory env d])%list (store w).
Proof.
  unfold_controllers.
  apply (wp_tryCatch _ _
           (fun _ w' =>
              store w' = store w
              \/ exists d,
                   createCategorySchema (body req) = inr d
                   /\ store w'
                      = setCategories (categories (store w) ++ [newCategory env d])%list
                          (store w))).
  wp_run; try (left; reflexivity).
  all: right; eexists; split; [eassumption | reflexivity].
Qed.

Lemma run_trimmed (c : Controller) (env : Env) (req : Req) (w : World) :
  namesTrimmed (store w) -> namesTrimmed (store (snd (run c env req w))).
Proof.
  intros [Hc Hp]. unfold namesTrimmed.
  destruct (writesCategories c) eqn:Wc; [ | destruct (writesProducts c) eqn:Wp].
  - rewrite (run_keeps_products c env req w) by (destruct c; try discriminate Wc; reflexivity).
    split; [ | exact Hp].
    destruct c; try discriminate Wc; cbn [run].
    + destruct (createCategory_effect env req w) as [-> | [d [Hd ->]]]; [exact Hc | ].
      cbn [categories setCategories]. apply Forall_app. split; [exact Hc | ].
      constructor; [ | constructor].
      destruct (createCategorySchema_name _ Hd) as [s [_ [_ Hn]]].
      unfold newCategory. cbn [c_name]. rewrite Hn. apply trim_trimmed.
    + destruct (updateCategory_updated env req w)
        as [[_ [d [x [Hd [Hx [_ ->]]]]]] | [_ ->]]; [ | exact Hc].
      cbn [categories setCategories]. apply Forall_forall. intros y Hy.
      apply replaceDoc_In in Hy. destruct Hy as [-> | Hy];
        [ | exact (proj1 (Forall_forall _ _) Hc y Hy)].
      cbn [assignCategory c_name].
      destruct (uc_name d) as [n | ] eqn:Hn; cbn [orElse].
      * destruct (updateCategorySchema_name _ Hd Hn) as [s [_ ->]]. apply trim_trimmed.
      * apply (proj1 (Forall_forall _ _) Hc). exact (proj1 (lookupId_In _ _ _ Hx)).
    + destruct (deleteCategory_effect env req w) as [[_ [_ ->]] | [_ ->]]; [ | exact Hc].
      cbn [categories setCategories]. apply Forall_forall. intros y Hy.
      apply deleteOne_In in Hy. exact (proj1 (Forall_forall _ _) Hc y Hy).
  - rewrite (run_keeps_categories c env req w Wc). split; [exact Hc | ].
    destruct c; try discriminate Wp; cbn [run].
    + destruct (createProduct_effect env req w) as [[-> _] | [d [x [Hd [_ [_ [_ [-> _]]]]]]]];
        [exact Hp | ].
      cbn [products setProducts]. apply Forall_app. split; [exact Hp | ].
      constructor; [ | constructor].
      destruct (createProductSchema_name _ Hd) as [s [_ [_ Hn]]].
      unfold newProduct. cbn [p_name]. rewrite Hn. apply trim_trimmed.
    + destruct (updateProduct_effect env req w) as [[-> _] | [d [x [Hd [Hx [_ [-> _]]]]]]];
        [exact Hp | ].
      cbn [products setProducts]. apply Forall_forall. intros y Hy.
      apply replaceDoc_In in Hy. destruct Hy as [-> | Hy];
        [ | exact (proj1 (Forall_forall _ _) Hp y Hy)].
      cbn [assignProduct p_name].
      destruct (upd_name d) as [n | ] eqn:Hn; cbn [orElse].
      * destruct (updateProductSchema_name _ Hd Hn) as [s [_ ->]]. apply trim_trimmed.
      * apply (proj1 (Forall_forall _ _) Hp). exact (proj1 (lookupId_In _ _ _ Hx)).
    + destruct (deleteProduct_effect env req w) as [[_ [_ ->]] | [_ ->]]; [ | exact Hp].
      cbn [products setProducts]. apply Forall_forall. intros y Hy.
      apply deleteOne_In in Hy. exact (proj1 (Forall_forall _ _) Hp y Hy).
  - rewrite (run_keeps_categories c env req w Wc), (run_keeps_products c env req w Wp).
    split; assumption.
Qed.

End TrimmedNames.

(** X22.  Names are stored as [trim] leaves them: when no stored category
    and no stored product has a name with white space at either end,
    none has after any controller has run, whatever store calls throw;
    and a category or a product that is created carries its submitted
    name trimmed, a name that was not the empty string when it was
    submitted. *)
Theorem X22_names_are_stored_trimmed :
  forall (E : Externals) (c : Controller) (env : Env) (req : Req) (w : World),
    (namesTrimmed (store w) -> namesTrimmed (store (snd (run c env req w))))
    /\ (forall s, trimmed (Str.trim s))
    /\ (forall d, createCategorySchema (body req) = inr d ->
          exists s, bodyField req "name" = Some (JStr s) /\ s <> EmptyString
                    /\ cc_name d = Str.trim s)
    /\ (forall d, createProductSchema (body req) = inr d ->
          exists s, bodyField req "name" = Some (JStr s) /\ s <> EmptyString
                    /\ cp_name d = Str.trim s).
Proof.
  intros E c env req w. split; [exact (@run_trimmed E c env req w) | ].
  split; [exact trim_trimmed | ]. split.
  - intros d Hd. exact (@createCategorySchema_name E req d Hd).
  - intros d Hd. exact (@createProductSchema_name E req d Hd).
Qed.

(* ===================================================================== *)
(** ** Further properties: which route answers *)
(* ===================================================================== *)

Lemma hexDigit_not_slash (c : ascii) :
  Str.isHexDigit c = true -> negb (Ascii.eqb c "/"%char) = true.
Proof.
  destruct c as [[ | ] [ | ] [ | ] [ | ] [ | ] [ | ] [ | ] [ | ]];
    vm_compute; intro Hc; try reflexivity; discriminate Hc.
Qed.

Lemma allChars_impl (p q : ascii -> bool) (s : string) :
  (forall c, p c = true -> q c = true) ->
  Str.allChars p s = true -> Str.allChars q s = true.
Proof.
  intro Hpq. induction s as [ | c s IH]; [reflexivity | ].
  cbn [Str.allChars]. intro Hs. apply andb_true_iff in Hs. destruct Hs as [Hc Hs].
  rewrite (Hpq c Hc), (IH Hs). reflexivity.
Qed.

Lemma isHex24_facts (id : string) :
  Str.isHex24 id = true ->
  String.length id = 24
  /\ Str.allChars (fun c => negb (Ascii.eqb c "/"%char)) id = true.
Proof.
  unfold Str.isHex24. intro Hid. apply andb_true_iff in Hid. destruct Hid as [Hl Hc].
  split; [apply Nat.eqb_eq; exact Hl | ].
  exact (@allChars_impl _ _ id hexDigit_not_slash Hc).
Qed.

Lemma segments_id (id : string) :
  Str.isHex24 id = true -> segments (String "/"%char id) = [id].
Proof.
  intro Hid. destruct (@isHex24_facts id Hid) as [Hl Hc].
  unfold segments, Str.split. cbn [Str.splitAcc].
  change (Ascii.eqb "/"%char "/"%char) with true. cbv iota.
  rewrite (@splitAcc_whole "/"%char EmptyString id Hc). cbn [String.append filter Str.truthy].
  destruct id; [discriminate Hl | reflexivity].
Qed.

Lemma segments_id_status (id : string) :
  Str.isHex24 id = true ->
  segments (String "/"%char (id ++ "/status")) = [id; "status"].
Proof.
  intro Hid. destruct (@isHex24_facts id Hid) as [Hl Hc].
  unfold segments, Str.split. cbn [Str.splitAcc].
  change (Ascii.eqb "/"%char "/"%char) with true. cbv iota.
  change (id ++ "/status")%string with (id ++ String "/"%char "status")%string.
  rewrite (@splitAcc_first "/"%char EmptyString id "status" Hc).
  cbn [String.append]. destruct id; [discriminate Hl | reflexivity].
Qed.

Lemma eqb_length (a b : string) :
  String.eqb a b = true -> String.length a = String.length b.
Proof. intro Heq. apply String.eqb_eq in Heq. rewrite Heq. reflexivity. Qed.

Lemma lower_length (s : string) : String.length (lower s) = String.length s.
Proof. induction s as [ | c s IH]; cbn; [reflexivity | f_equal; exact IH]. Qed.

Lemma stats_is_no_id (id : string) :
  Str.isHex24 id = true -> String.eqb "stats" (lower id) = false.
Proof.
  intro Hid. destruct (@isHex24_facts id Hid) as [Hl _].
  destruct (String.eqb "stats" (lower id)) eqn:Heq; [ | reflexivity].
  apply eqb_length in Heq. rewrite lower_length, Hl in Heq. discriminate Heq.
Qed.

Section Routing.
Context `{Externals}.
Variables authenticateTokenMw requireAdminMw : Middleware.
Hypothesis authenticated : passes authenticateTokenMw.
Hypothesis admitted : passes requireAdminMw.

Lemma runStack_passes (c : Controller) (env : Env) (req : Req) (w : World) :
  runStack authenticateTokenMw requireAdminMw
    [authenticateToken; requireAdmin; controller c] env req w
  = served c env req w.
Proof.
  cbn [runStack]. rewrite (authenticated env req w), (admitted env req w). reflexivity.
Qed.

Ltac route_first :=
  rewrite dispatch_tryRoutes by discriminate;
  cbn [tryRoutes]; unfold matchRoute; cbn [r_method r_path r_stack handlesMethod methodEqb orb].

Ltac route_found :=
  rewrite runStack_passes; unfold served;
  match goal with
  | |- context [run ?c ?env ?req ?w] => destruct (run c env req w); reflexivity
  end.

Lemma orders_by_id (id : string) (env : Env) (req : Req) (w : World) :
  Str.isHex24 id = true ->
  dispatch authenticateTokenMw requireAdminMw ordersRouter GET (String "/"%char id) env req w
  = served GetOrderById env (withId req id) w
  /\ dispatch authenticateTokenMw requireAdminMw ordersRouter PATCH
       (String "/"%char (id ++ "/status")) env req w
     = served UpdateOrderStatus env (withId req id) w
  /\ dispatch authenticateTokenMw requireAdminMw ordersRouter GET "/stats" env req w
     = served GetOrderStats env (withParams req []) w
  /\ dispatch authenticateTokenMw requireAdminMw ordersRouter GET "/STATS" env req w
     = served GetOrderStats env (withParams req []) w.
Proof.
  intro Hid. unfold ordersRouter, withId.
  split; [ | split; [ | split]].
  - route_first. rewrite (@segments_id id Hid).
    change (segments "/") with (@nil string).
    change (segments "/stats") with ["stats"].
    change (segments "/:id") with [":id"].
    cbn [matchSegments paramName]. change (lower "stats") with "stats".
    rewrite (@stats_is_no_id id Hid). route_found.
  - route_first. rewrite (@segments_id_status id Hid).
    change (segments "/:id/status") with [":id"; "status"].
    cbn [matchSegments paramName]. change (lower "status") with "status".
    change (String.eqb "status" "status") with true. cbv iota. route_found.
  - route_first.
    change (segments "/") with (@nil string).
    change (segments "/stats") with ["stats"].
    cbn [matchSegments paramName]. change (lower "stats") with "stats".
    change (String.eqb "stats" "stats") with true. cbv iota. route_found.
  - route_first.
    change (segments "/") with (@nil string).
    change (segments "/stats") with ["stats"].
    change (segments "/STATS") with ["STATS"].
    cbn [matchSegments paramName].
    change (lower "stats") with "stats". change (lower "STATS") with "stats".
    change (String.eqb "stats" "stats") with true. cbv iota. route_found.
Qed.

Lemma categories_by_id (id : string) (env : Env) (req : Req) (w : World) :
  Str.isHex24 id = true ->
  dispatch authenticateTokenMw requireAdminMw categoriesRouter GET (String "/"%char id)
    env req w
  = served GetCategoryById env (withId req id) w
  /\ dispatch authenticateTokenMw requireAdminMw categoriesRouter PUT (String "/"%char id)
       env req w
     = served UpdateCategory env (withId req id) w
  /\ dispatch authenticateTokenMw requireAdminMw categoriesRouter DELETE (String "/"%char id)
       env req w
     = served DeleteCategory env (withId req id) w.
Proof.
  intro Hid. unfold categoriesRouter, withId.
  split; [ | split]; route_first; rewrite (@segments_id id Hid);
    change (segments "/") with (@nil string);
    change (segments "/:id") with [":id"];
    cbn [matchSegments paramName]; route_found.
Qed.

Lemma products_by_id (id : string) (env : Env) (req : Req) (w : World) :
  Str.isHex24 id = true ->
  dispatch authenticateTokenMw requireAdminMw productsRouter GET (String "/"%char id)
    env req w
  = served GetProductById env (withId req id) w
  /\ dispatch authenticateTokenMw requireAdminMw productsRouter PUT (String "/"%char id)
       env req w
     = served UpdateProduct env (withId req id) w
  /\ dispatch authenticateTokenMw requireAdminMw productsRouter DELETE (String "/"%char id)
       env req w
     = served DeleteProduct env (withId req id) w.
Proof.
  intro Hid. unfold productsRouter, withId.
  split; [ | split]; route_first; rewrite (@segments_id id Hid);
    change (segments "/") with (@nil string);
    change (segments "/:id") with [":id"];
    cbn [matchSegments paramName]; route_found.
Qed.

End Routing.

(** X23.  With middlewares that call [next()], a request for an
    identifier of 24 hexadecimal digits reaches the controller of its
    method with that identifier as [req.params.id], on each of the three
    routers: GET, PUT and DELETE of [/<id>] for categories and products,
    GET of [/<id>] and PATCH of [/<id>/status] for orders.  [/stats] of
    the orders router, in either letter case, is answered by
    [getOrderStats], not taken for an order of that identifier: its
    route is registered before [/:id]. *)
Theorem X23_requests_reach_their_controller :
  forall (E : Externals) (authenticateTokenMw requireAdminMw : Middleware)
         (id : string) (env : Env) (req : Req) (w : World),
    passes authenticateTokenMw -> passes requireAdminMw ->
    Str.isHex24 id = true ->
    params_id (withId req id) = id
    /\ (dispatch authenticateTokenMw requireAdminMw ordersRouter GET (String "/"%char id)
          env req w
        = served GetOrderById env (withId req id) w
        /\ dispatch authenticateTokenMw requireAdminMw ordersRouter PATCH
             (String "/"%char (id ++ "/status")) env req w
           = served UpdateOrderStatus env (withId req id) w
        /\ dispatch authenticateTokenMw requireAdminMw ordersRouter GET "/stats" env req w
           = served GetOrderStats env (withParams req []) w
        /\ dispatch authenticateTokenMw requireAdminMw ordersRouter GET "/STATS" env req w
           = served GetOrderStats env (withParams req []) w)
    /\ (dispatch authenticateTokenMw requireAdminMw categoriesRouter GET
          (String "/"%char id) env req w
        = served GetCategoryById env (withId req id) w
        /\ dispatch authenticateTokenMw requireAdminMw categoriesRouter PUT
             (String "/"%char id) env req w
           = served UpdateCategory env (withId req id) w
        /\ dispatch authenticateTokenMw requireAdminMw categoriesRouter DELETE
             (String "/"%char id) env req w
           = served DeleteCategory env (withId req id) w)
    /\ (dispatch authenticateTokenMw requireAdminMw productsRouter GET
          (String "/"%char id) env req w
        = served GetProductById env (withId req id) w
        /\ dispatch authenticateTokenMw requireAdminMw productsRouter PUT
             (String "/"%char id) env req w
           = served UpdateProduct env (withId req id) w
        /\ dispatch authenticateTokenMw requireAdminMw productsRouter DELETE
             (String "/"%char id) env req w
           = served DeleteProduct env (withId req id) w).
Proof.
  intros E mw1 mw2 id env req w H1 H2 Hid.
  split; [reflexivity | ]. split; [ | split].
  - exact (@orders_by_id E mw1 mw2 H1 H2 id env req w Hid).
  - exact (@categories_by_id E mw1 mw2 H1 H2 id env req w Hid).
  - exact (@products_by_id E mw1 mw2 H1 H2 id env req w Hid).
Qed.

(* ===================================================================== *)
(** ** Further properties: the script that creates the administrator *)
(* ===================================================================== *)

Lemma wp_runScript (body : M nat) (Q : nat -> World -> Prop) (w : World) :
  wp body (fun r w' => match r with
                       | inl _ => Q 1 w'
                       | inr code => Q code w'
                       end) w ->
  Q (fst (runScript body w)) (snd (runScript body w)).
Proof.
  unfold wp, runScript. destruct (body w) as [[e | r] w1]; cbn; auto.
Qed.

Lemma orDefault_truthy (o : option string) (d : string) :
  d <> EmptyString -> orDefault o d <> EmptyString.
Proof.
  intro Hd. unfold orDefault, whenTruthy.
  destruct o as [[ | c s] | ]; cbn; try exact Hd. discriminate.
Qed.

Lemma find_email_None (email : string) (l : list User) :
  ~ In email (map u_email l) -> find (fun u => String.eqb (u_email u) email) l = None.
Proof.
  intro Hno. destruct (find (fun u => String.eqb (u_email u) email) l) as [u | ] eqn:Hf;
    [ | reflexivity].
  exfalso. apply Hno. apply find_some in Hf. destruct Hf as [Hin Heq].
  apply String.eqb_eq in Heq. rewrite <- Heq. apply in_map. exact Hin.
Qed.

Lemma find_email_snoc (u : User) (l : list User) :
  ~ In (u_email u) (map u_email l) ->
  find (fun x => String.eqb (u_email x) (u_email u)) (l ++ [u]) = Some u.
Proof.
  induction l as [ | x l IH]; cbn; intro Hno.
  - rewrite String.eqb_refl. reflexivity.
  - destruct (String.eqb_spec (u_email x) (u_email u)) as [Heq | _].
    + exfalso. apply Hno. left. exact Heq.
    + apply IH. intro Hin. apply Hno. right. exact Hin.
Qed.

Section ScriptFacts.
Variable bcryptHash : string -> nat -> string.

Lemma createAdminUser_effect (e : ScriptEnv) (w : World) :
  (fst (createAdminUser bcryptHash e w) = 1
   /\ store (snd (createAdminUser bcryptHash e w)) = store w)
  \/ (fst (createAdminUser bcryptHash e w) = 0
      /\ In (adminEmail e) (map u_email (users (store w)))
      /\ store (snd (createAdminUser bcryptHash e w)) = store w)
  \/ (fst (createAdminUser bcryptHash e w) = 0
      /\ ~ In (adminEmail e) (map u_email (users (store w)))
      /\ store (snd (createAdminUser bcryptHash e w))
         = setUsers (users (store w) ++ [adminUser bcryptHash e])%list (store w)).
Proof.
  unfold createAdminUser, connect, User.findOneByEmail.
  apply (wp_runScript _
           (fun code w' =>
              (code = 1 /\ store w' = store w)
              \/ (code = 0
                  /\ In (adminEmail e) (map u_email (users (store w)))
                  /\ store w' = store w)
              \/ (code = 0
                  /\ ~ In (adminEmail e) (map u_email (users (store w)))
                  /\ store w'
                     = setUsers (users (store w) ++ [adminUser bcryptHash e])%list
                         (store w)))).
  wp_run; try (left; split; reflexivity).
  - right. left. split; [reflexivity | ]. split; [ | reflexivity].
    match goal with
    | Hf : find _ _ = Some _ |- _ =>
        apply find_some in Hf; destruct Hf as [Hin Heq];
        apply String.eqb_eq in Heq; rewrite <- Heq; apply in_map; exact Hin
    end.
  - right. right. split; [reflexivity | ]. split; [ | reflexivity].
    match goal with
    | Hf : find _ _ = None |- _ => exact (find_name_None u_email _ _ Hf)
    end.
Qed.

Lemma createAdminUser_runs (e : ScriptEnv) (w : World) :
  noFaults 3 w ->
  ~ In (adminObjectId e) (map u_id (users (store w))) ->
  fst (createAdminUser bcryptHash e w) = 0.
Proof.
  intros Hq Hid.
  apply noFaults_next in Hq. destruct Hq as [F1 Hq].
  apply noFaults_next in Hq. destruct Hq as [F2 Hq].
  apply noFaults_next in Hq. destruct Hq as [F3 _].
  pose proof (lookupId_absent u_id _ _ Hid) as Hfresh.
  unfold createAdminUser, connect, User.findOneByEmail.
  apply (wp_runScript _ (fun code _ => code = 0)).
  wp_run; cbn [faults advance store adminUser u_id] in *; congruence.
Qed.

Lemma createAdminUser_finds (e : ScriptEnv) (w : World) :
  noFaults 2 w ->
  In (adminEmail e) (map u_email (users (store w))) ->
  fst (createAdminUser bcryptHash e w) = 0.
Proof.
  intros Hq Hin.
  apply noFaults_next in Hq. destruct Hq as [F1 Hq].
  apply noFaults_next in Hq. destruct Hq as [F2 _].
  destruct (find_name_Some u_email _ _ Hin) as [held Hheld].
  unfold createAdminUser, connect, User.findOneByEmail.
  apply (wp_runScript _ (fun code _ => code = 0)).
  wp_run; cbn [faults advance store] in *; congruence.
Qed.

End ScriptFacts.

Section ScriptAndLogin.
Context `{Externals}.

Lemma adminLoginSchema_accepts (email password : string) :
  isEmail email = true -> password <> EmptyString ->
  adminLoginSchema (body (loginWith email password)) = inr (email, password).
Proof.
  intros He Hp. unfold adminLoginSchema, loginWith, Zod.object. cbn [body Zod.andThen].
  change (assoc "email" [("email", JStr email); ("password", JStr password)])
    with (Some (JStr email)).
  change (assoc "password" [("email", JStr email); ("password", JStr password)])
    with (Some (JStr password)).
  cbn [Zod.string_ Zod.andThen]. unfold Zod.email. rewrite He. cbn [Zod.andThen].
  unfold Zod.min. destruct password as [ | c rest]; [contradiction | reflexivity].
Qed.

End ScriptAndLogin.

(** X24.  The script that creates the administrator writes at most one
    user and touches no other: when a user is stored under the email of
    the administrator, whatever its role and its password, it exits with
    0 and leaves the store as it is; when none is, and the three store
    calls go through, it exits with 0 having added one user of role
    'admin' under that email, whose hash is the one [bcrypt.hash] gives
    for the password with 10 rounds; when it exits with 1 the store is
    as it was.  An email, a password or a name that is unset or empty is
    replaced by its default. *)
Theorem X24_script_adds_the_administrator_once :
  forall (bcryptHash : string -> nat -> string) (e : ScriptEnv) (w : World),
    (In (adminEmail e) (map u_email (users (store w))) ->
     store (snd (createAdminUser bcryptHash e w)) = store w
     /\ (noFaults 2 w -> fst (createAdminUser bcryptHash e w) = 0))
    /\ (~ In (adminEmail e) (map u_email (users (store w))) ->
        ~ In (adminObjectId e) (map u_id (users (store w))) ->
        noFaults 3 w ->
        fst (createAdminUser bcryptHash e w) = 0
        /\ store (snd (createAdminUser bcryptHash e w))
           = setUsers (users (store w) ++ [adminUser bcryptHash e])%list (store w)
        /\ u_role (adminUser bcryptHash e) = "admin"
        /\ u_email (adminUser bcryptHash e) = adminEmail e
        /\ u_passwordHash (adminUser bcryptHash e)
           = Some (bcryptHash (adminPassword e) 10))
    /\ (fst (createAdminUser bcryptHash e w) = 1 ->
        store (snd (createAdminUser bcryptHash e w)) = store w)
    /\ fst (createAdminUser bcryptHash e w) <= 1
    /\ (forall u, In u (users (store w)) ->
          In u (users (store (snd (createAdminUser bcryptHash e w)))))
    /\ adminEmail e <> EmptyString /\ adminPassword e <> EmptyString
    /\ adminName e <> EmptyString
    /\ (ADMIN_EMAIL e = None \/ ADMIN_EMAIL e = Some EmptyString ->
        adminEmail e = "admin@veggiefresh.com")
    /\ (ADMIN_PASSWORD e = None \/ ADMIN_PASSWORD e = Some EmptyString ->
        adminPassword e = "admin123").
Proof.
  intros bcryptHash e w.
  pose proof (createAdminUser_effect bcryptHash e w) as Heff.
  split; [ | split; [ | split; [ | split; [ | split]]]].
  - intro Hin. split.
    + destruct Heff as [[_ Hst] | [[_ [_ Hst]] | [_ [Hno _]]]];
        [exact Hst | exact Hst | contradiction].
    + intro Hq. exact (@createAdminUser_finds bcryptHash e w Hq Hin).
  - intros Hno Hid Hq.
    pose proof (@createAdminUser_runs bcryptHash e w Hq Hid) as Hcode.
    split; [exact Hcode | ].
    split; [ | split; [reflexivity | split; reflexivity]].
    destruct Heff as [[Hone _] | [[_ [Hin _]] | [_ [_ Hst]]]];
      [rewrite Hcode in Hone; discriminate Hone | contradiction | exact Hst].
  - intro Hone.
    destruct Heff as [[_ Hst] | [[Hzero _] | [Hzero _]]];
      [exact Hst | rewrite Hone in Hzero; discriminate Hzero
       | rewrite Hone in Hzero; discriminate Hzero].
  - destruct Heff as [[-> _] | [[-> _] | [-> _]]]; lia.
  - intros u Hu.
    destruct Heff as [[_ ->] | [[_ [_ ->]] | [_ [_ ->]]]]; try exact Hu.
    cbn [users setUsers]. apply in_or_app. left. exact Hu.
  - split; [apply orDefault_truthy; discriminate | ].
    split; [apply orDefault_truthy; discriminate | ].
    split; [apply orDefault_truthy; discriminate | ].
    split; unfold adminEmail, adminPassword; intros [-> | ->]; reflexivity.
Qed.

(** X25.  The administrator the script creates can log in: when no user
    was stored under the email of the administrator, the store calls
    went through, [bcrypt.compare] accepts the password against the
    hash [bcrypt.hash] gave for it, the email passes the email check
    and [JWT_SECRET] is set, then [adminLogin] with that email and that
    password, right after the script, answers 200 with the new user and
    tokens for its identifier. *)
Theorem X25_created_administrator_can_log_in :
  forall (E : Externals) (bcryptHash : string -> nat -> string)
         (e : ScriptEnv) (env : Env) (w : World) (secret : string),
    bcryptCompare (adminPassword e) (bcryptHash (adminPassword e) 10) = true ->
    bcryptHash (adminPassword e) 10 <> EmptyString ->
    isEmail (adminEmail e) = true ->
    jwtSecret env = Some secret ->
    ~ In (adminEmail e) (map u_email (users (store w))) ->
    ~ In (adminObjectId e) (map u_id (users (store w))) ->
    noFaults 3 w ->
    noFaults 1 (snd (createAdminUser bcryptHash e w)) ->
    fst (adminLogin env (loginWith (adminEmail e) (adminPassword e))
           (snd (createAdminUser bcryptHash e w)))
    = loggedIn (adminUser bcryptHash e) secret.
Proof.
  intros E bcryptHash e env w secret Hcmp Hhash Hmail Hsec Hno Hid Hq Hq'.
  pose proof (@createAdminUser_runs bcryptHash e w Hq Hid) as Hcode.
  assert (Hst : store (snd (createAdminUser bcryptHash e w))
                = setUsers (users (store w) ++ [adminUser bcryptHash e])%list (store w)).
  { destruct (createAdminUser_effect bcryptHash e w)
      as [[Hone _] | [[_ [Hin _]] | [_ [_ Hst]]]];
      [rewrite Hcode in Hone; discriminate Hone | contradiction | exact Hst]. }
  assert (Hpw : adminPassword e <> EmptyString) by (apply orDefault_truthy; discriminate).
  rewrite (@adminLogin_answer E env _ _ (adminEmail e) (adminPassword e)
             (@adminLoginSchema_accepts E _ _ Hmail Hpw) Hq').
  unfold userByEmail. rewrite Hst. cbn [users setUsers].
  change (adminEmail e) with (u_email (adminUser bcryptHash e)) at 1.
  rewrite (@find_email_snoc (adminUser bcryptHash e) _ Hno).
  unfold loginAnswer. cbn [adminUser u_passwordHash u_role whenTruthy].
  destruct (bcryptHash (adminPassword e) 10) as [ | c rest] eqn:Hh; [contradiction | ].
  cbn [Str.truthy]. change (String.eqb "admin" "admin") with true. cbn [negb].
  rewrite Hcmp. cbn [negb]. rewrite Hsec. unfold adminUser. rewrite Hh. reflexivity.
Qed.

(* ===================================================================== *)
(** ** Further properties: bodies that are refused, and defaults *)
(* ===================================================================== *)

Section Refusals.
Context `{Externals}.

Lemma createCategorySchema_fields (req : Req) (d : CreateCategoryData) :
  createCategorySchema (body req) = inr d ->
  (bodyField req "sort" = None -> cc_sort d = 0%Z)
  /\ (forall q, bodyField req "sort" = Some (JNum q) ->
        Qis_int q = true /\ cc_sort d = Qto_Z q)
  /\ (bodyField req "isActive" = None -> cc_isActive d = true)
  /\ (forall b, bodyField req "isActive" = Some (JBool b) -> cc_isActive d = b)
  /\ (bodyField req "iconUrl" = None -> cc_iconUrl d = None)
  /\ (forall u, cc_iconUrl d = Some u ->
        bodyField req "iconUrl" = Some (JStr u) /\ (u = EmptyString \/ isUrl u = true)).
Proof.
  unfold createCategorySchema, bodyField, Zod.object.
  destruct (body req) as [[ | | | | | fields] | ]; cbn [Zod.andThen]; try discriminate.
  zod_cases. unfold Zod.ok. intro Heq. inversion Heq; subst.
  cbn [cc_sort cc_isActive cc_iconUrl].
  repeat match goal with
         | Hs : _ (assoc ?k fields) = inr _ |- _ =>
             revert Hs; generalize (assoc k fields); intros ? ?
         end.
  split; [ | split; [ | split; [ | split; [ | split]]]].
  - intros ->. match goal with
               | Hs : Zod.default intSchema _ None = inr _ |- _ =>
                   cbn in Hs; inversion Hs; reflexivity
               end.
  - intros num ->. match goal with
                   | Hs : Zod.default intSchema _ (Some (JNum num)) = inr _ |- _ =>
                       cbn in Hs; unfold Zod.int in Hs;
                       destruct (Qis_int num);
                       [inversion Hs; split; reflexivity | discriminate Hs]
                   end.
  - intros ->. match goal with
               | Hs : Zod.default Zod.boolean _ None = inr _ |- _ =>
                   cbn in Hs; inversion Hs; reflexivity
               end.
  - intros flag ->. match goal with
                    | Hs : Zod.default Zod.boolean _ (Some (JBool flag)) = inr _ |- _ =>
                        cbn in Hs; inversion Hs; reflexivity
                    end.
  - intros ->. match goal with
               | Hs : Zod.urlOrEmpty _ None = inr _ |- _ =>
                   cbn in Hs; inversion Hs; reflexivity
               end.
  - intros url ->. match goal with
                   | Hs : Zod.urlOrEmpty _ ?v = inr (Some url) |- _ =>
                       unfold Zod.urlOrEmpty in Hs;
                       destruct v as [[ | | | raw | | ] | ]; try discriminate Hs;
                       destruct (isUrl raw) eqn:Hurl;
                       [ inversion Hs; subst; split; [reflexivity | right; exact Hurl]
                       | destruct (String.eqb_spec raw "") as [-> | ?];
                         [ inversion Hs; subst; split; [reflexivity | left; reflexivity]
                         | discriminate Hs ] ]
                   end.
Qed.

Lemma parse_refused (A : Type) (schema : Schema A) (v : option JSON) (m : ErrMsg)
    (k : A -> M Response) (handler : Thrown -> Response) (w : World) :
  schema v = inl m ->
  tryCatch (bind (parse schema v) k) handler w = (handler (ZodError m), w).
Proof.
  intro Hs. unfold tryCatch, bind, parse. rewrite Hs. reflexivity.
Qed.

End Refusals.

(** X26.  A body its schema refuses is answered before the store is
    called: the create and update controllers of categories and
    products and [updateOrderStatus] answer 400 with the message of the
    first issue, [adminLogin] answers 400 'Validation error' whatever
    the issue, and none of them makes a store call or writes. *)
Theorem X26_refused_bodies_never_reach_the_store :
  forall (E : Externals) (env : Env) (req : Req) (w : World) (m : ErrMsg),
    (createCategorySchema (body req) = inl m ->
     createCategory env req w = (res_status_json 400 (failure m), w))
    /\ (updateCategorySchema (body req) = inl m ->
        updateCategory env req w = (res_status_json 400 (failure m), w))
    /\ (createProductSchema (body req) = inl m ->
        createProduct env req w = (res_status_json 400 (failure m), w))
    /\ (updateProductSchema (body req) = inl m ->
        updateProduct env req w = (res_status_json 400 (failure m), w))
    /\ (updateOrderStatusSchema (body req) = inl m ->
        updateOrderStatus env req w = (res_status_json 400 (failure m), w))
    /\ (adminLoginSchema (body req) = inl m ->
        adminLogin env req w = (res_status_json 400 (failure (Msg "Validation error")), w)).
Proof.
  intros E env req w m.
  split; [ | split; [ | split; [ | split; [ | split]]]]; intro Hs.
  - unfold createCategory. rewrite (parse_refused _ _ _ _ w Hs). reflexivity.
  - unfold updateCategory. cbv zeta. rewrite (parse_refused _ _ _ _ w Hs). reflexivity.
  - unfold createProduct. rewrite (parse_refused _ _ _ _ w Hs). reflexivity.
  - unfold updateProduct. cbv zeta. rewrite (parse_refused _ _ _ _ w Hs). reflexivity.
  - unfold updateOrderStatus. cbv zeta. rewrite (parse_refused _ _ _ _ w Hs). reflexivity.
  - unfold adminLogin. rewrite (parse_refused _ _ _ _ w Hs). reflexivity.
Qed.

(** X27.  A category [createCategory] answered 201 for is stored with
    the defaults of the schema: [sort] is 0 when the body has none and
    the submitted integer otherwise, [isActive] is [true] when the body
    has none and the submitted boolean otherwise, and [iconUrl] is
    absent when the body has none and otherwise the submitted string,
    which is a URL or the empty string. *)
Theorem X27_created_category_carries_the_defaults :
  forall (E : Externals) (env : Env) (req : Req) (w : World),
    status (fst (createCategory env req w)) = 201 ->
    exists c,
      fst (createCategory env req w) = res_status_json 201 (succeed (PCategory c))
      /\ In c (categories (store (snd (createCategory env req w))))
      /\ (bodyField req "sort" = None -> c_sort c = 0%Z)
      /\ (forall q, bodyField req "sort" = Some (JNum q) ->
            Qis_int q = true /\ c_sort c = Qto_Z q)
      /\ (bodyField req "isActive" = None -> c_isActive c = true)
      /\ (forall b, bodyField req "isActive" = Some (JBool b) -> c_isActive c = b)
      /\ (bodyField req "iconUrl" = None -> c_iconUrl c = None)
      /\ (forall u, c_iconUrl c = Some u ->
            bodyField req "iconUrl" = Some (JStr u) /\ (u = EmptyString \/ isUrl u = true)).
Proof.
  intros E env req w Hs.
  destruct (@createCategory_created E env req w Hs) as [d [Hd [Hr [_ [_ Hst]]]]].
  exists (newCategory env d). split; [exact Hr | ]. split.
  - rewrite Hst. cbn [categories setCategories]. apply in_or_app. right. left. reflexivity.
  - exact (@createCategorySchema_fields E req d Hd).
Qed.

(* ===================================================================== *)
(** ** Further properties on concrete requests *)
(* ===================================================================== *)

Section OnMoreRequests.
#[local] Existing Instance Sample.externals.

(** Herbs are created in the shop and found under their identifier. *)
Lemma X5_herbs_are_found :
  exists c,
    fst (createCategory Scenario.envB Cases.herbs Cases.shop)
    = res_status_json 201 (succeed (PCategory c))
    /\ c_id c = newObjectId Scenario.envB
    /\ fst (getCategoryById Scenario.envA (Cases.byId Scenario.idB)
              (snd (createCategory Scenario.envB Cases.herbs Cases.shop)))
       = res_json (succeed (PCategory c)).
Proof.
  apply (@X5_created_category_is_found Sample.externals Scenario.envB Cases.herbs Cases.shop
           Scenario.envA (Cases.byId Scenario.idB)); reflexivity.
Defined.

(** The category of the shop is found under its identifier. *)
Lemma X6_fruits_are_found :
  fst (getCategoryById Scenario.envA (Cases.byId Scenario.idA) Cases.shop)
  = res_json (succeed (PCategory Scenario.fruits)).
Proof.
  apply (proj1 (proj2 (@X6_getCategoryById_finds_by_id Scenario.envA
                         (Cases.byId Scenario.idA) Cases.shop eq_refl))).
  - repeat constructor. cbn. tauto.
  - left. reflexivity.
  - reflexivity.
Defined.

(** The category of the shop is gone once it is deleted. *)
Lemma X7_fruits_are_gone :
  fst (getCategoryById Scenario.envA (Cases.byId Scenario.idA)
         (snd (deleteCategory Scenario.envA (Cases.byId Scenario.idA) Cases.shop)))
  = notFound "Category".
Proof.
  apply (proj1 (proj1 (@X7_deleted_category_is_gone Scenario.envA
                         (Cases.byId Scenario.idA) Cases.shop
                         Scenario.envA (Cases.byId Scenario.idA)
                         ltac:(repeat constructor; cbn; tauto))
                  eq_refl));
    reflexivity.
Defined.

(** Renaming the category of the shop keeps the store otherwise. *)
Lemma X8_fruits_become_an_orchard :
  exists c c' l1 l2,
    categories (store Cases.shop) = (l1 ++ c :: l2)%list
    /\ c_id c = params_id Cases.moveFruits
    /\ categories (store (snd (updateCategory Scenario.envA Cases.moveFruits Cases.shop)))
       = (l1 ++ c' :: l2)%list
    /\ fst (updateCategory Scenario.envA Cases.moveFruits Cases.shop)
       = res_json (succeed (PCategory c'))
    /\ c_id c' = c_id c
    /\ (bodyField Cases.moveFruits "name" = None -> c_name c' = c_name c)
    /\ (bodyField Cases.moveFruits "iconUrl" = None -> c_iconUrl c' = c_iconUrl c)
    /\ (bodyField Cases.moveFruits "sort" = None -> c_sort c' = c_sort c)
    /\ (bodyField Cases.moveFruits "isActive" = None -> c_isActive c' = c_isActive c).
Proof.
  apply (proj1 (@X8_updateCategory_changes_the_submitted_keys Sample.externals Scenario.envA
                  Cases.moveFruits Cases.shop ltac:(repeat constructor; cbn; tauto))).
  reflexivity.
Defined.


(** The apple of the shop is a valid product with an image and a price,
    and stays so when a pear is created. *)
Lemma X9_apple_and_pear_are_valid :
  Forall validProduct (products (store (snd (run CreateProduct Scenario.envB Cases.pear
                                              Cases.shop))))
  /\ ((CreateProduct = UpdateProduct ->
       bodyField Cases.pear "images" <> Some (JArr [])
       /\ bodyField Cases.pear "unitPrices" <> Some (JArr [])) ->
      Forall stocked (products (store Cases.shop)) ->
      Forall stocked (products (store (snd (run CreateProduct Scenario.envB Cases.pear
                                              Cases.shop))))).
Proof.
  apply (@X9_stored_products_stay_valid Sample.externals CreateProduct Scenario.envB
           Cases.pear Cases.shop).
  constructor; [ | constructor].
  unfold validProduct, validUnitPrice, validRating. cbn.
  repeat split; try reflexivity; try discriminate; try tauto.
  - repeat constructor.
  - repeat constructor; cbn; try tauto; try reflexivity; try discriminate.
Defined.

(** The apple loses its images by an update that creation would refuse. *)
Lemma X10_apple_without_images :
  (status (fst (createProduct Scenario.envB Cases.noImages Cases.shop)) = 400
   /\ store (snd (createProduct Scenario.envB Cases.noImages Cases.shop)) = store Cases.shop)
  /\ exists p,
       lookupId p_id (params_id Cases.noImages)
         (products (store (snd (updateProduct Scenario.envB Cases.noImages Cases.shop))))
       = Some p
       /\ (bodyField Cases.noImages "images" = Some (JArr []) -> p_images p = [])
       /\ (bodyField Cases.noImages "unitPrices" = Some (JArr []) -> p_unitPrices p = [])
       /\ ~ stocked p.
Proof.
  destruct (@X10_update_empties_what_create_requires Sample.externals Scenario.envB
              Cases.noImages Cases.shop (or_introl eq_refl)) as [Hcreate Hupdate].
  split; [exact Hcreate | exact (Hupdate eq_refl)].
Defined.

(** The pear is created in the shop and found with its category. *)
Lemma X11_pear_is_found :
  exists d c,
    createProductSchema (body Cases.pear) = inr d
    /\ In c (categories (store Cases.shop)) /\ c_id c = cp_categoryId d
    /\ fst (createProduct Scenario.envB Cases.pear Cases.shop)
       = res_status_json 201
           (succeed (PProduct (Some (populated (newProduct Scenario.envB d) c))))
    /\ fst (getProductById Scenario.envA (Cases.byId Scenario.idB)
              (snd (createProduct Scenario.envB Cases.pear Cases.shop)))
       = res_json (succeed (PProduct (Some (populated (newProduct Scenario.envB d) c)))).
Proof.
  apply (@X11_created_product_is_found Sample.externals Scenario.envB Cases.pear Cases.shop
           Scenario.envA (Cases.byId Scenario.idB)); reflexivity.
Defined.

(** The apple is gone once it is deleted. *)
Lemma X12_apple_is_gone :
  fst (getProductById Scenario.envA (Cases.byId Scenario.idP)
         (snd (deleteProduct Scenario.envA (Cases.byId Scenario.idP) Cases.shop)))
  = notFound "Product".
Proof.
  apply (proj1 (proj1 (@X12_deleted_product_is_gone Scenario.envA
                         (Cases.byId Scenario.idP) Cases.shop
                         Scenario.envA (Cases.byId Scenario.idP)
                         ltac:(repeat constructor; cbn; tauto))
                  eq_refl));
    reflexivity.
Defined.

(** The pear is stored although its creation was answered 500. *)
Lemma X13_pear_is_stored_behind_a_500 :
  fst (createProduct Scenario.envB Cases.pear Cases.flakyShop)
  = res_status_json 500 (failure (Msg "Failed to create product"))
  /\ products (store (snd (createProduct Scenario.envB Cases.pear Cases.flakyShop)))
     = (products (store Cases.flakyShop) ++ [newProduct Scenario.envB Cases.pearData])%list
  /\ forall env',
       noFaults 2 (snd (createProduct Scenario.envB Cases.pear Cases.flakyShop)) ->
       fst (createProduct env' Cases.pear
              (snd (createProduct Scenario.envB Cases.pear Cases.flakyShop)))
       = nameTaken "Product"
       /\ store (snd (createProduct env' Cases.pear
                        (snd (createProduct Scenario.envB Cases.pear Cases.flakyShop))))
          = store (snd (createProduct Scenario.envB Cases.pear Cases.flakyShop)).
Proof.
  apply (@X13_createProduct_can_fail_after_its_insert Sample.externals Scenario.envB
           Cases.pear Cases.flakyShop Cases.pearData Scenario.fruits).
  - reflexivity.
  - reflexivity.
  - cbn. intros [Heq | []]. discriminate Heq.
  - cbn. intros [Heq | []]. discriminate Heq.
  - reflexivity.
  - reflexivity.
Defined.

(** A delivered order is put back to placed. *)
Lemma X15_delivered_order_is_reopened :
  lookupId o_id (params_id Cases.reopen)
    (orders (store (snd (updateOrderStatus Scenario.envA Cases.reopen Cases.book))))
  = Some (setStatus (Scenario.order "o2" "delivered" 300) "placed").
Proof.
  apply (proj1 (proj2 (@X15_any_status_change_is_accepted Scenario.envA Cases.reopen
                         Cases.book (Scenario.order "o2" "delivered" 300) "placed"
                         eq_refl ltac:(left; reflexivity) eq_refl eq_refl))).
Defined.

(** The counts of the book of six orders leave one order out. *)
Lemma X16_one_order_is_out_for_delivery :
  exists st,
    fst (getOrderStats Scenario.envA (Cases.byId "") Cases.book)
    = res_json (succeed (PStats st))
    /\ pendingOrders st + deliveredOrders st + cancelledOrders st <= totalOrders st
    /\ (statusesInEnum (store Cases.book) ->
        totalOrders st
        = pendingOrders st + deliveredOrders st + cancelledOrders st
          + List.length (filter (statusIs "out_for_delivery") (orders (store Cases.book)))).
Proof.
  apply (@X16_order_counts_add_up Sample.externals Scenario.envA (Cases.byId "")
           Cases.book).
  reflexivity.
Defined.

(** The apple comes with the name of its category. *)
Lemma X17_apple_comes_with_fruits :
  fst (getProductById Scenario.envA (Cases.byId Scenario.idP) Cases.shop)
  = res_json (succeed (PProduct (Some (populated Scenario.apple Scenario.fruits)))).
Proof.
  apply (proj1 (proj1 (@X17_references_are_populated_or_null Scenario.envA
                         (Cases.byId Scenario.idP) Cases.shop eq_refl)
                  Scenario.apple eq_refl) Scenario.fruits).
  - repeat constructor. cbn. tauto.
  - left. reflexivity.
  - reflexivity.
Defined.

(** The apple stays when its category is deleted, and comes without it. *)
Lemma X18_apple_without_fruits :
  products (store (snd (deleteCategory Scenario.envA (Cases.byId Scenario.idA) Cases.shop)))
  = products (store Cases.shop)
  /\ fst (getProductById Scenario.envA (Cases.byId Scenario.idP)
            (snd (deleteCategory Scenario.envA (Cases.byId Scenario.idA) Cases.shop)))
     = res_json (succeed (PProduct (Some (Scenario.apple, None)))).
Proof.
  apply (@X18_products_of_a_deleted_category Scenario.envA (Cases.byId Scenario.idA)
           Cases.shop Scenario.envA (Cases.byId Scenario.idP) Scenario.apple).
  - repeat constructor. cbn. tauto.
  - reflexivity.
  - reflexivity.
  - reflexivity.
  - reflexivity.
Defined.

(** The token of a header is taken whatever its scheme. *)
Lemma X20_basic_scheme_gives_the_token :
  bearerToken (Some ("Basic" ++ String " "%char "t0k3n")%string) = Some "t0k3n".
Proof.
  apply (proj1 (@X20_the_token_follows_the_first_space "Basic" "t0k3n" eq_refl eq_refl)).
  discriminate.
Defined.


(** The statistics are not taken for an order. *)
Lemma X21_two_orders_are_delivered :
  exists docs m,
    fst (getAllOrders Sample.env Cases.delivered Cases.book)
    = res_json (succeedMeta (POrders docs) m)
    /\ m_total m = 2
    /\ m_page m = Some 1%Z
    /\ m_limit m = Some 1%Z
    /\ m_pages m = Some 2%Z.
Proof.
  destruct (proj1 (@X21_lists_count_every_match Sample.externals Sample.env
                     Cases.delivered Cases.book) eq_refl)
    as [docs [m [Hr [Htotal [_ [_ [[Hpage _] [[_ Hlimit] [Hpages _]]]]]]]]].
  assert (Hst : plain Cases.delivered "status" (Some "delivered"))
    by (split; [reflexivity | discriminate]).
  assert (Hu : plain Cases.delivered "userId" None) by (left; reflexivity).
  pose proof (Htotal (Some "delivered") None Hst Hu) as Ht.
  assert (Hp : m_page m = Some 1%Z) by (apply Hpage; reflexivity).
  assert (Hl : m_limit m = Some 1%Z) by (apply (Hlimit "1"); reflexivity).
  assert (Hpos : (0 < 1)%Z) by reflexivity.
  destruct (Hpages 1%Z Hl Hpos) as [k [Hk Hbounds]].
  change (m_total m = 2) in Ht.
  exists docs, m. split; [exact Hr | ].
  split; [exact Ht | ]. split; [exact Hp | ]. split; [exact Hl | ].
  rewrite Hk. f_equal. rewrite Ht in Hbounds. cbn in Hbounds. lia.
Defined.

Lemma X23_stats_are_not_an_order :
  dispatch Scenario.letsThrough Scenario.letsThrough ordersRouter GET "/stats"
    Scenario.envA (Cases.byId "") Cases.book
  = served GetOrderStats Scenario.envA (withParams (Cases.byId "") []) Cases.book.
Proof.
  apply (proj1 (proj2 (proj2 (proj1 (proj2
           (@X23_requests_reach_their_controller Sample.externals
              Scenario.letsThrough Scenario.letsThrough Scenario.idA
              Scenario.envA (Cases.byId "") Cases.book
              (fun _ _ _ => eq_refl) (fun _ _ _ => eq_refl) eq_refl)))))).
Defined.

(** The administrator of the defaults logs in on a fresh store. *)
Lemma X25_default_administrator_logs_in :
  fst (adminLogin Scenario.envA
         (loginWith (adminEmail Setup.unset) (adminPassword Setup.unset))
         (snd (createAdminUser Setup.hashOf Setup.unset Setup.fresh)))
  = loggedIn (adminUser Setup.hashOf Setup.unset) "s3cret".
Proof.
  apply (@X25_created_administrator_can_log_in Sample.externals Setup.hashOf Setup.unset
           Scenario.envA Setup.fresh "s3cret").
  - reflexivity.
  - discriminate.
  - reflexivity.
  - reflexivity.
  - cbn. tauto.
  - cbn. tauto.
  - reflexivity.
  - reflexivity.
Defined.

(** Herbs are stored at the top of the list, active and without an icon. *)
Lemma X27_herbs_carry_the_defaults :
  exists c,
    fst (createCategory Scenario.envB Cases.herbs Cases.shop)
    = res_status_json 201 (succeed (PCategory c))
    /\ In c (categories (store (snd (createCategory Scenario.envB Cases.herbs Cases.shop))))
    /\ (bodyField Cases.herbs "sort" = None -> c_sort c = 0%Z)
    /\ (forall q, bodyField Cases.herbs "sort" = Some (JNum q) ->
          Qis_int q = true /\ c_sort c = Qto_Z q)
    /\ (bodyField Cases.herbs "isActive" = None -> c_isActive c = true)
    /\ (forall b, bodyField Cases.herbs "isActive" = Some (JBool b) -> c_isActive c = b)
    /\ (bodyField Cases.herbs "iconUrl" = None -> c_iconUrl c = None)
    /\ (forall u, c_iconUrl c = Some u ->
          bodyField Cases.herbs "iconUrl" = Some (JStr u)
          /\ (u = EmptyString \/ isUrl u = true)).
Proof.
  apply (@X27_created_category_carries_the_defaults Sample.externals Scenario.envB
           Cases.herbs Cases.shop).
  reflexivity.
Defined.

End OnMoreRequests.
